(** * Scoring application: leaderboard, score submission and sign-in

    A shallow embedding of the three pieces of logic of the repository:

    - [Leaderboard]  : [fetchLeaderboard] of [src/pages/Leaderboard.tsx]
      (per-team totals, descending sort, positional ranks);
    - [JudgeDashboard] : the score input handler and [saveScores] of
      [src/pages/JudgeDashboard.tsx], run against a model of the
      external data store (tables [scores] and [comments] of the
      migration);
    - [AuthContext] : [signIn] of the authentication context.

    JavaScript numbers that the code reads from [integer] columns are
    modelled as [Z] (the sums stay exact as long as they remain below
    2^53 in absolute value); JavaScript strings as [string]; the object
    used as a dictionary ([Record<string, number>]) as a [gmap]. *)

From Stdlib Require Import ZArith String Ascii List Sorted Permutation Lia.
From stdpp Require Import gmap strings list fin_maps sorting.

Local Open Scope Z_scope.

(** ** JavaScript array primitives shared by the pages *)

Module Js.

(** [Array.prototype.sort(comparefn)]: the language guarantees a
    stable sort; with a consistent comparator its result is the
    unique stably sorted arrangement, which insertion from the right
    computes ([x] is placed before the first [y] with
    [comparefn x y <= 0], so equal elements keep their input order). *)
Fixpoint sort_insert {A} (comparefn : A -> A -> Z) (x : A) (l : list A) : list A :=
  match l with
  | [] => [x]
  | y :: l' =>
      if comparefn x y <=? 0 then x :: y :: l'
      else y :: sort_insert comparefn x l'
  end.

Definition sort {A} (comparefn : A -> A -> Z) (l : list A) : list A :=
  fold_right (sort_insert comparefn) [] l.

(** Non-increasing order of a numeric key: what [sort] produces for
    the comparator [(a, b) => key b - key a]. *)
Definition desc {A} (key : A -> Z) (a b : A) : Prop := key b <= key a.

(** [arr.reduce((acc, x) => f acc x, init)] *)
Definition reduce {A B} (f : B -> A -> B) (init : B) (l : list A) : B :=
  fold_left f l init.

(** Strings are sequences of code units below 256.  The white space
    and line terminators of the language in that range: TAB, LF, VT,
    FF, CR, SP and NBSP. *)
Definition is_white (c : ascii) : bool :=
  existsb (Nat.eqb (nat_of_ascii c)) [9; 10; 11; 12; 13; 32; 160]%nat.

Fixpoint trimStart (s : string) : string :=
  match s with
  | EmptyString => EmptyString
  | String c s' => if is_white c then trimStart s' else s
  end.

Fixpoint trimEnd (s : string) : string :=
  match s with
  | EmptyString => EmptyString
  | String c s' =>
      match trimEnd s' with
      | EmptyString => if is_white c then EmptyString else String c EmptyString
      | t => String c t
      end
  end.

(** [String.prototype.trim] *)
Definition trim (s : string) : string := trimEnd (trimStart s).

(** A string in a condition: only [''] is falsy. *)
Definition truthy (s : string) : bool :=
  match s with
  | EmptyString => false
  | String _ _ => true
  end.

End Js.

(** ** The data-service client ([lib/supabase]) as the pages see it *)

Module Supabase.

(** The [error] member of a reply.  [instanceofError] records whether
    the object passes [error instanceof Error], which the pages test
    before showing [error.message]. *)
Record StoreError := { message : string; instanceofError : bool }.

(** Reply of a query: [{ data, error }]. *)
Record Reply (A : Type) := { data : option A; error : option StoreError }.
Arguments data {A} _.
Arguments error {A} _.

(** The error object the client builds when [maybeSingle] meets more
    than one row (a plain object literal). *)
Definition PGRST116 : StoreError :=
  {| message := "JSON object requested, multiple (or no) rows returned";
     instanceofError := false |}.

(** [.maybeSingle()]: no row is [data: null] without error, one row is
    that row, several rows are an error; an error of the request
    itself ([fault]) is passed on. *)
Definition maybeSingle {A} (fault : option StoreError) (rows : list A) : Reply A :=
  match fault with
  | Some e => {| data := None; error := Some e |}
  | None =>
      match rows with
      | [] => {| data := None; error := None |}
      | [r] => {| data := Some r; error := None |}
      | _ :: _ :: _ => {| data := None; error := Some PGRST116 |}
      end
  end.

End Supabase.

(** ** Leaderboard.tsx *)

Module Leaderboard.

(** Row of [supabase.from('scores').select('team_id, score')]. *)
Record ScoreSel := { s_team_id : string; s_score : Z }.

(** Row of [supabase.from('teams').select('id, name')]. *)
Record TeamSel := { t_id : string; t_name : string }.

(** The object built by [teams.map] before ranks are assigned. *)
Record TeamScore :=
  { ts_team_id : string; ts_team_name : string; ts_total_score : Z }.

Record LeaderboardEntry :=
  { team_id : string; team_name : string; total_score : Z; rank : Z }.

(** [scores?.filter(s => s.team_id === team.id) || []] *)
Definition teamScoreData (scores : option (list ScoreSel)) (team : TeamSel)
  : list ScoreSel :=
  match scores with
  | Some ss => List.filter (fun s => String.eqb (s_team_id s) (t_id team)) ss
  | None => []
  end.

Definition teamScores (scores : option (list ScoreSel)) (teams : list TeamSel)
  : list TeamScore :=
  map (fun team =>
         let totalScore :=
           Js.reduce (fun sum s => sum + s_score s) 0 (teamScoreData scores team) in
         {| ts_team_id := t_id team;
            ts_team_name := t_name team;
            ts_total_score := totalScore |}) teams.

(** [(a, b) => b.total_score - a.total_score] *)
Definition byTotalDesc (a b : TeamScore) : Z :=
  ts_total_score b - ts_total_score a.

(** [teamScores.map((entry, index) => ({...entry, rank: index + 1}))] *)
Definition withRank (index : nat) (entry : TeamScore) : LeaderboardEntry :=
  {| team_id := ts_team_id entry;
     team_name := ts_team_name entry;
     total_score := ts_total_score entry;
     rank := Z.of_nat index + 1 |}.

Definition rankedData (scores : option (list ScoreSel)) (teams : list TeamSel)
  : list LeaderboardEntry :=
  imap withRank (Js.sort byTotalDesc (teamScores scores teams)).

Record PageState :=
  { leaderboard : list LeaderboardEntry; loading : bool }.

Definition finally_ (st : PageState) : PageState :=
  {| leaderboard := leaderboard st; loading := false |}.

(** [fetchLeaderboard]: either fetch reporting an error throws, as
    does [teams.map] on a [null] team list; the [catch] only logs, and
    [finally] clears the loading flag. *)
Definition fetchLeaderboard
    (scoresReply : Supabase.Reply (list ScoreSel))
    (teamsReply : Supabase.Reply (list TeamSel))
    (st : PageState) : PageState :=
  match Supabase.error scoresReply with
  | Some _ => finally_ st
  | None =>
      match Supabase.error teamsReply with
      | Some _ => finally_ st
      | None =>
          match Supabase.data teamsReply with
          | None => finally_ st
          | Some teams =>
              finally_ {| leaderboard := rankedData (Supabase.data scoresReply) teams;
                          loading := loading st |}
          end
      end
  end.

(** The rows of the score set ([null] reads as no rows). *)
Definition rows (scores : option (list ScoreSel)) : list ScoreSel :=
  match scores with Some ss => ss | None => [] end.

(** Specification-side total: the integer sum of the [score] fields of
    the rows whose [team_id] is [tid]. *)
Fixpoint sum_for (tid : string) (ss : list ScoreSel) : Z :=
  match ss with
  | [] => 0
  | s :: ss' =>
      (if String.eqb (s_team_id s) tid then s_score s else 0) + sum_for tid ss'
  end.

Definition has_team_id (tid : string) (e : LeaderboardEntry) : bool :=
  String.eqb (team_id e) tid.

Definition forget_rank (e : LeaderboardEntry) : TeamScore :=
  {| ts_team_id := team_id e;
     ts_team_name := team_name e;
     ts_total_score := total_score e |}.

End Leaderboard.

(** ** AuthContext: the current identity and [signIn] *)

Module AuthContext.

Inductive UserRole := admin | judge | team.

Module AuthUser.
Record t :=
  { role : UserRole; id : string; name : string; email : option string }.
End AuthUser.

(** [credentials: { email?, password?, name? }] *)
Module Credentials.
Record t :=
  { email : option string; password : option string; name : option string }.
End Credentials.

(** Row of [judges] and of [teams]. *)
Module NamedRow.
Record t := { id : string; name : string; created_at : string }.
End NamedRow.

(** The user of a successful [signInWithPassword]. *)
Module SessionUser.
Record t := { id : string; email : option string }.
End SessionUser.

(** What [signIn] talks to: the two tables it reads, the identity
    provider, and the error (if any) with which the store answers
    the name lookup. *)
Record Backend :=
  { judges : list NamedRow.t;
    teams : list NamedRow.t;
    signInWithPassword : string -> string -> Supabase.StoreError + SessionUser.t;
    lookup_fault : option Supabase.StoreError }.

(** The provider's state: [user] and the [authUser] slot of
    [localStorage] (kept as the value [JSON.parse] gives back). *)
Record AuthState :=
  { user : option AuthUser.t; stored_authUser : option AuthUser.t }.

(** A thrown value: [new Error(message)] or the reply's [error]. *)
Inductive Thrown :=
| JsError (message : string)
| Upstream (e : Supabase.StoreError).

Inductive Res (A : Type) :=
| Ok (a : A)
| Throw (e : Thrown).
Arguments Ok {A} _.
Arguments Throw {A} _.

(** [!s] for an optional string: [undefined] and [''] are falsy. *)
Definition falsy (s : option string) : bool :=
  match s with
  | None => true
  | Some v => String.eqb v ""
  end.

(** [setUser(authUser); localStorage.setItem('authUser', ...)] *)
Definition establish (authUser : AuthUser.t) : AuthState :=
  {| user := Some authUser; stored_authUser := Some authUser |}.

(** [.eq('name', name)]: the rows whose [name] is exactly [name]. *)
Definition named (name : string) (table : list NamedRow.t) : list NamedRow.t :=
  List.filter (fun r => String.eqb (NamedRow.name r) name) table.

(** [from(table).select('*').eq('name', name).maybeSingle()] *)
Definition lookupByName (fault : option Supabase.StoreError)
    (table : list NamedRow.t) (name : string) : Supabase.Reply NamedRow.t :=
  Supabase.maybeSingle fault (named name table).

(** The branch shared by the judge and the team role. *)
Definition signInByName (r : UserRole) (required notFound : string)
    (fault : option Supabase.StoreError) (table : list NamedRow.t)
    (name : option string) (st : AuthState) : Res unit * AuthState :=
  if falsy name then (Throw (JsError required), st)
  else
    let reply := lookupByName fault table (default "" name) in
    match Supabase.error reply with
    | Some e => (Throw (Upstream e), st)
    | None =>
        match Supabase.data reply with
        | None => (Throw (JsError notFound), st)
        | Some row =>
            (Ok tt,
             establish {| AuthUser.role := r;
                          AuthUser.id := NamedRow.id row;
                          AuthUser.name := NamedRow.name row;
                          AuthUser.email := None |})
        end
    end.

Definition signIn (b : Backend) (r : UserRole) (credentials : Credentials.t)
    (st : AuthState) : Res unit * AuthState :=
  match r with
  | admin =>
      if falsy (Credentials.email credentials)
         || falsy (Credentials.password credentials)
      then (Throw (JsError "Email and password required for admin login"), st)
      else
        match signInWithPassword b
                (default "" (Credentials.email credentials))
                (default "" (Credentials.password credentials)) with
        | inl e => (Throw (Upstream e), st)
        | inr u =>
            (Ok tt,
             establish {| AuthUser.role := admin;
                          AuthUser.id := SessionUser.id u;
                          AuthUser.name := "Admin";
                          AuthUser.email := SessionUser.email u |})
        end
  | judge =>
      signInByName judge "Name required for judge login" "Judge not found"
        (lookup_fault b) (judges b) (Credentials.name credentials) st
  | team =>
      signInByName team "Name required for team login" "Team not found"
        (lookup_fault b) (teams b) (Credentials.name credentials) st
  end.

(** The table a role is looked up in, and the messages of its branch. *)
Definition table_of (b : Backend) (r : UserRole) : list NamedRow.t :=
  match r with
  | admin => []
  | judge => judges b
  | team => teams b
  end.

Definition notFoundMessage (r : UserRole) : string :=
  match r with
  | admin => ""
  | judge => "Judge not found"
  | team => "Team not found"
  end.

Definition requiredMessage (r : UserRole) : string :=
  match r with
  | admin => "Email and password required for admin login"
  | judge => "Name required for judge login"
  | team => "Name required for team login"
  end.

(** What [Login.handleSubmit] shows for a thrown value:
    [err instanceof Error ? err.message : 'Login failed']. *)
Definition shownError (e : Thrown) : string :=
  match e with
  | JsError m => m
  | Upstream e =>
      if Supabase.instanceofError e then Supabase.message e else "Login failed"
  end.

End AuthContext.

(** ** The external store: tables [scores] and [comments] *)

Module Store.

Module ScoreRow.
Record t :=
  { id : string; team_id : string; judge_id : string; category_id : string;
    score : Z; created_at : string; updated_at : string }.
End ScoreRow.

Module CommentRow.
Record t :=
  { id : string; team_id : string; judge_id : string; comment : string;
    created_at : string; updated_at : string }.
End CommentRow.

(** The object handed to [upsert]. *)
Module ScorePayload.
Record t :=
  { team_id : string; judge_id : string; category_id : string;
    score : Z; updated_at : string }.
End ScorePayload.

(** The requests the judge page sends. *)
Inductive Request :=
| UpsertScore (payload : ScorePayload.t)
| UpdateComment (id comment updated_at : string)
| InsertComment (team_id judge_id comment : string)
| SelectScores (team_id judge_id : string)
| SelectComment (team_id judge_id : string).

Definition is_write (r : Request) : bool :=
  match r with
  | UpsertScore _ | UpdateComment _ _ _ | InsertComment _ _ _ => true
  | SelectScores _ _ | SelectComment _ _ => false
  end.

(** What the page does not control, indexed by the number of the
    request being made: the browser clock read for the payload
    ([new Date().toISOString()]), whether the store answers with an
    error, and the store's [gen_random_uuid()] and [now()] defaults. *)
Record Env :=
  { clock : nat -> string;
    fault : nat -> Request -> option Supabase.StoreError;
    gen_random_uuid : nat -> string;
    db_now : nat -> string }.

(** The tables, and the requests sent so far (oldest first). *)
Record World :=
  { scores_tbl : list ScoreRow.t;
    comments_tbl : list CommentRow.t;
    sent : list Request }.

(** The conflict target [UNIQUE(team_id, judge_id, category_id)]. *)
Definition has_key (t j c : string) (r : ScoreRow.t) : bool :=
  String.eqb (ScoreRow.team_id r) t
  && String.eqb (ScoreRow.judge_id r) j
  && String.eqb (ScoreRow.category_id r) c.

Definition conflicts (p : ScorePayload.t) (r : ScoreRow.t) : bool :=
  has_key (ScorePayload.team_id p) (ScorePayload.judge_id p)
          (ScorePayload.category_id p) r.

(** [ON CONFLICT (team_id, judge_id, category_id) DO UPDATE]: the
    columns of the payload overwrite the row's. *)
Definition overwrite (p : ScorePayload.t) (r : ScoreRow.t) : ScoreRow.t :=
  {| ScoreRow.id := ScoreRow.id r;
     ScoreRow.team_id := ScorePayload.team_id p;
     ScoreRow.judge_id := ScorePayload.judge_id p;
     ScoreRow.category_id := ScorePayload.category_id p;
     ScoreRow.score := ScorePayload.score p;
     ScoreRow.created_at := ScoreRow.created_at r;
     ScoreRow.updated_at := ScorePayload.updated_at p |}.

Definition inserted (env : Env) (n : nat) (p : ScorePayload.t) : ScoreRow.t :=
  {| ScoreRow.id := gen_random_uuid env n;
     ScoreRow.team_id := ScorePayload.team_id p;
     ScoreRow.judge_id := ScorePayload.judge_id p;
     ScoreRow.category_id := ScorePayload.category_id p;
     ScoreRow.score := ScorePayload.score p;
     ScoreRow.created_at := db_now env n;
     ScoreRow.updated_at := ScorePayload.updated_at p |}.

(** Upsert: overwrite if a row with the key is present, insert if absent. *)
Definition upsert (env : Env) (n : nat) (p : ScorePayload.t)
    (tbl : list ScoreRow.t) : list ScoreRow.t :=
  if existsb (conflicts p) tbl
  then map (fun r => if conflicts p r then overwrite p r else r) tbl
  else tbl ++ [inserted env n p].

(** [update({comment, updated_at}).eq('id', id)] *)
Definition update_comment (id comment updated_at : string)
    (tbl : list CommentRow.t) : list CommentRow.t :=
  map (fun r =>
         if String.eqb (CommentRow.id r) id
         then {| CommentRow.id := CommentRow.id r;
                 CommentRow.team_id := CommentRow.team_id r;
                 CommentRow.judge_id := CommentRow.judge_id r;
                 CommentRow.comment := comment;
                 CommentRow.created_at := CommentRow.created_at r;
                 CommentRow.updated_at := updated_at |}
         else r) tbl.

(** [insert({team_id, judge_id, comment})]: the other columns take
    their defaults. *)
Definition insert_comment (env : Env) (n : nat) (t j comment : string)
    (tbl : list CommentRow.t) : list CommentRow.t :=
  tbl ++ [ {| CommentRow.id := gen_random_uuid env n;
              CommentRow.team_id := t;
              CommentRow.judge_id := j;
              CommentRow.comment := comment;
              CommentRow.created_at := db_now env n;
              CommentRow.updated_at := db_now env n |} ].

(** The effect on the tables of request number [n] when the store
    accepts it. *)
Definition effect (env : Env) (n : nat) (r : Request) (w : World) : World :=
  match r with
  | UpsertScore p =>
      {| scores_tbl := upsert env n p (scores_tbl w);
         comments_tbl := comments_tbl w; sent := sent w |}
  | UpdateComment id c ts =>
      {| scores_tbl := scores_tbl w;
         comments_tbl := update_comment id c ts (comments_tbl w);
         sent := sent w |}
  | InsertComment t j c =>
      {| scores_tbl := scores_tbl w;
         comments_tbl := insert_comment env n t j c (comments_tbl w);
         sent := sent w |}
  | SelectScores _ _ | SelectComment _ _ => w
  end.

Definition record (r : Request) (w : World) : World :=
  {| scores_tbl := scores_tbl w; comments_tbl := comments_tbl w;
     sent := sent w ++ [r] |}.

(** Sending a request: it is recorded; the store either answers with
    an error and changes nothing, or carries it out. *)
Definition send (env : Env) (r : Request) (w : World)
  : option Supabase.StoreError * World :=
  let n := length (sent w) in
  match fault env n r with
  | Some e => (Some e, record r w)
  | None => (None, record r (effect env n r w))
  end.

(** [.eq('team_id', t).eq('judge_id', j)] on either table. *)
Definition scores_of (t j : string) (w : World) : list ScoreRow.t :=
  List.filter (fun r => String.eqb (ScoreRow.team_id r) t
                        && String.eqb (ScoreRow.judge_id r) j) (scores_tbl w).

Definition comments_of (t j : string) (w : World) : list CommentRow.t :=
  List.filter (fun r => String.eqb (CommentRow.team_id r) t
                        && String.eqb (CommentRow.judge_id r) j) (comments_tbl w).

(** The key [(t, j, c)] holds the value [v]: a row with the key is
    present and every row with the key has score [v]. *)
Definition settled (t j c : string) (v : Z) (tbl : list ScoreRow.t) : Prop :=
  existsb (has_key t j c) tbl = true /\
  Forall (fun r => has_key t j c r = true -> ScoreRow.score r = v) tbl.

(** A score row without its [updated_at] column. *)
Definition forget_updated_at (r : ScoreRow.t) : ScoreRow.t :=
  {| ScoreRow.id := ScoreRow.id r;
     ScoreRow.team_id := ScoreRow.team_id r;
     ScoreRow.judge_id := ScoreRow.judge_id r;
     ScoreRow.category_id := ScoreRow.category_id r;
     ScoreRow.score := ScoreRow.score r;
     ScoreRow.created_at := ScoreRow.created_at r;
     ScoreRow.updated_at := "" |}.

End Store.

(** ** JudgeDashboard.tsx *)

Module JudgeDashboard.
Import Store.
Module AuthUser := AuthContext.AuthUser.

Module Team.
Record t := { id : string; name : string }.
End Team.

Module Category.
Record t := { id : string; name : string; max_score : Z }.
End Category.

Module Comment.
Record t := { id : string; comment : string }.
End Comment.

(** The component's state; [alerts] collects the arguments of
    [alert], oldest first. *)
Record Page :=
  { teams : list Team.t;
    categories : list Category.t;
    selectedTeam : option Team.t;
    scores : gmap string Z;
    comment : string;
    existingComment : option Comment.t;
    loading : bool;
    alerts : list string }.

Definition setScores (m : gmap string Z) (p : Page) : Page :=
  {| teams := teams p; categories := categories p;
     selectedTeam := selectedTeam p; scores := m; comment := comment p;
     existingComment := existingComment p; loading := loading p;
     alerts := alerts p |}.

Definition setComment (s : string) (p : Page) : Page :=
  {| teams := teams p; categories := categories p;
     selectedTeam := selectedTeam p; scores := scores p; comment := s;
     existingComment := existingComment p; loading := loading p;
     alerts := alerts p |}.

Definition setExistingComment (c : option Comment.t) (p : Page) : Page :=
  {| teams := teams p; categories := categories p;
     selectedTeam := selectedTeam p; scores := scores p; comment := comment p;
     existingComment := c; loading := loading p; alerts := alerts p |}.

Definition setLoading (b : bool) (p : Page) : Page :=
  {| teams := teams p; categories := categories p;
     selectedTeam := selectedTeam p; scores := scores p; comment := comment p;
     existingComment := existingComment p; loading := b; alerts := alerts p |}.

Definition alert (msg : string) (p : Page) : Page :=
  {| teams := teams p; categories := categories p;
     selectedTeam := selectedTeam p; scores := scores p; comment := comment p;
     existingComment := existingComment p; loading := loading p;
     alerts := alerts p ++ [msg] |}.

(** *** The score input

    [onChange] of the number input of [category]; [parsed] is the
    result of [parseInt(e.target.value)], [None] standing for [NaN]. *)
Definition orZero (parsed : option Z) : Z :=
  match parsed with
  | Some v => v
  | None => 0
  end.

Definition clamp (value max_score : Z) : Z :=
  Z.min (Z.max 0 value) max_score.

Definition onChange (parsed : option Z) (category : Category.t) (p : Page) : Page :=
  let value := orZero parsed in
  let clampedValue := clamp value (Category.max_score category) in
  setScores (<[Category.id category := clampedValue]> (scores p)) p.

(** *** Requests that may throw

    [saveScores] awaits each write and throws the reply's error: a
    computation over the store either returns or throws, and a throw
    skips what follows. *)
Inductive Res (A : Type) :=
| Ok (a : A)
| Throw (e : Supabase.StoreError).
Arguments Ok {A} _.
Arguments Throw {A} _.

Definition M (A : Type) : Type := World -> Res A * World.

Definition ret {A} (a : A) : M A := fun w => (Ok a, w).

Definition bind {A B} (m : M A) (k : A -> M B) : M B :=
  fun w =>
    match m w with
    | (Ok a, w') => k a w'
    | (Throw e, w') => (Throw e, w')
    end.

(** [const { error } = await request; if (error) throw error;] where
    the request is built when it is sent (it may read the clock). *)
Definition write (env : Env) (mk : nat -> Request) : M unit :=
  fun w =>
    match send env (mk (length (sent w))) w with
    | (Some e, w') => (Throw e, w')
    | (None, w') => (Ok tt, w')
    end.

(** [for (const x of l) body] *)
Fixpoint forOf {A} (body : A -> M unit) (l : list A) : M unit :=
  match l with
  | [] => ret tt
  | x :: l' => bind (body x) (fun _ => forOf body l')
  end.

(** *** saveScores *)

Definition upsertRequest (env : Env) (team : Team.t) (user : AuthUser.t)
    (category : Category.t) (score : Z) (n : nat) : Request :=
  UpsertScore {| ScorePayload.team_id := Team.id team;
                 ScorePayload.judge_id := AuthUser.id user;
                 ScorePayload.category_id := Category.id category;
                 ScorePayload.score := score;
                 ScorePayload.updated_at := clock env n |}.

(** The body of the loop over [categories]. *)
Definition saveCategory (env : Env) (team : Team.t) (user : AuthUser.t)
    (p : Page) (category : Category.t) : M unit :=
  match scores p !! Category.id category with
  | Some score => write env (upsertRequest env team user category score)
  | None => ret tt
  end.

Definition commentRequest (env : Env) (team : Team.t) (user : AuthUser.t)
    (p : Page) (n : nat) : Request :=
  match existingComment p with
  | Some c => UpdateComment (Comment.id c) (Js.trim (comment p)) (clock env n)
  | None => InsertComment (Team.id team) (AuthUser.id user) (Js.trim (comment p))
  end.

(** [if (comment.trim()) { ... }] *)
Definition saveComment (env : Env) (team : Team.t) (user : AuthUser.t)
    (p : Page) : M unit :=
  if Js.truthy (Js.trim (comment p))
  then write env (commentRequest env team user p)
  else ret tt.

(** The [try] block up to the last write. *)
Definition submit (env : Env) (team : Team.t) (user : AuthUser.t)
    (p : Page) : M unit :=
  bind (forOf (saveCategory env team user p) (categories p))
       (fun _ => saveComment env team user p).

(** [fetchScoresForTeam(teamId)] *)
Definition fetchScoresForTeam (env : Env) (user : AuthUser.t) (teamId : string)
    (p : Page) (w : World) : Page * World :=
  match send env (SelectScores teamId (AuthUser.id user)) w with
  | (None, w') =>
      let data := scores_of teamId (AuthUser.id user) w' in
      let scoresMap :=
        fold_left (fun m score =>
                     <[ScoreRow.category_id score := ScoreRow.score score]> m)
                  data ∅ in
      (setScores scoresMap p, w')
  | (Some _, w') => (setScores ∅ p, w')
  end.

(** [fetchCommentForTeam(teamId)] *)
Definition fetchCommentForTeam (env : Env) (user : AuthUser.t) (teamId : string)
    (p : Page) (w : World) : Page * World :=
  let '(err, w') := send env (SelectComment teamId (AuthUser.id user)) w in
  let reply := Supabase.maybeSingle err (comments_of teamId (AuthUser.id user) w') in
  match Supabase.error reply, Supabase.data reply with
  | None, Some row =>
      (setComment (CommentRow.comment row)
         (setExistingComment
            (Some {| Comment.id := CommentRow.id row;
                     Comment.comment := CommentRow.comment row |}) p), w')
  | _, _ => (setComment "" (setExistingComment None p), w')
  end.

(** [error instanceof Error ? error.message : 'Failed to save scores'] *)
Definition failureMessage (e : Supabase.StoreError) : string :=
  if Supabase.instanceofError e then Supabase.message e
  else "Failed to save scores".

(** [saveScores]: after the writes the two fetches are started and
    not awaited; they are run here to completion before anything
    else happens to the page. *)
Definition saveScores (env : Env) (user : option AuthUser.t)
    (p : Page) (w : World) : Page * World :=
  match selectedTeam p, user with
  | Some team, Some u =>
      match submit env team u (setLoading true p) w with
      | (Ok _, w1) =>
          let p1 := alert "Scores and comment saved successfully!" (setLoading true p) in
          let '(p2, w2) := fetchScoresForTeam env u (Team.id team) p1 w1 in
          let '(p3, w3) := fetchCommentForTeam env u (Team.id team) p2 w2 in
          (setLoading false p3, w3)
      | (Throw e, w1) =>
          (setLoading false (alert (failureMessage e) (setLoading true p)), w1)
      end
  | _, _ => (p, w)
  end.

(** *** The writes a submission consists of

    All category upserts in the order of [categories], then the
    comment write, when every one of them is accepted; [n] is the
    number of the first request. *)
Fixpoint plannedWrites (env : Env) (team : Team.t) (user : AuthUser.t)
    (p : Page) (cats : list Category.t) (n : nat) : list Request :=
  match cats with
  | [] =>
      if Js.truthy (Js.trim (comment p))
      then [commentRequest env team user p n]
      else []
  | category :: cats' =>
      match scores p !! Category.id category with
      | Some score =>
          upsertRequest env team user category score n
            :: plannedWrites env team user p cats' (S n)
      | None => plannedWrites env team user p cats' n
      end
  end.

(** Carrying out accepted requests numbered from [n]. *)
Fixpoint applyAll (env : Env) (n : nat) (reqs : list Request) (w : World) : World :=
  match reqs with
  | [] => w
  | r :: reqs' => applyAll env (S n) reqs' (record r (effect env n r w))
  end.

(** Sending fixed requests in order until one is refused. *)
Fixpoint sendAll (env : Env) (reqs : list Request) : M unit :=
  match reqs with
  | [] => ret tt
  | r :: reqs' => bind (write env (fun _ => r)) (fun _ => sendAll env reqs')
  end.

(** The keys a submission may write: the selected team, the acting
    judge, and a category of the page for which the score map holds a
    value. *)
Definition submitted_key (p : Page) (user : option AuthUser.t)
    (t j c : string) : Prop :=
  exists team u category,
    selectedTeam p = Some team /\ user = Some u /\
    t = Team.id team /\ j = AuthUser.id u /\
    In category (categories p) /\ c = Category.id category /\
    is_Some (scores p !! c).

(** An upsert payload that carries, for the pair [(team, user)], the
    value the score map of [p] holds for its category. *)
Definition from_page (team : Team.t) (user : AuthUser.t) (p : Page)
    (q : ScorePayload.t) : Prop :=
  ScorePayload.team_id q = Team.id team /\
  ScorePayload.judge_id q = AuthUser.id user /\
  scores p !! ScorePayload.category_id q = Some (ScorePayload.score q).

Definition is_comment_write (r : Request) : bool :=
  match r with
  | UpdateComment _ _ _ | InsertComment _ _ _ => true
  | _ => false
  end.

(** *** A judge's session on one team

    What the judge does between page loads: edit the comment box,
    change a score input, press save. *)
Inductive Action :=
| TypeComment (text : string)
| ChangeScore (parsed : option Z) (category : Category.t)
| Save.

Definition act (env : Env) (user : AuthUser.t) (a : Action)
    (s : Page * World) : Page * World :=
  match a with
  | TypeComment text => (setComment text (fst s), snd s)
  | ChangeScore parsed category => (onChange parsed category (fst s), snd s)
  | Save => saveScores env (Some user) (fst s) (snd s)
  end.

Definition session (env : Env) (user : AuthUser.t) (actions : list Action)
    (s : Page * World) : Page * World :=
  fold_left (fun s a => act env user a s) actions s.

(** The ids of the comments the page knows of: at most one. *)
Definition known_ids (p : Page) : list string :=
  match existingComment p with
  | None => []
  | Some c => [Comment.id c]
  end.

(** The page's [existingComment] agrees with the store: no comment of
    the pair and none known, or exactly one and that one known. *)
Definition in_sync (team : Team.t) (user : AuthUser.t) (p : Page) (w : World) : Prop :=
  selectedTeam p = Some team /\
  match comments_of (Team.id team) (AuthUser.id user) w with
  | [] => existingComment p = None
  | [row] => exists c, existingComment p = Some c /\ Comment.id c = CommentRow.id row
  | _ :: _ :: _ => False
  end.

End JudgeDashboard.

(** ** Concrete data used in the examples *)

Module Scenario.
Import Store JudgeDashboard.

(** The leaderboard scenario of the specification: judges A and B
    score team X 8, 7 and 6, 9; team Y has no score rows. *)
Definition demo_teams : list Leaderboard.TeamSel :=
  [ {| Leaderboard.t_id := "Y"; Leaderboard.t_name := "Team Y" |};
    {| Leaderboard.t_id := "X"; Leaderboard.t_name := "Team X" |} ].

Definition demo_scores : list Leaderboard.ScoreSel :=
  [ {| Leaderboard.s_team_id := "X"; Leaderboard.s_score := 8 |};
    {| Leaderboard.s_team_id := "X"; Leaderboard.s_score := 7 |};
    {| Leaderboard.s_team_id := "X"; Leaderboard.s_score := 6 |};
    {| Leaderboard.s_team_id := "X"; Leaderboard.s_score := 9 |} ].

Definition judgeA : AuthUser.t :=
  {| AuthUser.role := AuthContext.judge; AuthUser.id := "jA";
     AuthUser.name := "Judge A"; AuthUser.email := None |}.

Definition teamX : Team.t := {| Team.id := "X"; Team.name := "Team X" |}.

Definition innovation : Category.t :=
  {| Category.id := "c-inn"; Category.name := "Innovation"; Category.max_score := 10 |}.

Definition design : Category.t :=
  {| Category.id := "c-des"; Category.name := "Design"; Category.max_score := 10 |}.

Definition denied : Supabase.StoreError :=
  {| Supabase.message := "permission denied"; Supabase.instanceofError := false |}.

Definition uuid (n : nat) : string := String.append "row-" (String (ascii_of_nat (48 + n)) "").

(** A store that accepts every request. *)
Definition env_ok : Env :=
  {| clock := fun _ => "2026-01-21T10:00:00Z";
     fault := fun _ _ => None;
     gen_random_uuid := uuid;
     db_now := fun _ => "2026-01-21T10:00:01Z" |}.

(** A store that refuses the first request it receives. *)
Definition env_refuse_first : Env :=
  {| clock := fun _ => "2026-01-21T10:00:00Z";
     fault := fun n _ => match n with O => Some denied | S _ => None end;
     gen_random_uuid := uuid;
     db_now := fun _ => "2026-01-21T10:00:01Z" |}.

(** A later clock, for a second submission. *)
Definition env_later : Env :=
  {| clock := fun _ => "2026-01-21T11:30:00Z";
     fault := fun _ _ => None;
     gen_random_uuid := uuid;
     db_now := fun _ => "2026-01-21T11:30:01Z" |}.

Definition page0 : Page :=
  {| teams := [teamX];
     categories := [innovation; design];
     selectedTeam := Some teamX;
     scores := <["c-inn" := 8]> (<["c-des" := 7]> ∅);
     comment := "  solid demo ";
     existingComment := None;
     loading := false;
     alerts := [] |}.

Definition world0 : World :=
  {| scores_tbl := []; comments_tbl := []; sent := [] |}.

(** A page on which nothing has been entered yet. *)
Definition page_blank : Page :=
  {| teams := [teamX];
     categories := [innovation; design];
     selectedTeam := Some teamX;
     scores := ∅;
     comment := "";
     existingComment := None;
     loading := false;
     alerts := [] |}.

(** A store that already holds 15 for Innovation. *)
Definition world_legacy : World :=
  {| scores_tbl :=
       [ {| ScoreRow.id := "row-0"; ScoreRow.team_id := "X";
            ScoreRow.judge_id := "jA"; ScoreRow.category_id := "c-inn";
            ScoreRow.score := 15;
            ScoreRow.created_at := "2026-01-20T09:00:00Z";
            ScoreRow.updated_at := "2026-01-20T09:00:00Z" |} ];
     comments_tbl := [];
     sent := [] |}.

(** Innovation while its maximum was still 20, and the page of that time. *)
Definition innovation20 : Category.t :=
  {| Category.id := "c-inn"; Category.name := "Innovation"; Category.max_score := 20 |}.

Definition page_before : Page :=
  {| teams := [teamX];
     categories := [innovation20; design];
     selectedTeam := Some teamX;
     scores := ∅;
     comment := "";
     existingComment := None;
     loading := false;
     alerts := [] |}.

(** The judge enters 15 for Innovation and saves; later, the maximum
    having been lowered to 10, the page is opened again and loads the
    stored scores. *)
Definition first_visit : Page * World :=
  saveScores env_ok (Some judgeA) (onChange (Some 15) innovation20 page_before) world0.

Definition second_visit : Page * World :=
  fetchScoresForTeam env_later judgeA "X" page_blank (snd first_visit).

(** A category whose [max_score] column is negative. *)
Definition penalty : Category.t :=
  {| Category.id := "c-pen"; Category.name := "Penalty"; Category.max_score := -5 |}.

(** Sign-in: a store with two judges of the same name and one team,
    and a provider that knows no administrator. *)
Definition ann1 : AuthContext.NamedRow.t :=
  {| AuthContext.NamedRow.id := "j1"; AuthContext.NamedRow.name := "Ann";
     AuthContext.NamedRow.created_at := "2026-01-21T10:00:00Z" |}.

Definition ann2 : AuthContext.NamedRow.t :=
  {| AuthContext.NamedRow.id := "j2"; AuthContext.NamedRow.name := "Ann";
     AuthContext.NamedRow.created_at := "2026-01-21T10:05:00Z" |}.

Definition rowX : AuthContext.NamedRow.t :=
  {| AuthContext.NamedRow.id := "X"; AuthContext.NamedRow.name := "Team X";
     AuthContext.NamedRow.created_at := "2026-01-21T10:00:00Z" |}.

Definition backend0 : AuthContext.Backend :=
  {| AuthContext.judges := [ann1; ann2];
     AuthContext.teams := [rowX];
     AuthContext.signInWithPassword := fun _ _ => inl denied;
     AuthContext.lookup_fault := None |}.

Definition byName (name : string) : AuthContext.Credentials.t :=
  {| AuthContext.Credentials.email := None;
     AuthContext.Credentials.password := None;
     AuthContext.Credentials.name := Some name |}.

(** Somebody is already signed in. *)
Definition signedIn : AuthContext.AuthState :=
  {| AuthContext.user := Some judgeA; AuthContext.stored_authUser := Some judgeA |}.

Definition page_penalty : Page :=
  {| teams := [teamX];
     categories := [penalty];
     selectedTeam := Some teamX;
     scores := ∅;
     comment := "";
     existingComment := None;
     loading := false;
     alerts := [] |}.

(** A store that holds a comment of judge A on team X, and a store
    that refuses the comment read. *)
Definition world_commented : World :=
  {| scores_tbl := [];
     comments_tbl :=
       [ {| CommentRow.id := "cm-0"; CommentRow.team_id := "X";
            CommentRow.judge_id := "jA"; CommentRow.comment := "first thoughts";
            CommentRow.created_at := "2026-01-20T09:00:00Z";
            CommentRow.updated_at := "2026-01-20T09:00:00Z" |} ];
     sent := [] |}.

Definition env_refuse_comment_read : Env :=
  {| clock := fun _ => "2026-01-21T10:00:00Z";
     fault := fun _ r => match r with
                         | SelectComment _ _ => Some denied
                         | _ => None
                         end;
     gen_random_uuid := uuid;
     db_now := fun _ => "2026-01-21T10:00:01Z" |}.

Definition teamY : Team.t := {| Team.id := "Y"; Team.name := "Team Y" |}.

Definition teamsReply : Supabase.Reply (list Team.t) :=
  {| Supabase.data := Some [teamX; teamY]; Supabase.error := None |}.


Definition upsertOf (category : Category.t) (score : Z) : Request :=
  upsertRequest env_ok teamX judgeA category score 0.

End Scenario.

(** ** Leaderboard.tsx: what the table shows *)

Module LeaderboardView.
Import Leaderboard.

(** The icons of [lucide-react] the page uses for the podium. *)
Inductive Icon := Trophy | Medal | Award.

(** [getRankIcon]: [null] is [None]. *)
Definition getRankIcon (rank : Z) : option Icon :=
  if rank =? 1 then Some Trophy
  else if rank =? 2 then Some Medal
  else if rank =? 3 then Some Award
  else None.

Definition getRankBadge (rank : Z) : string :=
  if rank =? 1 then "bg-gradient-to-r from-yellow-400 to-yellow-500 text-yellow-900"
  else if rank =? 2 then "bg-gradient-to-r from-slate-300 to-slate-400 text-slate-900"
  else if rank =? 3 then "bg-gradient-to-r from-amber-500 to-amber-600 text-amber-900"
  else "bg-slate-200 text-slate-700".

(** The icons in podium order. *)
Definition podium : list Icon := [Trophy; Medal; Award].

(** [from('scores').select('team_id, score')] on the store's table. *)
Definition selectTeamScores (w : Store.World) : list ScoreSel :=
  map (fun r => {| s_team_id := Store.ScoreRow.team_id r;
                   s_score := Store.ScoreRow.score r |}) (Store.scores_tbl w).

(** Sum of a list of numbers. *)
Definition sumZ (l : list Z) : Z := fold_right Z.add 0 l.

(** The team of a score row is among the listed teams. *)
Definition listed (teams : list TeamSel) (s : ScoreSel) : bool :=
  existsb (fun t => String.eqb (s_team_id s) (t_id t)) teams.

Definition has_total (v : Z) (ts : TeamScore) : bool := ts_total_score ts =? v.

End LeaderboardView.

(** ** JudgeDashboard.tsx: loading the page *)

Module JudgePage.
Import Store JudgeDashboard.

Definition setTeams (l : list Team.t) (p : Page) : Page :=
  {| teams := l; categories := categories p;
     selectedTeam := selectedTeam p; scores := scores p; comment := comment p;
     existingComment := existingComment p; loading := loading p;
     alerts := alerts p |}.


Definition setSelectedTeam (t : option Team.t) (p : Page) : Page :=
  {| teams := teams p; categories := categories p;
     selectedTeam := t; scores := scores p; comment := comment p;
     existingComment := existingComment p; loading := loading p;
     alerts := alerts p |}.


(** [fetchTeams], given the reply of
    [from('teams').select('*').order('name')]. *)
Definition fetchTeams (reply : Supabase.Reply (list Team.t)) (p : Page) : Page :=
  match Supabase.error reply, Supabase.data reply with
  | None, Some data =>
      match data, selectedTeam p with
      | first :: _, None => setSelectedTeam (Some first) (setTeams data p)
      | _, _ => setTeams data p
      end
  | _, _ => p
  end.










(** The conflict target of a score row, and the [UNIQUE] constraint. *)
Definition key_of (r : ScoreRow.t) : string * string * string :=
  (ScoreRow.team_id r, ScoreRow.judge_id r, ScoreRow.category_id r).

Definition unique_keys (tbl : list ScoreRow.t) : Prop := NoDup (map key_of tbl).

(** What a row keeps for life: its id and creation time. *)
Definition score_identity (r : ScoreRow.t) : string * string :=
  (ScoreRow.id r, ScoreRow.created_at r).

Definition comment_identity (r : CommentRow.t) : string * string :=
  (CommentRow.id r, CommentRow.created_at r).

(** The score map [fetchScoresForTeam] builds from the rows it reads. *)
Definition scoresMap (rows : list ScoreRow.t) : gmap string Z :=
  fold_left (fun m score => <[ScoreRow.category_id score := ScoreRow.score score]> m)
            rows ∅.

End JudgePage.

(** ** AuthContext: the provider's other operations *)

Module AuthProvider.
Import AuthContext.

Definition isAdmin (u : AuthUser.t) : bool :=
  match AuthUser.role u with
  | admin => true
  | _ => false
  end.

(** The state right after the mount effect has read [localStorage]:
    [user] starts as [null] and is set to the stored identity, if any
    ([JSON.parse] gives back what [JSON.stringify] was given). *)
Definition mount (stored : option AuthUser.t) : AuthState :=
  {| user := stored; stored_authUser := stored |}.

(** The callback given to [supabase.auth.onAuthStateChange]. *)
Definition onAuthStateChange (session : option SessionUser.t) (st : AuthState)
  : AuthState :=
  match session with
  | Some u =>
      establish {| AuthUser.role := admin;
                   AuthUser.id := SessionUser.id u;
                   AuthUser.name := "Admin";
                   AuthUser.email := SessionUser.email u |}
  | None =>
      match stored_authUser st with
      | Some parsed =>
          if isAdmin parsed then st
          else {| user := Some parsed; stored_authUser := stored_authUser st |}
      | None => st
      end
  end.

(** [signOut]: the flag tells whether [supabase.auth.signOut()] is
    called, which is for administrators only. *)
Definition signOut (st : AuthState) : bool * AuthState :=
  (match user st with Some u => isAdmin u | None => false end,
   {| user := None; stored_authUser := None |}).

(** What can happen to the provider after it is mounted. *)
Inductive Event :=
| SignIn (b : Backend) (r : UserRole) (credentials : Credentials.t)
| SignOut
| AuthStateChange (session : option SessionUser.t).

Definition handle (e : Event) (st : AuthState) : AuthState :=
  match e with
  | SignIn b r credentials => snd (signIn b r credentials st)
  | SignOut => snd (signOut st)
  | AuthStateChange session => onAuthStateChange session st
  end.

Definition run (events : list Event) (st : AuthState) : AuthState :=
  fold_left (fun st e => handle e st) events st.

End AuthProvider.

(** ** Login page and the guards of the dashboards *)

Module Login.
Import AuthContext.

Module Form.
Record t :=
  { role : UserRole; email : string; password : string; name : string;
    error : string; loading : bool }.
End Form.

Definition route (r : UserRole) : string :=
  match r with
  | admin => "/admin"
  | judge => "/judge"
  | team => "/team"
  end.

(** The credentials [handleSubmit] passes for the selected role. *)
Definition credentialsOf (f : Form.t) : Credentials.t :=
  match Form.role f with
  | admin => {| Credentials.email := Some (Form.email f);
                Credentials.password := Some (Form.password f);
                Credentials.name := None |}
  | judge | team => {| Credentials.email := None;
                       Credentials.password := None;
                       Credentials.name := Some (Form.name f) |}
  end.

Definition settle (message : string) (f : Form.t) : Form.t :=
  {| Form.role := Form.role f; Form.email := Form.email f;
     Form.password := Form.password f; Form.name := Form.name f;
     Form.error := message; Form.loading := false |}.

(** [handleSubmit]: the third component is the argument of
    [navigate], if it is called. *)
Definition handleSubmit (b : Backend) (f : Form.t) (st : AuthState)
  : Form.t * AuthState * option string :=
  match signIn b (Form.role f) (credentialsOf f) st with
  | (Ok _, st') => (settle "" f, st', Some (route (Form.role f)))
  | (Throw e, st') => (settle (shownError e) f, st', None)
  end.

Definition role_eqb (a b : UserRole) : bool :=
  match a, b with
  | admin, admin | judge, judge | team, team => true
  | _, _ => false
  end.

(** The guard each dashboard runs in its effect:
    [if (!user || user.role !== required) navigate('/login')]. *)
Definition guard (required : UserRole) (user : option AuthUser.t) : option string :=
  match user with
  | Some u => if role_eqb (AuthUser.role u) required then None else Some "/login"%string
  | None => Some "/login"%string
  end.

End Login.

(** ** TeamDashboard.tsx *)

Module TeamDashboard.
Import Store.
Module Category := JudgeDashboard.Category.
Module AuthUser := AuthContext.AuthUser.

Module Judge.
Record t := { id : string; name : string }.
End Judge.

(** The embedded [score_categories (name, max_score)] of a score row. *)
Module CategoryRef.
Record t := { name : string; max_score : Z }.
End CategoryRef.

(** Row of the scores query; an embedded row that does not resolve is
    [null]. *)
Module ScoreData.
Record t :=
  { score : Z; category_id : string; judge_id : string;
    score_categories : option CategoryRef.t; judges : option string }.
End ScoreData.

Module ScoreBreakdown.
Record t :=
  { judge_name : string; category_name : string; score : Z; max_score : Z }.
End ScoreBreakdown.

(** Row of the comments query, and what the page keeps of it. *)
Module CommentRowData.
Record t := { comment : string; created_at : string; judges : option string }.
End CommentRowData.

Module CommentData.
Record t := { judge_name : string; comment : string; created_at : string }.
End CommentData.

Record Dash :=
  { totalScore : Z;
    scoreBreakdown : list ScoreBreakdown.t;
    comments : list CommentData.t;
    categories : list Category.t;
    judges : list Judge.t }.

(** The state the component starts with. *)
Definition initialDash : Dash :=
  {| totalScore := 0; scoreBreakdown := []; comments := [];
     categories := []; judges := [] |}.

(** [scoresData.map(score => ({ judge_name: score.judges.name, ... }))]:
    reading a property of [null] throws, which is [None]. *)
Fixpoint breakdownOf (scoresData : list ScoreData.t) : option (list ScoreBreakdown.t) :=
  match scoresData with
  | [] => Some []
  | s :: rest =>
      match ScoreData.judges s, ScoreData.score_categories s with
      | Some judge_name, Some c =>
          match breakdownOf rest with
          | Some l =>
              Some ({| ScoreBreakdown.judge_name := judge_name;
                       ScoreBreakdown.category_name := CategoryRef.name c;
                       ScoreBreakdown.score := ScoreData.score s;
                       ScoreBreakdown.max_score := CategoryRef.max_score c |} :: l)
          | None => None
          end
      | _, _ => None
      end
  end.

Fixpoint formatComments (commentsData : list CommentRowData.t)
  : option (list CommentData.t) :=
  match commentsData with
  | [] => Some []
  | c :: rest =>
      match CommentRowData.judges c with
      | Some judge_name =>
          match formatComments rest with
          | Some l =>
              Some ({| CommentData.judge_name := judge_name;
                       CommentData.comment := CommentRowData.comment c;
                       CommentData.created_at := CommentRowData.created_at c |} :: l)
          | None => None
          end
      | None => None
      end
  end.

(** [scoresData.reduce((sum, score) => sum + score.score, 0)] *)
Definition totalOf (scoresData : list ScoreData.t) : Z :=
  Js.reduce (fun sum s => sum + ScoreData.score s) 0 scoresData.

(** The [data] of the four queries of [fetchData]. *)
Record Replies :=
  { categoriesData : option (list Category.t);
    judgesData : option (list Judge.t);
    scoresData : option (list ScoreData.t);
    commentsData : option (list CommentRowData.t) }.

Definition withComments (r : Replies) (d : Dash) : Dash :=
  match commentsData r with
  | Some cs =>
      match formatComments cs with
      | Some l =>
          {| totalScore := totalScore d; scoreBreakdown := scoreBreakdown d;
             comments := l; categories := categories d; judges := judges d |}
      | None => d
      end
  | None => d
  end.

(** [fetchData]: each part of the state is set when its data is there;
    a throw while reading the rows leaves the rest of the state as it
    is. *)
Definition fetchData (user : option AuthUser.t) (r : Replies) (d : Dash) : Dash :=
  match user with
  | None => d
  | Some _ =>
      let d2 :=
        {| totalScore := totalScore d; scoreBreakdown := scoreBreakdown d;
           comments := comments d;
           categories := default (categories d) (categoriesData r);
           judges := default (judges d) (judgesData r) |} in
      match scoresData r with
      | Some rows =>
          match breakdownOf rows with
          | Some breakdown =>
              withComments r
                {| totalScore := totalOf rows; scoreBreakdown := breakdown;
                   comments := comments d2; categories := categories d2;
                   judges := judges d2 |}
          | None => d2
          end
      | None => withComments r d2
      end
  end.

(** The per-category figures of the page. *)
Definition categoryTotal (scoreBreakdown : list ScoreBreakdown.t)
    (category : Category.t) : Z :=
  Js.reduce (fun sum score => sum + ScoreBreakdown.score score) 0
    (List.filter (fun score => String.eqb (ScoreBreakdown.category_name score)
                                          (Category.name category))
                 scoreBreakdown).

Definition maxPossible (judges : list Judge.t) (category : Category.t) : Z :=
  Z.of_nat (length judges) * Category.max_score category.

(** ["Out of {categories.length * judges.length * 10} possible points"] *)
Definition possiblePoints (categories : list Category.t) (judges : list Judge.t) : Z :=
  Z.of_nat (length categories) * Z.of_nat (length judges) * 10.

(** The scores query on the store: the rows of the team, each with its
    category and its judge's name looked up by id. *)
Definition selectScoreData (cats : list Category.t) (judges : list Judge.t)
    (teamId : string) (w : World) : list ScoreData.t :=
  map (fun r =>
         {| ScoreData.score := ScoreRow.score r;
            ScoreData.category_id := ScoreRow.category_id r;
            ScoreData.judge_id := ScoreRow.judge_id r;
            ScoreData.score_categories :=
              option_map (fun c => {| CategoryRef.name := Category.name c;
                                      CategoryRef.max_score := Category.max_score c |})
                (find (fun c => String.eqb (Category.id c) (ScoreRow.category_id r)) cats);
            ScoreData.judges :=
              option_map Judge.name
                (find (fun j => String.eqb (Judge.id j) (ScoreRow.judge_id r)) judges) |})
      (List.filter (fun r => String.eqb (ScoreRow.team_id r) teamId) (scores_tbl w)).

(** The category of a breakdown row is among the categories shown. *)
Definition shown (cats : list Category.t) (score : ScoreBreakdown.t) : bool :=
  existsb (fun c => String.eqb (ScoreBreakdown.category_name score) (Category.name c)) cats.

End TeamDashboard.

(** ** Concrete data for the team page *)

Module TeamScenario.
Import Store TeamDashboard.

Definition scoreRow (n : nat) (j c : string) (v : Z) : ScoreRow.t :=
  {| ScoreRow.id := Scenario.uuid n; ScoreRow.team_id := "X";
     ScoreRow.judge_id := j; ScoreRow.category_id := c; ScoreRow.score := v;
     ScoreRow.created_at := "2026-01-21T10:00:01Z";
     ScoreRow.updated_at := "2026-01-21T10:00:00Z" |}.

(** The scenario of the specification: judge A gives team X 8 and 7,
    judge B gives it 6 and 9. *)
Definition world_scored : World :=
  {| scores_tbl := [ scoreRow 0 "jA" "c-inn" 8; scoreRow 1 "jA" "c-des" 7;
                     scoreRow 2 "jB" "c-inn" 6; scoreRow 3 "jB" "c-des" 9 ];
     comments_tbl := [];
     sent := [] |}.

Definition cats : list Category.t := [Scenario.design; Scenario.innovation].

Definition judgesAB : list Judge.t :=
  [ {| Judge.id := "jA"; Judge.name := "Judge A" |};
    {| Judge.id := "jB"; Judge.name := "Judge B" |} ].

Definition teamUserX : AuthUser.t :=
  {| AuthUser.role := AuthContext.team; AuthUser.id := "X";
     AuthUser.name := "Team X"; AuthUser.email := None |}.

Definition repliesX : Replies :=
  {| categoriesData := Some cats;
     judgesData := Some judgesAB;
     scoresData := Some (selectScoreData cats judgesAB "X" world_scored);
     commentsData := Some [] |}.

Definition entryX : Leaderboard.LeaderboardEntry :=
  {| Leaderboard.team_id := "X"; Leaderboard.team_name := "Team X";
     Leaderboard.total_score := 30; Leaderboard.rank := 1 |}.

End TeamScenario.

(** ** AdminDashboard.tsx, against the tables of the migration *)

Module AdminDashboard.
Module NamedRow := AuthContext.NamedRow.
Module ScoreRow := Store.ScoreRow.
Module CommentRow := Store.CommentRow.

(** The two tables the page manages; its judge and team halves are
    the same code on either. *)
Inductive Table := Judges | Teams.

Inductive Request :=
| Insert (tbl : Table) (name : string)
| Delete (tbl : Table) (id : string)
| Select (tbl : Table).

(** What the page does not control: whether the store answers request
    number [n] with an error of its own, the error it gives for a
    violated [UNIQUE] constraint, its [gen_random_uuid()] and [now()]
    defaults, and the order in which it returns the rows of
    [order('created_at', { ascending: false })]. *)
Record Env :=
  { fault : nat -> Request -> option Supabase.StoreError;
    duplicate : Supabase.StoreError;
    gen_random_uuid : nat -> string;
    now : nat -> string;
    ordered : list NamedRow.t -> list NamedRow.t }.

(** The four tables that reference each other, and the requests sent. *)
Record World :=
  { judges_tbl : list NamedRow.t;
    teams_tbl : list NamedRow.t;
    scores_tbl : list ScoreRow.t;
    comments_tbl : list CommentRow.t;
    sent : list Request }.

Definition rows_of (tbl : Table) (w : World) : list NamedRow.t :=
  match tbl with
  | Judges => judges_tbl w
  | Teams => teams_tbl w
  end.

Definition has_name (name : string) (r : NamedRow.t) : bool :=
  String.eqb (NamedRow.name r) name.

Definition inserted (env : Env) (n : nat) (name : string) : NamedRow.t :=
  {| NamedRow.id := gen_random_uuid env n; NamedRow.name := name;
     NamedRow.created_at := now env n |}.

(** The column through which scores and comments reference the table. *)
Definition score_ref (tbl : Table) (r : ScoreRow.t) : string :=
  match tbl with
  | Judges => ScoreRow.judge_id r
  | Teams => ScoreRow.team_id r
  end.

Definition comment_ref (tbl : Table) (r : CommentRow.t) : string :=
  match tbl with
  | Judges => CommentRow.judge_id r
  | Teams => CommentRow.team_id r
  end.

Definition keep_other {A} (ref : A -> string) (id : string) (l : list A) : list A :=
  List.filter (fun r => negb (String.eqb (ref r) id)) l.

(** What an accepted request does.  [name text UNIQUE NOT NULL]: an
    insert of a name that is taken is refused.  [ON DELETE CASCADE]: a
    delete takes the referencing scores and comments along. *)
Definition effect (env : Env) (n : nat) (r : Request) (w : World)
  : option Supabase.StoreError * World :=
  match r with
  | Insert tbl name =>
      if existsb (has_name name) (rows_of tbl w) then (Some (duplicate env), w)
      else
        (None,
         match tbl with
         | Judges =>
             {| judges_tbl := judges_tbl w ++ [inserted env n name];
                teams_tbl := teams_tbl w; scores_tbl := scores_tbl w;
                comments_tbl := comments_tbl w; sent := sent w |}
         | Teams =>
             {| judges_tbl := judges_tbl w;
                teams_tbl := teams_tbl w ++ [inserted env n name];
                scores_tbl := scores_tbl w;
                comments_tbl := comments_tbl w; sent := sent w |}
         end)
  | Delete tbl id =>
      (None,
       {| judges_tbl := match tbl with
                        | Judges => keep_other NamedRow.id id (judges_tbl w)
                        | Teams => judges_tbl w
                        end;
          teams_tbl := match tbl with
                       | Judges => teams_tbl w
                       | Teams => keep_other NamedRow.id id (teams_tbl w)
                       end;
          scores_tbl := keep_other (score_ref tbl) id (scores_tbl w);
          comments_tbl := keep_other (comment_ref tbl) id (comments_tbl w);
          sent := sent w |})
  | Select _ => (None, w)
  end.

Definition record (r : Request) (w : World) : World :=
  {| judges_tbl := judges_tbl w; teams_tbl := teams_tbl w;
     scores_tbl := scores_tbl w; comments_tbl := comments_tbl w;
     sent := sent w ++ [r] |}.

Definition send (env : Env) (r : Request) (w : World)
  : option Supabase.StoreError * World :=
  let n := length (sent w) in
  match fault env n r with
  | Some e => (Some e, record r w)
  | None => let '(err, w') := effect env n r w in (err, record r w')
  end.

(** The component's state. *)
Record Page :=
  { judges : list NamedRow.t;
    teams : list NamedRow.t;
    newJudgeName : string;
    newTeamName : string;
    loading : bool;
    alerts : list string }.

Definition newName (tbl : Table) (p : Page) : string :=
  match tbl with
  | Judges => newJudgeName p
  | Teams => newTeamName p
  end.

Definition setNewName (tbl : Table) (s : string) (p : Page) : Page :=
  {| judges := judges p; teams := teams p;
     newJudgeName := match tbl with Judges => s | Teams => newJudgeName p end;
     newTeamName := match tbl with Judges => newTeamName p | Teams => s end;
     loading := loading p; alerts := alerts p |}.

Definition setList (tbl : Table) (l : list NamedRow.t) (p : Page) : Page :=
  {| judges := match tbl with Judges => l | Teams => judges p end;
     teams := match tbl with Judges => teams p | Teams => l end;
     newJudgeName := newJudgeName p; newTeamName := newTeamName p;
     loading := loading p; alerts := alerts p |}.

Definition setLoading (b : bool) (p : Page) : Page :=
  {| judges := judges p; teams := teams p;
     newJudgeName := newJudgeName p; newTeamName := newTeamName p;
     loading := b; alerts := alerts p |}.

Definition alert (msg : string) (p : Page) : Page :=
  {| judges := judges p; teams := teams p;
     newJudgeName := newJudgeName p; newTeamName := newTeamName p;
     loading := loading p; alerts := alerts p ++ [msg] |}.

Definition failedToAdd (tbl : Table) : string :=
  match tbl with
  | Judges => "Failed to add judge"
  | Teams => "Failed to add team"
  end.

(** [fetchJudges] and [fetchTeams] *)
Definition fetchNamed (tbl : Table) (env : Env) (p : Page) (w : World)
  : Page * World :=
  match send env (Select tbl) w with
  | (None, w') => (setList tbl (ordered env (rows_of tbl w')) p, w')
  | (Some _, w') => (p, w')
  end.

(** [addJudge] and [addTeam]; the fetch that follows a success is run
    to completion before anything else happens to the page. *)
Definition addNamed (tbl : Table) (env : Env) (p : Page) (w : World)
  : Page * World :=
  if Js.truthy (Js.trim (newName tbl p)) then
    match send env (Insert tbl (Js.trim (newName tbl p))) w with
    | (Some e, w') =>
        (setLoading false
           (alert (if Supabase.instanceofError e then Supabase.message e
                   else failedToAdd tbl) (setLoading true p)), w')
    | (None, w') =>
        let '(p', w'') := fetchNamed tbl env (setNewName tbl "" (setLoading true p)) w' in
        (setLoading false p', w'')
    end
  else (p, w).

(** [deleteJudge] and [deleteTeam]; [confirmed] is the answer to
    [confirm]. *)
Definition deleteNamed (tbl : Table) (env : Env) (confirmed : bool) (id : string)
    (p : Page) (w : World) : Page * World :=
  if confirmed then
    match send env (Delete tbl id) w with
    | (None, w') => fetchNamed tbl env p w'
    | (Some _, w') => (p, w')
    end
  else (p, w).

Definition addJudge := addNamed Judges.
Definition addTeam := addNamed Teams.
Definition deleteJudge := deleteNamed Judges.
Definition deleteTeam := deleteNamed Teams.
Definition fetchJudges := fetchNamed Judges.
Definition fetchTeams := fetchNamed Teams.

(** The role that signs in against a table. *)
Definition role_of (tbl : Table) : AuthContext.UserRole :=
  match tbl with
  | Judges => AuthContext.judge
  | Teams => AuthContext.team
  end.

(** What [signIn] sees of the store. *)
Definition backendOf (w : World)
    (provider : string -> string
                -> Supabase.StoreError + AuthContext.SessionUser.t)
  : AuthContext.Backend :=
  {| AuthContext.judges := judges_tbl w;
     AuthContext.teams := teams_tbl w;
     AuthContext.signInWithPassword := provider;
     AuthContext.lookup_fault := None |}.

(** What the leaderboard reads from the store, and the board it
    computes. *)
Definition boardScores (w : World) : list Leaderboard.ScoreSel :=
  map (fun r => {| Leaderboard.s_team_id := ScoreRow.team_id r;
                   Leaderboard.s_score := ScoreRow.score r |}) (scores_tbl w).

Definition boardTeams (w : World) : list Leaderboard.TeamSel :=
  map (fun r => {| Leaderboard.t_id := NamedRow.id r;
                   Leaderboard.t_name := NamedRow.name r |}) (teams_tbl w).

Definition boardOf (w : World) : list Leaderboard.LeaderboardEntry :=
  Leaderboard.rankedData (Some (boardScores w)) (boardTeams w).

(** The points judge [j] has given team [t]. *)
Definition pointsFrom (j t : string) (w : World) : Z :=
  LeaderboardView.sumZ
    (map ScoreRow.score
         (List.filter (fun r => String.eqb (ScoreRow.team_id r) t
                                && String.eqb (ScoreRow.judge_id r) j)
                      (scores_tbl w))).

Definition unique_names (l : list NamedRow.t) : Prop := NoDup (map NamedRow.name l).

(** The tables of two worlds are the same. *)
Definition same_tables (w w' : World) : Prop :=
  judges_tbl w = judges_tbl w' /\ teams_tbl w = teams_tbl w' /\
  scores_tbl w = scores_tbl w' /\ comments_tbl w = comments_tbl w'.

End AdminDashboard.

(** ** Concrete data for the admin page *)

Module AdminScenario.
Import AdminDashboard.

Definition env_ok : Env :=
  {| fault := fun _ _ => None;
     duplicate := Scenario.denied;
     gen_random_uuid := Scenario.uuid;
     now := fun _ => "2026-01-21T10:00:01Z";
     ordered := fun l => rev l |}.

Definition rowJA : NamedRow.t :=
  {| NamedRow.id := "jA"; NamedRow.name := "Judge A";
     NamedRow.created_at := "2026-01-21T09:00:00Z" |}.

Definition rowJB : NamedRow.t :=
  {| NamedRow.id := "jB"; NamedRow.name := "Judge B";
     NamedRow.created_at := "2026-01-21T09:05:00Z" |}.

Definition world_scored : World :=
  {| judges_tbl := [rowJA; rowJB];
     teams_tbl := [Scenario.rowX;
                   {| NamedRow.id := "Y"; NamedRow.name := "Team Y";
                      NamedRow.created_at := "2026-01-21T10:00:00Z" |}];
     scores_tbl := Store.scores_tbl TeamScenario.world_scored
                   ++ [ {| ScoreRow.id := "row-9"; ScoreRow.team_id := "Y";
                           ScoreRow.judge_id := "jA"; ScoreRow.category_id := "c-inn";
                           ScoreRow.score := 5;
                           ScoreRow.created_at := "2026-01-21T10:00:01Z";
                           ScoreRow.updated_at := "2026-01-21T10:00:00Z" |} ];
     comments_tbl := Store.comments_tbl Scenario.world_commented;
     sent := [] |}.

Definition page0 : Page :=
  {| judges := []; teams := []; newJudgeName := "  Bob "; newTeamName := "";
     loading := false; alerts := [] |}.

End AdminScenario.

(** ** Facts about the array primitives *)

Section JsSort.
Context {A : Type} (comparefn : A -> A -> Z).

Lemma sort_insert_perm x l : Js.sort_insert comparefn x l ≡ₚ x :: l.
Proof.
  induction l as [|y l IH]; simpl; [done|].
  destruct (comparefn x y <=? 0); [done|].
  rewrite IH. apply Permutation_swap.
Qed.

Lemma sort_perm l : Js.sort comparefn l ≡ₚ l.
Proof.
  induction l as [|x l IH]; simpl; [done|].
  rewrite sort_insert_perm. by rewrite IH.
Qed.

Lemma sort_length l : length (Js.sort comparefn l) = length l.
Proof. by rewrite sort_perm. Qed.

(** Sortedness needs the comparator to come from a key, as the
    leaderboard's does. *)
Variable key : A -> Z.
Hypothesis comparefn_key : forall a b, comparefn a b = key b - key a.

Lemma sort_insert_sorted x l :
  StronglySorted (Js.desc key) l ->
  StronglySorted (Js.desc key) (Js.sort_insert comparefn x l).
Proof.
  induction l as [|y l IH]; simpl; intros Hs.
  - repeat constructor.
  - apply StronglySorted_inv in Hs as [Hs Hy].
    rewrite comparefn_key.
    destruct (Z.leb_spec (key y - key x) 0) as [Hle|Hgt].
    + constructor; [by constructor|].
      constructor; [unfold Js.desc; lia|].
      eapply Forall_impl; [exact Hy|]. unfold Js.desc. intros; simpl in *; lia.
    + constructor; [by apply IH|].
      rewrite sort_insert_perm. constructor; [unfold Js.desc; lia|done].
Qed.

Lemma sort_sorted l : StronglySorted (Js.desc key) (Js.sort comparefn l).
Proof.
  induction l as [|x l IH]; simpl; [constructor|].
  by apply sort_insert_sorted.
Qed.

End JsSort.

(** ** Generic list facts *)

Section ListFacts.
Context {A B : Type}.

Lemma filter_perm (p : A -> bool) (l1 l2 : list A) :
  l1 ≡ₚ l2 -> List.filter p l1 ≡ₚ List.filter p l2.
Proof.
  induction 1 as [|x l1 l2 _ IH|x y l|l1 l2 l3 _ IH1 _ IH2]; simpl.
  - done.
  - destruct (p x); [by constructor|done].
  - destruct (p x), (p y); try done. apply Permutation_swap.
  - by etrans.
Qed.

Lemma filter_fmap (f : A -> B) (p : B -> bool) (l : list A) :
  List.filter p (f <$> l) = f <$> List.filter (fun a => p (f a)) l.
Proof.
  induction l as [|a l IH]; csimpl; [done|].
  destruct (p (f a)); csimpl; by rewrite IH.
Qed.

Lemma filter_none (p : A -> bool) (l : list A) :
  (forall a, In a l -> p a = false) -> List.filter p l = [].
Proof.
  induction l as [|a l IH]; simpl; intros H; [done|].
  rewrite (H a) by auto. apply IH. auto.
Qed.

Lemma StronglySorted_of_fmap (f : A -> B) (R : B -> B -> Prop) (l : list A) :
  StronglySorted R (f <$> l) -> StronglySorted (fun x y => R (f x) (f y)) l.
Proof.
  induction l as [|a l IH]; csimpl; intros Hs; [constructor|].
  apply StronglySorted_inv in Hs as [Hs Ha].
  constructor; [by apply IH|].
  rewrite Forall_fmap in Ha. exact Ha.
Qed.

Lemma StronglySorted_lookup_lt (R : A -> A -> Prop) (l : list A) i j a b :
  StronglySorted R l -> (i < j)%nat ->
  l !! i = Some a -> l !! j = Some b -> R a b.
Proof.
  intros Hs Hij Hi Hj. revert i j Hij Hi Hj.
  induction Hs as [|x l Hs IH Hx]; intros i j Hij Hi Hj; [done|].
  destruct j as [|j]; [lia|]. simpl in Hj.
  destruct i as [|i]; simpl in Hi.
  - injection Hi as ->. rewrite Forall_forall in Hx.
    apply Hx. by eapply list_elem_of_lookup_2.
  - eapply (IH i j); [lia|done..].
Qed.

End ListFacts.

(** ** The leaderboard computation *)

Section LeaderboardFacts.
Import Leaderboard.

Lemma reduce_sum_acc (acc : Z) (ss : list ScoreSel) :
  Js.reduce (fun sum s => sum + s_score s) acc ss
  = acc + Js.reduce (fun sum s => sum + s_score s) 0 ss.
Proof.
  unfold Js.reduce. revert acc.
  induction ss as [|s ss IH]; intros acc; simpl; [lia|].
  rewrite (IH (acc + s_score s)), (IH (0 + s_score s)). lia.
Qed.

Lemma total_is_sum_for scores team :
  Js.reduce (fun sum s => sum + s_score s) 0 (teamScoreData scores team)
  = sum_for (t_id team) (rows scores).
Proof.
  destruct scores as [ss|]; simpl; [|done].
  induction ss as [|s ss IH]; simpl; [done|].
  destruct (String.eqb (s_team_id s) (t_id team)); simpl; [|lia].
  unfold Js.reduce in *. simpl.
  pose proof (reduce_sum_acc (0 + s_score s)) as H. unfold Js.reduce in H.
  rewrite H, IH. lia.
Qed.

Lemma sum_for_no_rows tid ss :
  (forall s, In s ss -> s_team_id s <> tid) -> sum_for tid ss = 0.
Proof.
  induction ss as [|s ss IH]; simpl; intros H; [done|].
  destruct (String.eqb_spec (s_team_id s) tid) as [Heq|_].
  - exfalso. by apply (H s); [left|].
  - rewrite IH; [lia|]. auto.
Qed.

Lemma forget_rank_rankedData scores teams :
  forget_rank <$> rankedData scores teams
  = Js.sort byTotalDesc (teamScores scores teams).
Proof.
  unfold rankedData. rewrite fmap_imap.
  rewrite (imap_ext _ (const id)); [|by intros i [? ? ?] _].
  rewrite imap_const. apply list_fmap_id.
Qed.

Lemma rankedData_perm scores teams :
  forget_rank <$> rankedData scores teams ≡ₚ teamScores scores teams.
Proof. rewrite forget_rank_rankedData. apply sort_perm. Qed.

Lemma rankedData_length scores teams :
  length (rankedData scores teams) = length teams.
Proof.
  unfold rankedData, teamScores.
  by rewrite length_imap, sort_length, length_map.
Qed.

Lemma rankedData_lookup_rank scores teams i e :
  rankedData scores teams !! i = Some e -> rank e = Z.of_nat i + 1.
Proof.
  unfold rankedData. rewrite list_lookup_imap.
  destruct (_ !! i); simpl; [|done]. by intros [= <-].
Qed.

Lemma rankedData_sorted scores teams :
  StronglySorted (fun a b => total_score b <= total_score a)
                 (rankedData scores teams).
Proof.
  apply (StronglySorted_of_fmap forget_rank
           (fun x y => ts_total_score y <= ts_total_score x)).
  rewrite forget_rank_rankedData.
  apply (sort_sorted byTotalDesc ts_total_score). done.
Qed.

(** What [fetchLeaderboard] leaves on the page: the ranked data when
    both fetches succeed, the previous board otherwise. *)
Lemma fetchLeaderboard_ok scores teams st :
  fetchLeaderboard {| Supabase.data := scores; Supabase.error := None |}
                   {| Supabase.data := Some teams; Supabase.error := None |} st
  = {| leaderboard := rankedData scores teams; loading := false |}.
Proof. done. Qed.

Lemma fetchLeaderboard_cases scoresReply teamsReply st :
  loading (fetchLeaderboard scoresReply teamsReply st) = false /\
  (leaderboard (fetchLeaderboard scoresReply teamsReply st) = leaderboard st \/
   exists teams,
     Supabase.data teamsReply = Some teams /\
     leaderboard (fetchLeaderboard scoresReply teamsReply st)
     = rankedData (Supabase.data scoresReply) teams).
Proof.
  unfold fetchLeaderboard.
  destruct (Supabase.error scoresReply); [by auto|].
  destruct (Supabase.error teamsReply); [by auto|].
  destruct (Supabase.data teamsReply) as [teams|]; [|by auto].
  split; [done|]. right. by exists teams.
Qed.

Lemma rankedData_In_team scores teams e :
  In e (rankedData scores teams) ->
  exists t, In t teams /\ team_id e = t_id t /\ team_name e = t_name t /\
            total_score e = sum_for (t_id t) (rows scores).
Proof.
  intros He.
  assert (In (forget_rank e) (teamScores scores teams)) as Hin.
  { apply list_elem_of_In. rewrite <- rankedData_perm.
    apply list_elem_of_fmap. exists e. split; [done|by apply list_elem_of_In]. }
  unfold teamScores in Hin. apply in_map_iff in Hin as (t & Ht & Hin).
  exists t. split; [done|].
  rewrite <- total_is_sum_for.
  destruct e; simpl in *. by injection Ht as <- <- <-.
Qed.

Lemma In_team_rankedData scores teams t :
  In t teams ->
  exists e, In e (rankedData scores teams) /\ team_id e = t_id t /\
            team_name e = t_name t /\
            total_score e = sum_for (t_id t) (rows scores).
Proof.
  intros Ht.
  assert (In {| ts_team_id := t_id t; ts_team_name := t_name t;
                ts_total_score := sum_for (t_id t) (rows scores) |}
             (teamScores scores teams)) as Hin.
  { unfold teamScores. apply in_map_iff. exists t. split; [|done].
    by rewrite total_is_sum_for. }
  apply list_elem_of_In in Hin. rewrite <- rankedData_perm in Hin.
  apply list_elem_of_fmap in Hin as (e & He & Hin).
  exists e. split; [by apply list_elem_of_In|].
  destruct e; simpl in *. by injection He as <- <- <-.
Qed.

Lemma teamScores_filter_unique scores teams t :
  NoDup (map t_id teams) -> In t teams ->
  List.filter (fun ts => String.eqb (ts_team_id ts) (t_id t))
              (teamScores scores teams)
  = [ {| ts_team_id := t_id t; ts_team_name := t_name t;
         ts_total_score := sum_for (t_id t) (rows scores) |} ].
Proof.
  unfold teamScores.
  induction teams as [|t' teams IH]; simpl; intros Hnd Hin; [done|].
  apply NoDup_cons in Hnd as [Hfresh Hnd].
  destruct Hin as [->|Hin].
  - rewrite String.eqb_refl, total_is_sum_for. f_equal.
    apply filter_none. intros ts Hts. apply in_map_iff in Hts as (t2 & <- & Ht2).
    simpl. apply String.eqb_neq. intros Heq. apply Hfresh.
    rewrite <- Heq. apply list_elem_of_In, in_map. done.
  - destruct (String.eqb_spec (t_id t') (t_id t)) as [Heq|_]; [|by apply IH].
    exfalso. apply Hfresh. rewrite Heq. apply list_elem_of_In, in_map. done.
Qed.

End LeaderboardFacts.

(** ** Claims about the leaderboard *)

Module LeaderboardClaims.
Import Leaderboard.

Import Scenario.

(** C1. Whatever the score rows and the teams (team ids being
    distinct, as the primary key makes them): the output has one entry
    per team and no others; for each team exactly one output entry
    carries its id, that entry has the team's name and its
    [total_score] is the integer sum of the [score] fields of the rows
    whose [team_id] is the team's id, which is 0 when there is no
    such row. *)
Theorem leaderboard_one_entry_per_team_with_total
    (scores : option (list ScoreSel)) (teams : list TeamSel) :
  NoDup (map t_id teams) ->
  length (rankedData scores teams) = length teams /\
  forall t, In t teams ->
    exists e,
      List.filter (has_team_id (t_id t)) (rankedData scores teams) = [e] /\
      team_name e = t_name t /\
      total_score e = sum_for (t_id t) (rows scores) /\
      ((forall s, In s (rows scores) -> s_team_id s <> t_id t) ->
       total_score e = 0).
Proof.
  intros Hnd. split; [apply rankedData_length|].
  intros t Ht.
  pose proof (teamScores_filter_unique scores teams t Hnd Ht) as Hone.
  pose proof (filter_perm (fun ts => String.eqb (ts_team_id ts) (t_id t))
                _ _ (rankedData_perm scores teams)) as Hperm.
  rewrite Hone, filter_fmap in Hperm.
  symmetry in Hperm. apply Permutation_length_1_inv in Hperm.
  change (fun a => String.eqb (ts_team_id (forget_rank a)) (t_id t))
    with (has_team_id (t_id t)) in Hperm.
  destruct (List.filter (has_team_id (t_id t)) (rankedData scores teams))
    as [|e [|e' l]]; try done.
  exists e. split; [done|].
  destruct e as [eid ename etotal erank]; simpl in *.
  injection Hperm as -> -> ->.
  repeat split; try done.
  intros Hnone. by apply sum_for_no_rows.
Qed.

Lemma leaderboard_one_entry_per_team_with_total_witness :
  length (rankedData (Some demo_scores) demo_teams) = 2%nat /\
  exists e,
    List.filter (has_team_id "X") (rankedData (Some demo_scores) demo_teams) = [e] /\
    total_score e = 30.
Proof.
  destruct (leaderboard_one_entry_per_team_with_total
              (Some demo_scores) demo_teams) as [Hlen Hteams].
  - apply (bool_decide_unpack _). vm_compute. exact I.
  - split; [exact Hlen|].
    destruct (Hteams {| t_id := "X"; t_name := "Team X" |}) as (e & He & _ & Ht & _).
    + simpl. auto.
    + exists e. split; [exact He|]. rewrite Ht. reflexivity.
Defined.

(** C5. The output is sorted non-increasing by total score: every
    entry's [total_score] is at least that of every later entry. *)
Theorem leaderboard_sorted_non_increasing
    (scores : option (list ScoreSel)) (teams : list TeamSel) :
  StronglySorted (fun a b => total_score a >= total_score b)
                 (rankedData scores teams).
Proof.
  induction (rankedData_sorted scores teams) as [|e l _ IH He]; constructor.
  - exact IH.
  - eapply Forall_impl; [exact He|]. intros e' Hle. simpl in Hle. lia.
Qed.

(** C6. Ranks are strictly positional: the entry at (0-based)
    position [i] has rank [i + 1], so the ranks of the output read
    1, 2, ..., n; two entries with equal totals have different ranks,
    the later one's rank exceeds the earlier one's by their distance
    in the sequence, and every entry between them has the same total
    (a tied group occupies a run of consecutive ranks). *)
Theorem rank_is_one_based_position
    (scores : option (list ScoreSel)) (teams : list TeamSel) :
  map rank (rankedData scores teams)
    = map (fun i => Z.of_nat i + 1) (seq 0 (length teams)) /\
  (forall i e, rankedData scores teams !! i = Some e -> rank e = Z.of_nat i + 1) /\
  (forall i j a b,
      (i < j)%nat ->
      rankedData scores teams !! i = Some a ->
      rankedData scores teams !! j = Some b ->
      total_score a = total_score b ->
      rank a <> rank b /\
      rank b = rank a + Z.of_nat (j - i) /\
      forall k c, (i <= k <= j)%nat ->
                  rankedData scores teams !! k = Some c ->
                  total_score c = total_score a).
Proof.
  split; [|split].
  - unfold rankedData.
    change (map rank) with (fmap (M:=list) rank). rewrite fmap_imap.
    rewrite (imap_ext _ (fun j _ => Z.of_nat j + 1)); [|done].
    rewrite imap_seq_0. unfold teamScores.
    by rewrite sort_length, length_map.
  - apply rankedData_lookup_rank.
  - intros i j a b Hij Ha Hb Heq.
    pose proof (rankedData_lookup_rank _ _ _ _ Ha) as Hra.
    pose proof (rankedData_lookup_rank _ _ _ _ Hb) as Hrb.
    split; [lia|]. split; [lia|].
    intros k c Hk Hc.
    pose proof (rankedData_sorted scores teams) as Hs.
    assert (total_score c <= total_score a) as H1.
    { destruct (decide (i = k)) as [->|Hne]; [by simplify_eq|].
      apply (StronglySorted_lookup_lt _ _ i k a c Hs); [lia|done..]. }
    assert (total_score b <= total_score c) as H2.
    { destruct (decide (k = j)) as [->|Hne]; [by simplify_eq|].
      apply (StronglySorted_lookup_lt _ _ k j c b Hs); [lia|done..]. }
    lia.
Qed.

Lemma rank_is_one_based_position_witness :
  map rank (rankedData None demo_teams) = [1; 2] /\
  map total_score (rankedData None demo_teams) = [0; 0].
Proof.
  destruct (rank_is_one_based_position None demo_teams) as (Hranks & _ & Hties).
  split; [rewrite Hranks; reflexivity|].
  destruct (Hties 0%nat 1%nat
              {| team_id := "Y"; team_name := "Team Y"; total_score := 0; rank := 1 |}
              {| team_id := "X"; team_name := "Team X"; total_score := 0; rank := 2 |})
    as (_ & _ & _); [lia|reflexivity|reflexivity|reflexivity|].
  reflexivity.
Defined.

(** C7. A team without any score row has an entry in the output;
    every entry carrying its id has total 0 and a rank strictly
    greater than the rank of every entry whose total is positive. *)
Theorem zero_row_team_ranked_below_positive
    (scores : option (list ScoreSel)) (teams : list TeamSel) (t : TeamSel) :
  In t teams ->
  (forall s, In s (rows scores) -> s_team_id s <> t_id t) ->
  (exists e, In e (rankedData scores teams) /\
             team_id e = t_id t /\ team_name e = t_name t) /\
  (forall e, In e (rankedData scores teams) -> team_id e = t_id t ->
             total_score e = 0 /\
             forall e', In e' (rankedData scores teams) ->
                        0 < total_score e' -> rank e' < rank e).
Proof.
  intros Ht Hnone. split.
  - destruct (In_team_rankedData scores teams t Ht) as (e & He & Hid & Hname & _).
    by exists e.
  - intros e He Hid.
    assert (total_score e = 0) as Hzero.
    { destruct (rankedData_In_team _ _ _ He) as (t' & _ & Hid' & _ & Htot).
      rewrite Htot. apply sum_for_no_rows. by rewrite <- Hid', Hid. }
    split; [done|]. intros e' He' Hpos.
    apply list_elem_of_In, list_elem_of_lookup in He as [i Hi].
    apply list_elem_of_In, list_elem_of_lookup in He' as [j Hj].
    rewrite (rankedData_lookup_rank _ _ _ _ Hi), (rankedData_lookup_rank _ _ _ _ Hj).
    destruct (Nat.lt_trichotomy j i) as [Hlt|[->|Hgt]]; [lia| |].
    + simplify_eq. lia.
    + pose proof (StronglySorted_lookup_lt _ _ i j e e'
                    (rankedData_sorted scores teams) Hgt Hi Hj) as Hle.
      simpl in Hle. lia.
Qed.

Lemma zero_row_team_ranked_below_positive_witness :
  exists e, In e (rankedData (Some demo_scores) demo_teams) /\
            team_id e = "Y" /\ total_score e = 0 /\ rank e = 2.
Proof.
  destruct (zero_row_team_ranked_below_positive (Some demo_scores) demo_teams
              {| t_id := "Y"; t_name := "Team Y" |}) as [(e & He & Hid & _) Hbelow].
  - simpl. auto.
  - simpl. intros s [<-|[<-|[<-|[<-|[]]]]]; discriminate.
  - destruct (Hbelow e He Hid) as [Hzero _].
    exists e. repeat split; try assumption.
    simpl in He. destruct He as [<-|[<-|[]]]; [discriminate Hzero|reflexivity].
Defined.

End LeaderboardClaims.

(** ** The upsert of the store *)

Section UpsertFacts.
Import Store.
Variable env : Env.

Lemma has_key_true t j c r :
  has_key t j c r = true <->
  ScoreRow.team_id r = t /\ ScoreRow.judge_id r = j /\ ScoreRow.category_id r = c.
Proof.
  unfold has_key. rewrite !andb_true_iff, !String.eqb_eq. tauto.
Qed.

Lemma has_key_forget t j c r :
  has_key t j c (forget_updated_at r) = has_key t j c r.
Proof. done. Qed.

Lemma conflicts_overwrite p r : conflicts p (overwrite p r) = true.
Proof. unfold conflicts. apply has_key_true. done. Qed.

Lemma conflicts_inserted n p : conflicts p (inserted env n p) = true.
Proof. unfold conflicts. apply has_key_true. done. Qed.

Lemma has_key_overwrite t j c p r :
  conflicts p r = true -> has_key t j c (overwrite p r) = has_key t j c r.
Proof.
  unfold conflicts. intros (Ht & Hj & Hc)%has_key_true.
  unfold has_key. simpl. by rewrite Ht, Hj, Hc.
Qed.

Lemma overwrite_overwrite p r : overwrite p (overwrite p r) = overwrite p r.
Proof. done. Qed.

Lemma overwrite_inserted n p : overwrite p (inserted env n p) = inserted env n p.
Proof. done. Qed.


Lemma existsb_map_overwrite p (f : ScoreRow.t -> bool) tbl :
  (forall r, conflicts p r = true -> f (overwrite p r) = f r) ->
  existsb f (map (fun r => if conflicts p r then overwrite p r else r) tbl)
  = existsb f tbl.
Proof.
  intros Hf. induction tbl as [|r tbl IH]; simpl; [done|].
  rewrite IH. f_equal. destruct (conflicts p r) eqn:Hr; [by apply Hf|done].
Qed.


(** Rows of another key are left alone. *)
Lemma upsert_frame n p tbl t j c :
  ~ (ScorePayload.team_id p = t /\ ScorePayload.judge_id p = j /\
     ScorePayload.category_id p = c) ->
  List.filter (has_key t j c) (upsert env n p tbl)
  = List.filter (has_key t j c) tbl.
Proof.
  intros Hother. unfold upsert.
  destruct (existsb (conflicts p) tbl).
  - induction tbl as [|r tbl IH]; simpl; [done|].
    destruct (conflicts p r) eqn:Hr.
    + rewrite (has_key_overwrite _ _ _ _ _ Hr).
      destruct (has_key t j c r) eqn:Hk; [|done].
      exfalso. apply Hother.
      apply has_key_true in Hr as (<- & <- & <-).
      apply has_key_true in Hk as (<- & <- & <-). done.
    + by rewrite IH.
  - rewrite List.filter_app. simpl.
    destruct (has_key t j c (inserted env n p)) eqn:Hk.
    + exfalso. apply Hother. by apply has_key_true in Hk.
    + by rewrite app_nil_r.
Qed.

(** After an upsert its key holds its value. *)
Lemma upsert_settles n p tbl :
  settled (ScorePayload.team_id p) (ScorePayload.judge_id p)
          (ScorePayload.category_id p) (ScorePayload.score p)
          (upsert env n p tbl).
Proof.
  unfold settled, upsert.
  change (has_key (ScorePayload.team_id p) (ScorePayload.judge_id p)
                  (ScorePayload.category_id p)) with (conflicts p).
  destruct (existsb (conflicts p) tbl) eqn:Hex.
  - split.
    + rewrite existsb_map_overwrite, Hex; [done|].
      intros; by rewrite !conflicts_overwrite.
    + apply Forall_forall. intros r' Hr'.
      apply list_elem_of_In, in_map_iff in Hr' as (r & <- & _).
      destruct (conflicts p r) eqn:Hr; [done|]. by rewrite Hr.
  - split.
    + rewrite existsb_app. simpl. by rewrite conflicts_inserted, orb_true_r.
    + apply Forall_app. split; [|by repeat constructor].
      apply Forall_forall. intros r Hr Hk. exfalso.
      assert (existsb (conflicts p) tbl = true); [|congruence].
      apply existsb_exists. exists r. split; [by apply list_elem_of_In|done].
Qed.

(** An upsert keeps what other keys hold, and what its own key holds
    when it writes the same value. *)
Lemma upsert_preserves_settled n p tbl t j c v :
  settled t j c v tbl ->
  (ScorePayload.team_id p = t -> ScorePayload.judge_id p = j ->
   ScorePayload.category_id p = c -> ScorePayload.score p = v) ->
  settled t j c v (upsert env n p tbl).
Proof.
  intros [Hex Hall] Hsame. unfold settled, upsert.
  destruct (existsb (conflicts p) tbl).
  - split.
    + rewrite existsb_map_overwrite; [done|]. apply has_key_overwrite.
    + apply Forall_forall. intros r' Hr'.
      apply list_elem_of_In, in_map_iff in Hr' as (r & <- & Hr).
      destruct (conflicts p r) eqn:Hc.
      * intros (Ht & Hj & Hcat)%has_key_true. simpl in *. by apply Hsame.
      * rewrite Forall_forall in Hall. apply Hall. by apply list_elem_of_In.
  - split.
    + rewrite existsb_app, Hex. done.
    + apply Forall_app. split; [done|]. constructor; [|constructor].
      intros (Ht & Hj & Hcat)%has_key_true. simpl in *. by apply Hsame.
Qed.


End UpsertFacts.

(** ** The store and the submission *)

Section SubmissionFacts.
Import Store JudgeDashboard.
Variable env : Env.

Lemma effect_sent n r w : sent (effect env n r w) = sent w.
Proof. by destruct r. Qed.

Lemma send_sent r w : sent (snd (send env r w)) = sent w ++ [r].
Proof. unfold send. simpl. destruct (fault env _ r); simpl; [done|]. by rewrite effect_sent. Qed.

Lemma send_refused r w e :
  fault env (length (sent w)) r = Some e -> send env r w = (Some e, record r w).
Proof. unfold send. by intros ->. Qed.

Lemma send_accepted r w :
  fault env (length (sent w)) r = None ->
  send env r w = (None, record r (effect env (length (sent w)) r w)).
Proof. unfold send. by intros ->. Qed.

Lemma applyAll_sent reqs : forall n w, sent (applyAll env n reqs w) = sent w ++ reqs.
Proof.
  induction reqs as [|r reqs IH]; intros n w; simpl.
  - by rewrite app_nil_r.
  - rewrite IH. simpl. rewrite effect_sent. by rewrite <- app_assoc.
Qed.

(** Sending a fixed list of requests when none is refused. *)
Lemma sendAll_accepted reqs : forall w,
  (forall i r, reqs !! i = Some r ->
               fault env (length (sent w) + i) r = None) ->
  sendAll env reqs w = (Ok tt, applyAll env (length (sent w)) reqs w).
Proof.
  induction reqs as [|r reqs IH]; intros w Hok; simpl; [done|].
  unfold bind, write.
  rewrite send_accepted by (rewrite <- (Nat.add_0_r (length _)); by apply Hok).
  rewrite IH.
  - simpl. rewrite effect_sent, length_app. simpl.
    by rewrite Nat.add_1_r.
  - intros i r' Hi. simpl. rewrite effect_sent, length_app. simpl.
    replace (length (sent w) + 1 + i)%nat with (length (sent w) + S i)%nat by lia.
    by apply Hok.
Qed.

(** Sending stops at the first refused request. *)
Lemma sendAll_refused reqs : forall w k r e,
  reqs !! k = Some r ->
  fault env (length (sent w) + k) r = Some e ->
  (forall i r', (i < k)%nat -> reqs !! i = Some r' ->
                fault env (length (sent w) + i) r' = None) ->
  sendAll env reqs w
  = (Throw e, record r (applyAll env (length (sent w)) (take k reqs) w)).
Proof.
  induction reqs as [|r0 reqs IH]; intros w k r e Hk He Hbefore; [done|].
  destruct k as [|k]; simpl in *.
  - injection Hk as ->. unfold bind, write.
    rewrite Nat.add_0_r in He. by rewrite (send_refused _ _ _ He).
  - unfold bind, write.
    rewrite send_accepted
      by (rewrite <- (Nat.add_0_r (length _)); apply Hbefore; [lia|done]).
    rewrite (IH _ k r e Hk).
    + simpl. rewrite effect_sent, length_app. simpl.
      by rewrite Nat.add_1_r.
    + simpl. rewrite effect_sent, length_app. simpl.
      by replace (length (sent w) + 1 + k)%nat with (length (sent w) + S k)%nat by lia.
    + intros i r' Hi Hr'. simpl. rewrite effect_sent, length_app. simpl.
      replace (length (sent w) + 1 + i)%nat with (length (sent w) + S i)%nat by lia.
      apply Hbefore; [lia|done].
Qed.

Variables (team : Team.t) (user : AuthUser.t).

Lemma bind_assoc {A B C} (m : M A) (f : A -> M B) (g : B -> M C) w :
  bind (bind m f) g w = bind m (fun a => bind (f a) g) w.
Proof. unfold bind. by destruct (m w) as [[a|e] w']. Qed.

Lemma bind_write {B} (mk : nat -> Request) (k : unit -> M B) w :
  bind (write env mk) k w
  = match send env (mk (length (sent w))) w with
    | (Some e, w') => (Throw e, w')
    | (None, w') => k tt w'
    end.
Proof. unfold bind, write. by destruct (send env _ w) as [[e|] w']. Qed.

(** The [try] block sends exactly the planned writes, in order. *)
Lemma loop_sendAll p cats : forall w,
  bind (forOf (saveCategory env team user p) cats)
       (fun _ => saveComment env team user p) w
  = sendAll env (plannedWrites env team user p cats (length (sent w))) w.
Proof.
  induction cats as [|c cats IH]; intros w; simpl.
  - unfold saveComment. destruct (Js.truthy _); simpl; [|done].
    rewrite bind_write. unfold bind, ret, write.
    by destruct (send env _ w) as [[e|] w'].
  - rewrite bind_assoc. unfold saveCategory at 1.
    destruct (scores p !! Category.id c) as [score|]; simpl.
    + rewrite !bind_write.
      pose proof (send_sent (upsertRequest env team user c score (length (sent w))) w) as Hs.
      destruct (send env _ w) as [[e|] w']; simpl in *; [done|].
      rewrite IH. rewrite Hs, length_app. simpl. by rewrite Nat.add_1_r.
    + apply IH.
Qed.

Lemma submit_sendAll p w :
  submit env team user p w
  = sendAll env (plannedWrites env team user p (categories p) (length (sent w))) w.
Proof. apply loop_sendAll. Qed.

Lemma plannedWrites_setLoading b p cats n :
  plannedWrites env team user (setLoading b p) cats n
  = plannedWrites env team user p cats n.
Proof.
  revert n. induction cats as [|c cats IH]; intros n; simpl; [done|].
  destruct (scores p !! Category.id c); by rewrite IH.
Qed.

Lemma plannedWrites_is_write p cats : forall n,
  Forall (fun r => is_write r = true) (plannedWrites env team user p cats n).
Proof.
  induction cats as [|c cats IH]; intros n; simpl.
  - destruct (Js.truthy _); [|constructor].
    constructor; [|constructor]. unfold commentRequest.
    by destruct (existingComment p).
  - destruct (scores p !! Category.id c); [constructor|]; auto.
Qed.

(** The fetches after a successful save change no table. *)
Lemma send_read r w :
  is_write r = false -> snd (send env r w) = record r w.
Proof.
  intros Hr. unfold send. destruct (fault env _ r); simpl; [done|].
  by destruct r.
Qed.

Lemma fetchScoresForTeam_world tid p w :
  snd (fetchScoresForTeam env user tid p w)
  = record (SelectScores tid (AuthUser.id user)) w.
Proof.
  unfold fetchScoresForTeam.
  pose proof (send_read (SelectScores tid (AuthUser.id user)) w eq_refl) as Hs.
  by destruct (send env _ w) as [[e|] w'].
Qed.

Lemma fetchCommentForTeam_world tid p w :
  snd (fetchCommentForTeam env user tid p w)
  = record (SelectComment tid (AuthUser.id user)) w.
Proof.
  unfold fetchCommentForTeam.
  pose proof (send_read (SelectComment tid (AuthUser.id user)) w eq_refl) as Hs.
  destruct (send env _ w) as [err w']. simpl in Hs. subst w'.
  by destruct (Supabase.maybeSingle err _) as [[?|] [?|]].
Qed.

Lemma fetchScoresForTeam_page tid p w :
  alerts (fst (fetchScoresForTeam env user tid p w)) = alerts p /\
  selectedTeam (fst (fetchScoresForTeam env user tid p w)) = selectedTeam p /\
  comment (fst (fetchScoresForTeam env user tid p w)) = comment p /\
  existingComment (fst (fetchScoresForTeam env user tid p w)) = existingComment p /\
  categories (fst (fetchScoresForTeam env user tid p w)) = categories p.
Proof.
  unfold fetchScoresForTeam.
  by destruct (send env _ w) as [[e|] w'].
Qed.

Lemma fetchCommentForTeam_page tid p w :
  alerts (fst (fetchCommentForTeam env user tid p w)) = alerts p /\
  selectedTeam (fst (fetchCommentForTeam env user tid p w)) = selectedTeam p /\
  scores (fst (fetchCommentForTeam env user tid p w)) = scores p /\
  categories (fst (fetchCommentForTeam env user tid p w)) = categories p.
Proof.
  unfold fetchCommentForTeam.
  destruct (send env _ w) as [err w'].
  by destruct (Supabase.maybeSingle err _) as [[?|] [?|]].
Qed.

(** [saveScores] when the [try] block completes. *)
Lemma saveScores_ok p w w1 :
  selectedTeam p = Some team ->
  submit env team user (setLoading true p) w = (Ok tt, w1) ->
  saveScores env (Some user) p w
  = (setLoading false
       (fst (fetchCommentForTeam env user (Team.id team)
               (fst (fetchScoresForTeam env user (Team.id team)
                       (alert "Scores and comment saved successfully!"
                              (setLoading true p)) w1))
               (record (SelectScores (Team.id team) (AuthUser.id user)) w1))),
     record (SelectComment (Team.id team) (AuthUser.id user))
       (record (SelectScores (Team.id team) (AuthUser.id user)) w1)).
Proof.
  intros Hteam Hsub. unfold saveScores. rewrite Hteam, Hsub.
  set (p1 := alert _ _).
  pose proof (fetchScoresForTeam_world (Team.id team) p1 w1) as Hw2.
  destruct (fetchScoresForTeam env user (Team.id team) p1 w1) as [p2 w2].
  pose proof (fetchCommentForTeam_world (Team.id team) p2 w2) as Hw3.
  destruct (fetchCommentForTeam env user (Team.id team) p2 w2) as [p3 w3] eqn:Hf.
  simpl in *. subst w2 w3. by rewrite Hf.
Qed.

(** [saveScores] when a write throws. *)
Lemma saveScores_throw p w w1 e :
  selectedTeam p = Some team ->
  submit env team user (setLoading true p) w = (Throw e, w1) ->
  saveScores env (Some user) p w
  = (setLoading false (alert (failureMessage e) (setLoading true p)), w1).
Proof. intros Hteam Hsub. unfold saveScores. by rewrite Hteam, Hsub. Qed.

(** Either every request is accepted, or sending stops at one. *)
Lemma sendAll_cases reqs : forall w,
  sendAll env reqs w = (Ok tt, applyAll env (length (sent w)) reqs w) \/
  exists k r e,
    reqs !! k = Some r /\
    sendAll env reqs w
    = (Throw e, record r (applyAll env (length (sent w)) (take k reqs) w)).
Proof.
  induction reqs as [|r reqs IH]; intros w; simpl; [by left|].
  rewrite bind_write. unfold send.
  destruct (fault env (length (sent w)) r) as [e|].
  - right. by exists 0%nat, r, e.
  - set (w' := record r (effect env (length (sent w)) r w)).
    assert (length (sent w') = S (length (sent w))) as Hlen.
    { subst w'. simpl. rewrite effect_sent, length_app. simpl. lia. }
    destruct (IH w') as [Hok|(k & r' & e & Hk & Hthrow)].
    + left. by rewrite Hok, Hlen.
    + right. exists (S k), r', e. split; [done|]. by rewrite Hthrow, Hlen.
Qed.

(** The two ways [saveScores] ends when a team is selected. *)
Lemma saveScores_cases p w :
  selectedTeam p = Some team ->
  (exists p',
      saveScores env (Some user) p w
      = (p', record (SelectComment (Team.id team) (AuthUser.id user))
               (record (SelectScores (Team.id team) (AuthUser.id user))
                  (applyAll env (length (sent w))
                     (plannedWrites env team user p (categories p) (length (sent w)))
                     w)))) \/
  (exists k r e,
      plannedWrites env team user p (categories p) (length (sent w)) !! k = Some r /\
      saveScores env (Some user) p w
      = (setLoading false (alert (failureMessage e) (setLoading true p)),
         record r (applyAll env (length (sent w))
                     (take k (plannedWrites env team user p (categories p)
                                (length (sent w)))) w))).
Proof.
  intros Hteam.
  pose proof (submit_sendAll (setLoading true p) w) as Hsub.
  simpl in Hsub. rewrite plannedWrites_setLoading in Hsub.
  destruct (sendAll_cases
              (plannedWrites env team user p (categories p) (length (sent w))) w)
    as [Hok|(k & r & e & Hk & Hthrow)].
  - left. rewrite Hok in Hsub. eexists. by apply saveScores_ok.
  - right. exists k, r, e. split; [done|].
    rewrite Hthrow in Hsub. by apply saveScores_throw.
Qed.

(** What the planned writes are made of. *)
Lemma plannedWrites_upsert p cats : forall n q,
  In (UpsertScore q) (plannedWrites env team user p cats n) ->
  from_page team user p q /\
  exists category, In category cats /\
                   ScorePayload.category_id q = Category.id category.
Proof.
  induction cats as [|c cats IH]; intros n q; simpl.
  - destruct (Js.truthy _); [|done].
    intros [H|[]]. unfold commentRequest in H. by destruct (existingComment p).
  - destruct (scores p !! Category.id c) as [score|] eqn:Hc.
    + intros [[= <-]|Hin].
      * split; [done|]. exists c. auto.
      * destruct (IH _ _ Hin) as (Hq & c' & Hc' & Hid). split; [done|]. eauto.
    + intros Hin.
      destruct (IH _ _ Hin) as (Hq & c' & Hc' & Hid). split; [done|]. eauto.
Qed.

Lemma plannedWrites_split p cats : forall n,
  exists ups,
    Forall (fun r => is_comment_write r = false) ups /\
    plannedWrites env team user p cats n
    = ups ++ (if Js.truthy (Js.trim (comment p))
              then [commentRequest env team user p (n + length ups)]
              else []).
Proof.
  induction cats as [|c cats IH]; intros n; simpl.
  - exists []. split; [constructor|]. simpl. by rewrite Nat.add_0_r.
  - destruct (scores p !! Category.id c) as [score|]; [|apply IH].
    destruct (IH (S n)) as (ups & Hups & ->).
    exists (upsertRequest env team user c score n :: ups).
    split; [by constructor|]. simpl.
    by replace (n + S (length ups))%nat with (S n + length ups)%nat by lia.
Qed.

(** Carrying out requests. *)
Lemma applyAll_app reqs1 reqs2 : forall n w,
  applyAll env n (reqs1 ++ reqs2) w
  = applyAll env (n + length reqs1) reqs2 (applyAll env n reqs1 w).
Proof.
  induction reqs1 as [|r reqs1 IH]; intros n w; simpl.
  - by rewrite Nat.add_0_r.
  - rewrite IH. by replace (S n + length reqs1)%nat with (n + S (length reqs1))%nat by lia.
Qed.

Lemma applyAll_comments reqs : forall n w,
  Forall (fun r => is_comment_write r = false) reqs ->
  comments_tbl (applyAll env n reqs w) = comments_tbl w.
Proof.
  induction reqs as [|r reqs IH]; intros n w Hall; simpl; [done|].
  apply Forall_cons in Hall as [Hr Hall]. rewrite IH by done.
  by destruct r.
Qed.

Lemma applyAll_frame reqs t j c : forall n w,
  (forall q, In (UpsertScore q) reqs ->
             ~ (ScorePayload.team_id q = t /\ ScorePayload.judge_id q = j /\
                ScorePayload.category_id q = c)) ->
  List.filter (has_key t j c) (scores_tbl (applyAll env n reqs w))
  = List.filter (has_key t j c) (scores_tbl w).
Proof.
  induction reqs as [|r reqs IH]; intros n w Hother; simpl; [done|].
  rewrite IH by (intros q Hq; apply Hother; by right).
  destruct r as [q| | | |]; simpl; try done.
  apply upsert_frame. apply Hother. by left.
Qed.

Lemma applyAll_preserves_settled reqs t j c v : forall n w,
  settled t j c v (scores_tbl w) ->
  (forall q, In (UpsertScore q) reqs ->
             ScorePayload.team_id q = t -> ScorePayload.judge_id q = j ->
             ScorePayload.category_id q = c -> ScorePayload.score q = v) ->
  settled t j c v (scores_tbl (applyAll env n reqs w)).
Proof.
  induction reqs as [|r reqs IH]; intros n w Hs Hsame; simpl; [done|].
  apply IH; [|intros q Hq; apply Hsame; by right].
  destruct r as [q| | | |]; simpl; try done.
  apply upsert_preserves_settled; [done|]. apply Hsame. by left.
Qed.

(** Two payloads taken from the same page agree on a common key. *)
Lemma from_page_agree p q q' :
  from_page team user p q -> from_page team user p q' ->
  ScorePayload.category_id q = ScorePayload.category_id q' ->
  ScorePayload.score q = ScorePayload.score q'.
Proof. intros (_ & _ & H) (_ & _ & H') Heq. rewrite Heq in H. congruence. Qed.

Lemma applyAll_settles p reqs : forall n w q,
  (forall q', In (UpsertScore q') reqs -> from_page team user p q') ->
  In (UpsertScore q) reqs ->
  settled (ScorePayload.team_id q) (ScorePayload.judge_id q)
          (ScorePayload.category_id q) (ScorePayload.score q)
          (scores_tbl (applyAll env n reqs w)).
Proof.
  induction reqs as [|r reqs IH]; intros n w q Hpage Hq; [done|]. simpl.
  destruct Hq as [->|Hq].
  - apply applyAll_preserves_settled; [apply upsert_settles|].
    intros q' Hq' _ _ Hcat. symmetry.
    apply (from_page_agree p); [apply Hpage; by left|apply Hpage; by right|done].
  - apply IH; [|done]. intros q' Hq'. apply Hpage. by right.
Qed.


Lemma In_take {A} (x : A) k l : In x (take k l) -> In x l.
Proof.
  revert k. induction l as [|y l IH]; intros [|k]; simpl; try done.
  intros [->|H]; [by left|right; eauto].
Qed.

Lemma plannedWrites_complete p cats : forall n category v,
  In category cats -> scores p !! Category.id category = Some v ->
  exists q, In (UpsertScore q) (plannedWrites env team user p cats n) /\
            ScorePayload.team_id q = Team.id team /\
            ScorePayload.judge_id q = AuthUser.id user /\
            ScorePayload.category_id q = Category.id category /\
            ScorePayload.score q = v.
Proof.
  induction cats as [|c cats IH]; intros n category v Hin Hv; [done|]. simpl.
  destruct Hin as [->|Hin].
  - rewrite Hv. eexists. split; [by left|done].
  - destruct (scores p !! Category.id c).
    + destruct (IH (S n) _ _ Hin Hv) as (q & Hq & H). exists q. split; [by right|done].
    + by apply IH.
Qed.

(** The tables after [saveScores]: some prefix of the planned writes
    has been carried out; every request it sent is a planned write or
    a read. *)
Lemma saveScores_summary p w :
  selectedTeam p = Some team ->
  exists k,
    scores_tbl (snd (saveScores env (Some user) p w))
    = scores_tbl (applyAll env (length (sent w))
                    (take k (plannedWrites env team user p (categories p)
                               (length (sent w)))) w) /\
    comments_tbl (snd (saveScores env (Some user) p w))
    = comments_tbl (applyAll env (length (sent w))
                      (take k (plannedWrites env team user p (categories p)
                                 (length (sent w)))) w) /\
    (fst (submit env team user (setLoading true p) w) <> Ok tt ->
     (k < length (plannedWrites env team user p (categories p) (length (sent w))))%nat) /\
    forall r, In r (sent (snd (saveScores env (Some user) p w))) ->
              In r (sent w) \/
              In r (plannedWrites env team user p (categories p) (length (sent w))) \/
              is_write r = false.
Proof.
  intros Hteam.
  pose proof (submit_sendAll (setLoading true p) w) as Hsub.
  simpl in Hsub. rewrite plannedWrites_setLoading in Hsub.
  set (planned := plannedWrites env team user p (categories p) (length (sent w))) in *.
  destruct (sendAll_cases planned w) as [Hok|(k & r & e & Hk & Hthrow)].
  - rewrite Hok in Hsub. rewrite (saveScores_ok p w _ Hteam Hsub).
    exists (length planned). rewrite firstn_all. simpl.
    split; [done|]. split; [done|]. split; [by rewrite Hsub|].
    intros r. rewrite applyAll_sent, !in_app_iff. simpl.
    intros [[[H|H]|[<-|[]]]|[<-|[]]]; auto.
  - rewrite Hthrow in Hsub. rewrite (saveScores_throw p w _ e Hteam Hsub).
    exists k. simpl. split; [done|]. split; [done|].
    split; [intros _; by eapply lookup_lt_Some|].
    intros r'. rewrite applyAll_sent, !in_app_iff. simpl.
    intros [[H|H]|[<-|[]]]; auto.
    + right. left. by eapply In_take.
    + right. left. apply list_elem_of_In. by eapply list_elem_of_lookup_2.
Qed.

End SubmissionFacts.

Section SaveScoresFacts.
Import Store JudgeDashboard.
Variable env : Env.

Lemma saveScores_idle (u : option AuthUser.t) p w :
  selectedTeam p = None \/ u = None -> saveScores env u p w = (p, w).
Proof.
  unfold saveScores. intros [->| ->]; [done|]. by destruct (selectedTeam p).
Qed.

(** Every upsert [saveScores] sends carries, for the selected team
    and the judge, the value the score map holds for a category of
    the page. *)
Lemma saveScores_sent_upsert (u : option AuthUser.t) p w q :
  In (UpsertScore q) (sent (snd (saveScores env u p w))) ->
  In (UpsertScore q) (sent w) \/
  (submitted_key p u (ScorePayload.team_id q) (ScorePayload.judge_id q)
                 (ScorePayload.category_id q) /\
   scores p !! ScorePayload.category_id q = Some (ScorePayload.score q)).
Proof.
  destruct (selectedTeam p) as [tm|] eqn:Hteam;
    [|rewrite saveScores_idle by auto; by left].
  destruct u as [u|]; [|rewrite saveScores_idle by auto; by left].
  destruct (saveScores_summary env tm u p w Hteam) as (k & _ & _ & _ & Hsent).
  intros Hq. destruct (Hsent _ Hq) as [H|[H|H]]; [by left| |done].
  right.
  destruct (plannedWrites_upsert env tm u p _ _ _ H)
    as ((Ht & Hj & Hv) & c & Hc & Hid).
  split; [|done].
  exists tm, u, c. repeat split; try done; rewrite Hv; by eexists.
Qed.

(** Rows whose key the submission does not write are untouched. *)
Lemma saveScores_other_key (u : option AuthUser.t) p w t j c :
  ~ submitted_key p u t j c ->
  List.filter (has_key t j c) (scores_tbl (snd (saveScores env u p w)))
  = List.filter (has_key t j c) (scores_tbl w).
Proof.
  intros Hother.
  destruct (selectedTeam p) as [tm|] eqn:Hteam;
    [|by rewrite saveScores_idle by auto].
  destruct u as [u|]; [|by rewrite saveScores_idle by auto].
  destruct (saveScores_summary env tm u p w Hteam) as (k & -> & _).
  apply applyAll_frame. intros q Hq (Ht & Hj & Hc).
  apply In_take in Hq.
  destruct (plannedWrites_upsert env tm u p _ _ _ Hq)
    as ((Ht' & Hj' & Hv) & cat & Hcat & Hid).
  apply Hother. exists tm, u, cat.
  repeat split; try congruence; rewrite <- Hc, Hv; by eexists.
Qed.

(** The tables after a submission all of whose writes are accepted. *)
Lemma saveScores_accepted (u : AuthUser.t) team p w :
  selectedTeam p = Some team ->
  (forall i r,
      plannedWrites env team u p (categories p) (length (sent w)) !! i = Some r ->
      fault env (length (sent w) + i) r = None) ->
  fst (submit env team u (setLoading true p) w) = Ok tt /\
  scores_tbl (snd (saveScores env (Some u) p w))
  = scores_tbl (applyAll env (length (sent w))
                  (plannedWrites env team u p (categories p) (length (sent w))) w) /\
  comments_tbl (snd (saveScores env (Some u) p w))
  = comments_tbl (applyAll env (length (sent w))
                    (plannedWrites env team u p (categories p) (length (sent w))) w).
Proof.
  intros Hteam Hok.
  pose proof (submit_sendAll env team u (setLoading true p) w) as Hsub.
  simpl in Hsub. rewrite plannedWrites_setLoading in Hsub.
  rewrite (sendAll_accepted env _ w Hok) in Hsub.
  rewrite (saveScores_ok env team u p w _ Hteam Hsub). by rewrite Hsub.
Qed.

(** The comment table changes only by the comment write. *)
Lemma saveScores_throw_comments (u : AuthUser.t) team p w :
  selectedTeam p = Some team ->
  fst (submit env team u (setLoading true p) w) <> Ok tt ->
  comments_tbl (snd (saveScores env (Some u) p w)) = comments_tbl w.
Proof.
  intros Hteam Hthrow.
  destruct (saveScores_summary env team u p w Hteam) as (k & _ & -> & Hk & _).
  specialize (Hk Hthrow).
  destruct (plannedWrites_split env team u p (categories p) (length (sent w)))
    as (ups & Hups & Hsplit).
  rewrite Hsplit in *.
  assert (k <= length ups)%nat as Hle.
  { rewrite length_app in Hk. destruct (Js.truthy _); simpl in Hk; lia. }
  rewrite take_app_le by done.
  apply applyAll_comments. apply Forall_take. done.
Qed.

Lemma truthy_false s : Js.truthy s = false <-> s = ""%string.
Proof. by destruct s. Qed.

Lemma effect_comments_tbl n r w1 w2 :
  comments_tbl w1 = comments_tbl w2 ->
  comments_tbl (effect env n r w1) = comments_tbl (effect env n r w2).
Proof. intros H. destruct r; simpl; by rewrite ?H. Qed.

(** A completed [try] block has carried out every planned write. *)
Lemma submit_ok_world (u : AuthUser.t) team p w :
  fst (submit env team u p w) = Ok tt ->
  snd (submit env team u p w)
  = applyAll env (length (sent w))
      (plannedWrites env team u p (categories p) (length (sent w))) w.
Proof.
  rewrite submit_sendAll.
  destruct (sendAll_cases env
              (plannedWrites env team u p (categories p) (length (sent w))) w)
    as [->|(k & r & e & _ & ->)]; [done|]. simpl. discriminate.
Qed.

(** The comment table after a completed [try] block. *)
Lemma submit_ok_comments (u : AuthUser.t) team p w :
  fst (submit env team u p w) = Ok tt ->
  (Js.truthy (Js.trim (comment p)) = false /\
   comments_tbl (snd (submit env team u p w)) = comments_tbl w) \/
  (Js.truthy (Js.trim (comment p)) = true /\
   exists m,
     In (commentRequest env team u p m) (sent (snd (submit env team u p w))) /\
     comments_tbl (snd (submit env team u p w))
     = comments_tbl (effect env m (commentRequest env team u p m) w)).
Proof.
  intros Hok. rewrite (submit_ok_world u team p w Hok).
  destruct (plannedWrites_split env team u p (categories p) (length (sent w)))
    as (ups & Hups & ->).
  rewrite applyAll_app, applyAll_sent.
  destruct (Js.truthy (Js.trim (comment p))); simpl.
  - right. split; [done|]. exists (length (sent w) + length ups)%nat.
    split; [rewrite !in_app_iff; simpl; auto|].
    apply effect_comments_tbl. by apply applyAll_comments.
  - left. split; [done|]. by apply applyAll_comments.
Qed.

(** The world [saveScores] leaves, in terms of the [try] block. *)
Lemma saveScores_world (u : AuthUser.t) team p w :
  selectedTeam p = Some team ->
  (fst (submit env team u (setLoading true p) w) = Ok tt /\
   snd (saveScores env (Some u) p w)
   = record (SelectComment (Team.id team) (AuthUser.id u))
       (record (SelectScores (Team.id team) (AuthUser.id u))
          (snd (submit env team u (setLoading true p) w)))) \/
  (fst (submit env team u (setLoading true p) w) <> Ok tt /\
   saveScores env (Some u) p w
   = (setLoading false
        (alert (match fst (submit env team u (setLoading true p) w) with
                | Throw e => failureMessage e
                | Ok _ => ""%string
                end) (setLoading true p)),
      snd (submit env team u (setLoading true p) w))).
Proof.
  intros Hteam.
  destruct (submit env team u (setLoading true p) w) as [[[]|e] w1] eqn:Hsub.
  - left. split; [done|]. by rewrite (saveScores_ok env team u p w w1 Hteam Hsub).
  - right. split; [done|]. by rewrite (saveScores_throw env team u p w w1 e Hteam Hsub).
Qed.

End SaveScoresFacts.

(** ** Comments of a (team, judge) pair over a session *)

Section CommentFacts.
Import Store JudgeDashboard.
Variable env : Env.
Variables (team : Team.t) (user : AuthUser.t).

Lemma in_sync_ids p w :
  in_sync team user p w <->
  selectedTeam p = Some team /\
  map CommentRow.id (comments_of (Team.id team) (AuthUser.id user) w) = known_ids p.
Proof.
  unfold in_sync, known_ids.
  destruct (comments_of _ _ w) as [|row [|row' rows]]; simpl.
  - split; intros [Ht H]; (split; [done|]).
    + by rewrite H.
    + by destruct (existingComment p).
  - split; intros [Ht H]; (split; [done|]).
    + destruct H as (c & -> & ->). done.
    + destruct (existingComment p) as [c|]; [|done].
      exists c. split; [done|]. congruence.
  - split; [by intros [_ []]|]. intros [_ H].
    by destruct (existingComment p).
Qed.

Lemma update_comment_ids t j id c ts tbl :
  map CommentRow.id
      (List.filter (fun r => String.eqb (CommentRow.team_id r) t
                             && String.eqb (CommentRow.judge_id r) j)
                   (update_comment id c ts tbl))
  = map CommentRow.id
        (List.filter (fun r => String.eqb (CommentRow.team_id r) t
                               && String.eqb (CommentRow.judge_id r) j) tbl).
Proof.
  induction tbl as [|r tbl IH]; simpl; [done|].
  destruct (String.eqb (CommentRow.id r) id); simpl;
    destruct (_ && _); simpl; by rewrite IH.
Qed.

(** The ids of the pair's comments after the comment write. *)
Lemma commentRequest_ids p w m :
  in_sync team user p w ->
  exists i,
    map CommentRow.id
        (comments_of (Team.id team) (AuthUser.id user)
           (effect env m (commentRequest env team user p m) w)) = [i].
Proof.
  intros [_ Hids]%in_sync_ids. unfold commentRequest, known_ids in *.
  destruct (existingComment p) as [c|]; simpl.
  - exists (Comment.id c). unfold comments_of in *. simpl.
    by rewrite update_comment_ids.
  - exists (gen_random_uuid env m). unfold comments_of, insert_comment in *. simpl.
    rewrite List.filter_app, map_app, Hids. simpl.
    by rewrite !String.eqb_refl.
Qed.

Lemma fetchCommentForTeam_existing p w :
  fault env (length (sent w))
        (SelectComment (Team.id team) (AuthUser.id user)) = None ->
  known_ids (fst (fetchCommentForTeam env user (Team.id team) p w))
  = match comments_of (Team.id team) (AuthUser.id user) w with
    | [row] => [CommentRow.id row]
    | _ => []
    end.
Proof.
  intros Hread. unfold fetchCommentForTeam, send. rewrite Hread. simpl.
  change (comments_of (Team.id team) (AuthUser.id user) (record _ w))
    with (comments_of (Team.id team) (AuthUser.id user) w).
  by destruct (comments_of _ _ w) as [|row [|row' rows]].
Qed.

Hypothesis reads_answered :
  forall n t j, fault env n (SelectComment t j) = None.

(** Pressing save keeps the page and the store in agreement. *)
Lemma saveScores_in_sync p w :
  in_sync team user p w ->
  in_sync team user (fst (saveScores env (Some user) p w))
                    (snd (saveScores env (Some user) p w)).
Proof.
  intros Hsync. pose proof Hsync as [Hteam Hids]%in_sync_ids.
  apply in_sync_ids.
  destruct (saveScores_world env user team p w Hteam) as [[Hok Hw]|[Hthrow Hs]].
  - assert (exists ids, (length ids <= 1)%nat /\
              map CommentRow.id
                  (comments_of (Team.id team) (AuthUser.id user)
                     (snd (submit env team user (setLoading true p) w))) = ids)
      as (ids & Hlen & Hids1).
    { destruct (submit_ok_comments env user team (setLoading true p) w Hok)
        as [[_ Htbl]|[_ (m & _ & Htbl)]].
      - exists (known_ids p). split.
        + unfold known_ids. destruct (existingComment p); simpl; lia.
        + unfold comments_of in *. by rewrite Htbl.
      - destruct (commentRequest_ids p w m Hsync) as (i & Hi).
        exists [i]. split; [simpl; lia|].
        unfold comments_of in *. by rewrite Htbl. }
    destruct (submit env team user (setLoading true p) w) as [r w1] eqn:Hsub.
    simpl in Hok, Hw, Hids1. subst r.
    rewrite (saveScores_ok env team user p w w1 Hteam Hsub). simpl.
    split.
    + rewrite (proj1 (proj2 (fetchCommentForTeam_page env user _ _ _))).
      by rewrite (proj1 (proj2 (fetchScoresForTeam_page env user _ _ _))).
    + change (known_ids (setLoading false ?q)) with (known_ids q).
      rewrite fetchCommentForTeam_existing by apply reads_answered.
      change (comments_of ?t ?j (record _ (record _ w1)))
        with (comments_of t j w1).
      change (comments_of ?t ?j (record _ w1)) with (comments_of t j w1).
      destruct (comments_of _ _ w1) as [|row [|row' rows]]; simpl in *;
        subst ids; simpl in *; [done|done|lia].
  - rewrite Hs. simpl. split; [done|].
    pose proof (saveScores_throw_comments env user team p w Hteam Hthrow) as Htbl.
    rewrite Hs in Htbl. simpl in Htbl.
    unfold comments_of in *. by rewrite Htbl.
Qed.

Lemma act_in_sync a s :
  in_sync team user (fst s) (snd s) ->
  in_sync team user (fst (act env user a s)) (snd (act env user a s)).
Proof.
  destruct a as [text|parsed category|]; simpl; [done|done|].
  apply saveScores_in_sync.
Qed.

Lemma session_in_sync actions : forall s,
  in_sync team user (fst s) (snd s) ->
  in_sync team user (fst (session env user actions s))
                    (snd (session env user actions s)).
Proof.
  unfold session.
  induction actions as [|a actions IH]; intros s Hs; simpl; [done|].
  apply IH. by apply act_in_sync.
Qed.

Lemma in_sync_at_most_one p w :
  in_sync team user p w ->
  (length (comments_of (Team.id team) (AuthUser.id user) w) <= 1)%nat.
Proof.
  intros [_ H]. destruct (comments_of _ _ w) as [|row [|row' rows]]; simpl; [lia|lia|done].
Qed.

End CommentFacts.

(** ** How many rows a key has *)

Section KeyCountFacts.
Import Store JudgeDashboard.
Variable env : Env.

Lemma existsb_filter_length {A} (f : A -> bool) (l : list A) :
  existsb f l = true -> (1 <= length (List.filter f l))%nat.
Proof.
  induction l as [|x l IH]; simpl; [done|].
  destruct (f x); simpl; [lia|done].
Qed.

(** An upsert adds a row to a key only when the key has none. *)
Lemma upsert_count n p tbl t j c :
  length (List.filter (has_key t j c) (upsert env n p tbl))
  = length (List.filter (has_key t j c) tbl) \/
  (length (List.filter (has_key t j c) tbl) = 0%nat /\
   length (List.filter (has_key t j c) (upsert env n p tbl)) = 1%nat).
Proof.
  unfold upsert. destruct (existsb (conflicts p) tbl) eqn:Hex.
  - left. clear Hex. induction tbl as [|r tbl IH]; simpl; [done|].
    destruct (conflicts p r) eqn:Hr.
    + rewrite (has_key_overwrite _ _ _ _ _ Hr).
      destruct (has_key t j c r); simpl; by rewrite IH.
    + destruct (has_key t j c r); simpl; by rewrite IH.
  - rewrite List.filter_app, length_app. simpl.
    destruct (has_key t j c (inserted env n p)) eqn:Hk; simpl; [|left; lia].
    right. apply has_key_true in Hk as (Ht & Hj & Hc). simpl in *.
    rewrite (filter_none (has_key t j c) tbl); [done|].
    intros r Hr. destruct (has_key t j c r) eqn:Hkey; [|done].
    assert (existsb (conflicts p) tbl = true); [|congruence].
    apply existsb_exists. exists r. split; [done|].
    unfold conflicts. by rewrite Ht, Hj, Hc.
Qed.

Lemma applyAll_count reqs t j c : forall n w,
  length (List.filter (has_key t j c) (scores_tbl (applyAll env n reqs w)))
  = length (List.filter (has_key t j c) (scores_tbl w)) \/
  (length (List.filter (has_key t j c) (scores_tbl w)) = 0%nat /\
   length (List.filter (has_key t j c) (scores_tbl (applyAll env n reqs w))) = 1%nat).
Proof.
  induction reqs as [|r reqs IH]; intros n w; simpl; [by left|].
  assert (length (List.filter (has_key t j c)
                    (scores_tbl (record r (effect env n r w))))
          = length (List.filter (has_key t j c) (scores_tbl w)) \/
          (length (List.filter (has_key t j c) (scores_tbl w)) = 0%nat /\
           length (List.filter (has_key t j c)
                     (scores_tbl (record r (effect env n r w)))) = 1%nat)) as Hstep.
  { destruct r as [q| | | |]; simpl; try (by left). apply upsert_count. }
  destruct (IH (S n) (record r (effect env n r w))) as [H|[H0 H1]];
    destruct Hstep as [H'|[H0' H1']]; lia.
Qed.

(** What an accepted submission leaves under the key of a category
    for which the score map holds a value: a row is there, every row
    of the key carries the value, and a row has been added only if
    there was none. *)
Lemma saveScores_accepted_key (user : AuthUser.t) team p w category v :
  selectedTeam p = Some team ->
  In category (categories p) ->
  scores p !! Category.id category = Some v ->
  (forall i r,
      plannedWrites env team user p (categories p) (length (sent w)) !! i = Some r ->
      fault env (length (sent w) + i) r = None) ->
  settled (Team.id team) (AuthUser.id user) (Category.id category) v
          (scores_tbl (snd (saveScores env (Some user) p w))) /\
  length (List.filter (has_key (Team.id team) (AuthUser.id user) (Category.id category))
            (scores_tbl (snd (saveScores env (Some user) p w))))
  = Nat.max 1 (length (List.filter
                         (has_key (Team.id team) (AuthUser.id user)
                                  (Category.id category))
                         (scores_tbl w))).
Proof.
  intros Hteam Hcat Hv Hok.
  destruct (saveScores_accepted env user team p w Hteam Hok) as (_ & -> & _).
  destruct (plannedWrites_complete env team user p (categories p)
              (length (sent w)) category v Hcat Hv)
    as (q & Hq & Ht & Hj & Hc & Hscore).
  assert (settled (Team.id team) (AuthUser.id user) (Category.id category) v
                  (scores_tbl (applyAll env (length (sent w))
                                 (plannedWrites env team user p (categories p)
                                    (length (sent w))) w))) as Hset.
  { rewrite <- Ht, <- Hj, <- Hc, <- Hscore.
    apply (applyAll_settles env team user p); [|done].
    intros q' Hq'. by apply (plannedWrites_upsert env team user p _ _ _ Hq'). }
  split; [exact Hset|].
  destruct Hset as [Hex%existsb_filter_length _].
  destruct (applyAll_count
              (plannedWrites env team user p (categories p) (length (sent w)))
              (Team.id team) (AuthUser.id user) (Category.id category)
              (length (sent w)) w) as [H|[H0 H1]]; lia.
Qed.

Lemma onChange_entry parsed category p :
  scores (onChange parsed category p) !! Category.id category
  = Some (clamp (orZero parsed) (Category.max_score category)).
Proof. unfold onChange. simpl. apply lookup_insert_eq. Qed.

End KeyCountFacts.

(** ** Claims about score submission *)

Module SubmissionClaims.
Import Store JudgeDashboard Scenario.

(** C2, as the code has it.  The category upserts and the comment
    write are sent one after the other.  If the store accepts all of
    them, all are sent and success is reported.  If the store refuses
    one, the failure is reported, the refused write is the last
    request made (the writes after it are not attempted), and the
    writes accepted before it stay applied: nothing is rolled back. *)
Theorem saveScores_stops_at_first_refused_write
    (env : Env) (user : AuthUser.t) (team : Team.t) (p : Page) (w : World) :
  selectedTeam p = Some team ->
  ((forall i r,
       plannedWrites env team user p (categories p) (length (sent w)) !! i = Some r ->
       fault env (length (sent w) + i) r = None) ->
   exists p' w',
     saveScores env (Some user) p w = (p', w') /\
     alerts p' = alerts p ++ ["Scores and comment saved successfully!"%string] /\
     List.filter is_write (sent w')
     = List.filter is_write (sent w)
       ++ plannedWrites env team user p (categories p) (length (sent w)) /\
     scores_tbl w'
     = scores_tbl (applyAll env (length (sent w))
                     (plannedWrites env team user p (categories p) (length (sent w))) w) /\
     comments_tbl w'
     = comments_tbl (applyAll env (length (sent w))
                       (plannedWrites env team user p (categories p) (length (sent w))) w))
  /\
  (forall k r e,
      plannedWrites env team user p (categories p) (length (sent w)) !! k = Some r ->
      fault env (length (sent w) + k) r = Some e ->
      (forall i r', (i < k)%nat ->
          plannedWrites env team user p (categories p) (length (sent w)) !! i = Some r' ->
          fault env (length (sent w) + i) r' = None) ->
      exists p' w',
        saveScores env (Some user) p w = (p', w') /\
        alerts p' = alerts p ++ [failureMessage e] /\
        sent w'
        = sent w
          ++ take (S k) (plannedWrites env team user p (categories p) (length (sent w))) /\
        scores_tbl w'
        = scores_tbl (applyAll env (length (sent w))
                        (take k (plannedWrites env team user p (categories p)
                                   (length (sent w)))) w) /\
        comments_tbl w'
        = comments_tbl (applyAll env (length (sent w))
                          (take k (plannedWrites env team user p (categories p)
                                     (length (sent w)))) w)).
Proof.
  intros Hteam.
  set (planned := plannedWrites env team user p (categories p) (length (sent w))).
  assert (submit env team user (setLoading true p) w = sendAll env planned w) as Hsub.
  { rewrite submit_sendAll. simpl. by rewrite plannedWrites_setLoading. }
  split.
  - intros Hok. rewrite (sendAll_accepted env planned w Hok) in Hsub.
    pose proof (saveScores_ok env team user p w _ Hteam Hsub) as Hsave.
    eexists _, _. split; [exact Hsave|]. split.
    { simpl.
      rewrite (proj1 (fetchCommentForTeam_page env user _ _ _)).
      by rewrite (proj1 (fetchScoresForTeam_page env user _ _ _)). }
    simpl.
    rewrite !List.filter_app, applyAll_sent, List.filter_app. simpl.
    rewrite !app_nil_r. split; [|done]. f_equal.
    apply forallb_filter_id, forallb_forall. intros r Hr.
    pose proof (plannedWrites_is_write env team user p (categories p) (length (sent w))) as Hw.
    rewrite Forall_forall in Hw. apply Hw. by apply list_elem_of_In.
  - intros k r e Hk He Hbefore.
    rewrite (sendAll_refused env planned w k r e Hk He Hbefore) in Hsub.
    rewrite (saveScores_throw env team user p w _ e Hteam Hsub).
    eexists _, _. split; [done|]. simpl. split; [done|].
    rewrite applyAll_sent. split; [|done].
    rewrite <- app_assoc. f_equal. by erewrite take_S_r.
Qed.

Lemma saveScores_stops_at_first_refused_write_witness :
  exists p' w',
    saveScores env_refuse_first (Some judgeA) page0 world0 = (p', w') /\
    alerts p' = ["Failed to save scores"%string] /\
    sent w' = [upsertOf innovation 8] /\
    scores_tbl w' = [] /\ comments_tbl w' = [].
Proof.
  destruct (saveScores_stops_at_first_refused_write
              env_refuse_first judgeA teamX page0 world0 eq_refl) as [_ Hfail].
  destruct (Hfail 0%nat (upsertOf innovation 8) denied) as (p' & w' & H);
    [reflexivity|reflexivity|lia|].
  exists p', w'. exact H.
Defined.

(** C2 as stated fails: with scores for two categories and a comment,
    a store that refuses the first upsert never receives the second
    upsert nor the comment write. *)
Lemma remaining_writes_not_attempted :
  plannedWrites env_refuse_first teamX judgeA page0 (categories page0) 0
  = [ upsertOf innovation 8; upsertOf design 7;
      InsertComment "X" "jA" "solid demo" ] /\
  sent (snd (saveScores env_refuse_first (Some judgeA) page0 world0))
  = [ upsertOf innovation 8 ] /\
  ~ In (upsertOf design 7)
       (sent (snd (saveScores env_refuse_first (Some judgeA) page0 world0))) /\
  ~ In (InsertComment "X" "jA" "solid demo")
       (sent (snd (saveScores env_refuse_first (Some judgeA) page0 world0))).
Proof.
  assert (sent (snd (saveScores env_refuse_first (Some judgeA) page0 world0))
          = [ upsertOf innovation 8 ]) as Hsent by (vm_compute; reflexivity).
  split; [vm_compute; reflexivity|]. split; [exact Hsent|].
  rewrite Hsent. split; intros [H|[]]; discriminate H.
Qed.

(** C10. Frame of a submission.  Every upsert [saveScores] sends is
    for the selected team, the acting judge and a category of the page
    for which the score map holds a value, and carries that value; the
    score rows of every other (team, judge, category) triple (other
    teams, other judges, categories without a provided value) are
    the same after the submission as before, whatever the store
    answers. *)
Theorem saveScores_leaves_other_rows_unchanged
    (env : Env) (user : option AuthUser.t) (p : Page) (w : World) :
  (forall q,
      In (UpsertScore q) (sent (snd (saveScores env user p w))) ->
      In (UpsertScore q) (sent w) \/
      (submitted_key p user (ScorePayload.team_id q) (ScorePayload.judge_id q)
                     (ScorePayload.category_id q) /\
       scores p !! ScorePayload.category_id q = Some (ScorePayload.score q))) /\
  (forall t j c,
      ~ submitted_key p user t j c ->
      List.filter (has_key t j c) (scores_tbl (snd (saveScores env user p w)))
      = List.filter (has_key t j c) (scores_tbl w)).
Proof.
  split.
  - intros q. apply saveScores_sent_upsert.
  - intros t j c. apply saveScores_other_key.
Qed.

Lemma saveScores_leaves_other_rows_unchanged_witness :
  List.filter (has_key "X" "jA" "c-inn")
    (scores_tbl (snd (saveScores env_later (Some judgeA)
                        (onChange (Some 9) design page_blank) world_legacy)))
  = scores_tbl world_legacy.
Proof.
  destruct (saveScores_leaves_other_rows_unchanged env_later (Some judgeA)
              (onChange (Some 9) design page_blank) world_legacy) as [_ Hframe].
  rewrite (Hframe "X" "jA" "c-inn"); [reflexivity|].
  intros (tm & u & cat & _ & _ & _ & _ & _ & _ & Hsome).
  vm_compute in Hsome. by destruct Hsome.
Defined.




(** C3, as the code has it.  The range check lives in the score
    input only.  (1) For a category whose [max_score] is not negative,
    the input handler clamps: it puts in the score map the number
    typed when that lies in [0 .. max_score], 0 when it is negative or
    does not parse, and [max_score] when it is above; so the value is
    in range.  (2) [saveScores] neither rejects nor clamps: every
    upsert it sends carries the value of the score map unchanged, and
    (3) an accepted submission stores whatever value the score map
    holds for a category of the page: the key has a row and every row
    of the key has exactly that value, in range or not.  (4) Hence a
    value that has just been entered for a category with a
    non-negative maximum is stored, by an accepted submission, exactly
    as clamped. *)
Theorem entered_score_is_clamped_and_saved_as_is :
  (forall category p,
      0 <= Category.max_score category ->
      (forall v, 0 <= v <= Category.max_score category ->
                 scores (onChange (Some v) category p) !! Category.id category
                 = Some v) /\
      (forall v, v < 0 ->
                 scores (onChange (Some v) category p) !! Category.id category
                 = Some 0) /\
      (forall v, Category.max_score category < v ->
                 scores (onChange (Some v) category p) !! Category.id category
                 = Some (Category.max_score category)) /\
      scores (onChange None category p) !! Category.id category = Some 0 /\
      (forall parsed, exists v,
          scores (onChange parsed category p) !! Category.id category = Some v /\
          0 <= v <= Category.max_score category)) /\
  (forall env user p w q,
      In (UpsertScore q) (sent (snd (saveScores env user p w))) ->
      In (UpsertScore q) (sent w) \/
      scores p !! ScorePayload.category_id q = Some (ScorePayload.score q)) /\
  (forall env user team p w category v,
      selectedTeam p = Some team ->
      In category (categories p) ->
      scores p !! Category.id category = Some v ->
      (forall i r,
          plannedWrites env team user p (categories p) (length (sent w)) !! i = Some r ->
          fault env (length (sent w) + i) r = None) ->
      settled (Team.id team) (AuthUser.id user) (Category.id category) v
              (scores_tbl (snd (saveScores env (Some user) p w)))) /\
  (forall env user team parsed category p w,
      0 <= Category.max_score category ->
      selectedTeam p = Some team ->
      In category (categories p) ->
      (forall i r,
          plannedWrites env team user (onChange parsed category p)
                        (categories p) (length (sent w)) !! i = Some r ->
          fault env (length (sent w) + i) r = None) ->
      settled (Team.id team) (AuthUser.id user) (Category.id category)
              (Z.min (Z.max 0 (match parsed with Some v => v | None => 0 end))
                     (Category.max_score category))
              (scores_tbl (snd (saveScores env (Some user)
                                  (onChange parsed category p) w))) /\
      0 <= Z.min (Z.max 0 (match parsed with Some v => v | None => 0 end))
                 (Category.max_score category)
        <= Category.max_score category).
Proof.
  split; [|split; [|split]].
  - intros category p Hmax.
    repeat split; intros; try (eexists; split); rewrite ?onChange_entry;
      unfold clamp, orZero; try done; f_equal; lia.
  - intros env user p w q Hq.
    destruct (saveScores_sent_upsert env user p w q Hq) as [H|[_ H]]; auto.
  - intros env user team p w category v Hteam Hcat Hv Hok.
    by destruct (saveScores_accepted_key env user team p w category v).
  - intros env user team parsed category p w Hmax Hteam Hcat Hok.
    split; [|lia].
    by destruct (saveScores_accepted_key env user team (onChange parsed category p) w
                   category _ Hteam Hcat (onChange_entry parsed category p) Hok).
Qed.

Lemma entered_score_is_clamped_and_saved_as_is_witness :
  scores (onChange (Some 42) innovation page_blank) !! "c-inn" = Some 10 /\
  settled "X" "jA" "c-inn" 10
          (scores_tbl (snd (saveScores env_ok (Some judgeA)
                              (onChange (Some 42) innovation page_blank) world0))) /\
  settled "X" "jA" "c-inn" 15
          (scores_tbl (snd (saveScores env_later (Some judgeA)
                              (fst second_visit) (snd second_visit)))).
Proof.
  destruct entered_score_is_clamped_and_saved_as_is as (Hentry & _ & Hany & Hstored).
  split; [|split].
  - destruct (Hentry innovation page_blank) as (_ & _ & Habove & _); [simpl; lia|].
    apply (Habove 42). simpl. lia.
  - destruct (Hstored env_ok judgeA teamX (Some 42) innovation page_blank world0)
      as [Hset _]; [simpl; lia|reflexivity|simpl; auto|reflexivity|].
    exact Hset.
  - apply (Hany env_later judgeA teamX (fst second_visit) (snd second_visit)
             innovation 15);
      [reflexivity|simpl; auto|vm_compute; reflexivity|reflexivity].
Defined.

(** C3 as stated fails.  A 15 entered while the category allowed 20
    is, once the maximum is 10, loaded by the page and sent and stored
    again as 15 by [saveScores], which checks no range; and for a
    category whose maximum is negative the value the input handler
    yields, and the submission stores, is outside [0 .. max_score]. *)
Lemma out_of_range_score_is_persisted :
  Category.max_score innovation = 10 /\
  scores (fst second_visit) !! "c-inn" = Some 15 /\
  In (upsertRequest env_later teamX judgeA innovation 15 4)
     (sent (snd (saveScores env_later (Some judgeA)
                   (fst second_visit) (snd second_visit)))) /\
  map ScoreRow.score
      (scores_tbl (snd (saveScores env_later (Some judgeA)
                          (fst second_visit) (snd second_visit))))
  = [15] /\
  map ScoreRow.score
      (scores_tbl (snd (saveScores env_ok (Some judgeA)
                          (onChange (Some 3) penalty page_penalty) world0)))
  = [-5] /\
  scores (onChange (Some 3) penalty page_penalty) !! "c-pen" = Some (-5) /\
  ~ (0 <= -5 <= Category.max_score penalty).
Proof.
  split; [reflexivity|]. split; [vm_compute; reflexivity|].
  split; [vm_compute; repeat (first [left; reflexivity | right])|].
  split; [vm_compute; reflexivity|].
  split; [vm_compute; reflexivity|].
  split; [vm_compute; reflexivity|]. simpl. lia.
Qed.

(** C8, as the code has it.  Comment handling of a submission.
    (a) If the comment is empty after trimming, the comment table is
    unchanged and no comment write is sent.
    (b) If the trimmed comment is not empty and a prior comment of the
    pair is known, an accepted submission updates the row with that id
    to the trimmed text, in place (no row is added).
    (c) If it is not empty and no prior comment is known, an accepted
    submission appends one row for the pair with the trimmed text.
    (d) Over any sequence of edits and submissions by the judge on the
    selected team, starting with the page in agreement with the store,
    and provided the store answers the comment reads of the page, the
    pair never has more than one comment row. *)
Theorem comment_is_skipped_updated_or_inserted :
  (forall env user p w,
      Js.trim (comment p) = ""%string ->
      comments_tbl (snd (saveScores env user p w)) = comments_tbl w /\
      forall r, In r (sent (snd (saveScores env user p w))) ->
                is_comment_write r = true -> In r (sent w)) /\
  (forall env user team p w c,
      selectedTeam p = Some team ->
      Js.trim (comment p) <> ""%string ->
      existingComment p = Some c ->
      (forall i r,
          plannedWrites env team user p (categories p) (length (sent w)) !! i = Some r ->
          fault env (length (sent w) + i) r = None) ->
      exists ts,
        In (UpdateComment (Comment.id c) (Js.trim (comment p)) ts)
           (sent (snd (saveScores env (Some user) p w))) /\
        comments_tbl (snd (saveScores env (Some user) p w))
        = update_comment (Comment.id c) (Js.trim (comment p)) ts (comments_tbl w) /\
        length (comments_tbl (snd (saveScores env (Some user) p w)))
        = length (comments_tbl w)) /\
  (forall env user team p w,
      selectedTeam p = Some team ->
      Js.trim (comment p) <> ""%string ->
      existingComment p = None ->
      (forall i r,
          plannedWrites env team user p (categories p) (length (sent w)) !! i = Some r ->
          fault env (length (sent w) + i) r = None) ->
      exists row,
        In (InsertComment (Team.id team) (AuthUser.id user) (Js.trim (comment p)))
           (sent (snd (saveScores env (Some user) p w))) /\
        comments_tbl (snd (saveScores env (Some user) p w))
        = comments_tbl w ++ [row] /\
        CommentRow.team_id row = Team.id team /\
        CommentRow.judge_id row = AuthUser.id user /\
        CommentRow.comment row = Js.trim (comment p)) /\
  (forall env user team actions p w,
      (forall n t j, fault env n (SelectComment t j) = None) ->
      in_sync team user p w ->
      (length (comments_of (Team.id team) (AuthUser.id user)
                 (snd (session env user actions (p, w)))) <= 1)%nat).
Proof.
  assert (forall env user team p w,
             selectedTeam p = Some team ->
             Js.trim (comment p) <> ""%string ->
             (forall i r,
                 plannedWrites env team user p (categories p) (length (sent w)) !! i
                 = Some r ->
                 fault env (length (sent w) + i) r = None) ->
             exists m,
               In (commentRequest env team user p m)
                  (sent (snd (saveScores env (Some user) p w))) /\
               comments_tbl (snd (saveScores env (Some user) p w))
               = comments_tbl (effect env m (commentRequest env team user p m) w))
    as Hwrite.
  { intros env user team p w Hteam Hbody Hok.
    destruct (saveScores_accepted env user team p w Hteam Hok) as (Hsub & _).
    destruct (saveScores_world env user team p w Hteam) as [[_ ->]|[Hno _]]; [|done].
    destruct (submit_ok_comments env user team (setLoading true p) w Hsub)
      as [[Hfalse _]|[_ (m & Hin & Htbl)]].
    - simpl in Hfalse. by apply truthy_false in Hfalse.
    - exists m. simpl. split; [|exact Htbl].
      rewrite !in_app_iff. auto. }
  split; [|split; [|split]].
  - intros env user p w Hempty.
    destruct (selectedTeam p) as [team|] eqn:Hteam;
      [|rewrite saveScores_idle by auto; auto].
    destruct user as [user|]; [|rewrite saveScores_idle by auto; auto].
    split.
    + destruct (saveScores_world env user team p w Hteam) as [[Hok ->]|[Hthrow _]].
      * destruct (submit_ok_comments env user team (setLoading true p) w Hok)
          as [[_ Htbl]|[Htrue _]]; [exact Htbl|].
        simpl in Htrue. by rewrite Hempty in Htrue.
      * by apply (saveScores_throw_comments env user team).
    + intros r Hr Hcw.
      destruct (saveScores_summary env team user p w Hteam) as (k & _ & _ & _ & Hsent).
      destruct (Hsent r Hr) as [H|[H|H]]; [done| |by destruct r].
      destruct (plannedWrites_split env team user p (categories p) (length (sent w)))
        as (ups & Hups & Hsplit).
      rewrite Hsplit, Hempty in H. simpl in H. rewrite app_nil_r in H.
      rewrite Forall_forall in Hups.
      apply list_elem_of_In, Hups in H. congruence.
  - intros env user team p w c Hteam Hbody Hc Hok.
    destruct (Hwrite env user team p w Hteam Hbody Hok) as (m & Hin & Htbl).
    unfold commentRequest in *. rewrite Hc in *.
    exists (clock env m). split; [exact Hin|]. rewrite Htbl. simpl.
    split; [done|]. unfold update_comment. by rewrite length_map.
  - intros env user team p w Hteam Hbody Hnone Hok.
    destruct (Hwrite env user team p w Hteam Hbody Hok) as (m & Hin & Htbl).
    unfold commentRequest in *. rewrite Hnone in *.
    eexists. split; [exact Hin|]. rewrite Htbl. simpl.
    unfold insert_comment. split; [reflexivity|]. done.
  - intros env user team actions p w Hreads Hsync.
    apply in_sync_at_most_one with (p := fst (session env user actions (p, w))).
    by apply (session_in_sync env team user Hreads actions (p, w)).
Qed.

Lemma comment_is_skipped_updated_or_inserted_witness :
  (exists row,
      comments_tbl (snd (saveScores env_ok (Some judgeA) page0 world0)) = [row] /\
      CommentRow.comment row = "solid demo"%string) /\
  (length (comments_of "X" "jA"
             (snd (session env_ok judgeA [Save; TypeComment " solid demo"; Save]
                     (page0, world0)))) <= 1)%nat.
Proof.
  destruct comment_is_skipped_updated_or_inserted as (_ & _ & Hinsert & Hsession).
  split.
  - destruct (Hinsert env_ok judgeA teamX page0 world0) as (row & _ & Htbl & _ & _ & Hc);
      [reflexivity|discriminate|reflexivity|reflexivity|].
    exists row. split; [exact Htbl|exact Hc].
  - apply (Hsession env_ok judgeA teamX); [reflexivity|].
    split; [reflexivity|]. reflexivity.
Defined.

(** C8 as stated fails.  No race is needed for a second row: the
    store accepts every write but refuses the comment read that follows
    a submission, the page then knows of no comment, and the next
    submission with a comment inserts again.  Starting from an empty
    store, two submissions leave two comment rows of the pair. *)
Lemma refused_comment_read_leaves_two_rows :
  comments_of "X" "jA" world0 = [] /\
  existingComment page0 = None /\
  List.filter (fun r => negb (is_write r))
    (sent (snd (session env_refuse_comment_read judgeA
                       [Save; TypeComment "on reflection"; Save] (page0, world0))))
  = [SelectScores "X" "jA"; SelectComment "X" "jA";
     SelectScores "X" "jA"; SelectComment "X" "jA"] /\
  alerts (fst (session env_refuse_comment_read judgeA
                 [Save; TypeComment "on reflection"; Save] (page0, world0)))
  = ["Scores and comment saved successfully!";
     "Scores and comment saved successfully!"]%string /\
  map CommentRow.comment
      (comments_of "X" "jA"
         (snd (session env_refuse_comment_read judgeA
                 [Save; TypeComment "on reflection"; Save] (page0, world0))))
  = ["solid demo"; "on reflection"]%string /\
  ~ (length (comments_of "X" "jA"
               (snd (session env_refuse_comment_read judgeA
                       [Save; TypeComment "on reflection"; Save] (page0, world0))))
     <= 1)%nat.
Proof.
  split; [reflexivity|]. split; [reflexivity|].
  split; [vm_compute; reflexivity|]. split; [vm_compute; reflexivity|].
  split; [vm_compute; reflexivity|]. vm_compute. lia.
Qed.

(** The scenario of the specification: the same comment submitted
    twice leaves one comment row, holding the trimmed text. *)
Example same_comment_twice_one_row :
  map CommentRow.comment
      (comments_tbl (snd (session env_ok judgeA [Save; TypeComment " solid demo"; Save]
                            (page0, world0))))
  = ["solid demo"%string].
Proof. vm_compute. reflexivity. Qed.

End SubmissionClaims.

(** ** Sign-in *)

Section SignInFacts.
Import AuthContext.

Lemma signInByName_throw r required notFound fault table name st e st' :
  signInByName r required notFound fault table name st = (Throw e, st') ->
  st' = st.
Proof.
  unfold signInByName. destruct (falsy name); [by intros [= _ <-]|].
  destruct (lookupByName fault table _) as [[row|] [err|]]; simpl;
    intros [= ]; done.
Qed.

Lemma signIn_throw b r credentials st e st' :
  signIn b r credentials st = (Throw e, st') -> st' = st.
Proof.
  destruct r; simpl.
  - destruct (_ || _); [by intros [= _ <-]|].
    destruct (signInWithPassword b _ _); intros [= ]; done.
  - apply signInByName_throw.
  - apply signInByName_throw.
Qed.

Lemma signIn_by_name b r credentials st :
  r <> admin ->
  signIn b r credentials st
  = signInByName r (requiredMessage r) (notFoundMessage r)
      (lookup_fault b) (table_of b r) (Credentials.name credentials) st.
Proof. by destruct r. Qed.

End SignInFacts.

(** ** Claims about sign-in *)

Module SignInClaims.
Import AuthContext Scenario.

(** C9, as the code has it.  Judge and team sign-in look the name up
    exactly.  A missing or empty name fails with the role's "Name
    required" error before any lookup.  For a non-empty name: if the
    store reports an error, sign-in fails with that error; if no row
    has the name, it fails with "Judge not found" or "Team not found";
    if several rows have it, it fails with the client's multiple-rows
    error; if exactly one row has it, that row becomes the identity.
    Whenever sign-in fails, for any role, the current-user state and
    the stored identity are unchanged. *)
Theorem signIn_failures_leave_identity_unchanged :
  (forall b r credentials st,
      r <> admin -> falsy (Credentials.name credentials) = true ->
      signIn b r credentials st = (Throw (JsError (requiredMessage r)), st)) /\
  (forall b r credentials st name e,
      r <> admin -> Credentials.name credentials = Some name -> name <> ""%string ->
      lookup_fault b = Some e ->
      signIn b r credentials st = (Throw (Upstream e), st)) /\
  (forall b r credentials st name,
      r <> admin -> Credentials.name credentials = Some name -> name <> ""%string ->
      lookup_fault b = None ->
      named name (table_of b r) = [] ->
      signIn b r credentials st = (Throw (JsError (notFoundMessage r)), st)) /\
  (forall b r credentials st name,
      r <> admin -> Credentials.name credentials = Some name -> name <> ""%string ->
      lookup_fault b = None ->
      (2 <= length (named name (table_of b r)))%nat ->
      signIn b r credentials st = (Throw (Upstream Supabase.PGRST116), st)) /\
  (forall b r credentials st name row,
      r <> admin -> Credentials.name credentials = Some name -> name <> ""%string ->
      lookup_fault b = None ->
      named name (table_of b r) = [row] ->
      signIn b r credentials st
      = (Ok tt, establish {| AuthUser.role := r;
                             AuthUser.id := NamedRow.id row;
                             AuthUser.name := NamedRow.name row;
                             AuthUser.email := None |})) /\
  (forall b r credentials st e st',
      signIn b r credentials st = (Throw e, st') -> st' = st).
Proof.
  assert (forall name, name <> ""%string -> falsy (Some name) = false) as Hname.
  { intros name Hne. simpl. by apply String.eqb_neq. }
  repeat split.
  - intros b r credentials st Hr Hfalsy.
    rewrite signIn_by_name by done. unfold signInByName. by rewrite Hfalsy.
  - intros b r credentials st name e Hr Hcred Hne Hfault.
    rewrite signIn_by_name by done. unfold signInByName, lookupByName.
    by rewrite Hcred, (Hname _ Hne), Hfault.
  - intros b r credentials st name Hr Hcred Hne Hfault Hrows.
    rewrite signIn_by_name by done. unfold signInByName, lookupByName.
    rewrite Hcred, (Hname _ Hne), Hfault. simpl.
    by rewrite Hrows.
  - intros b r credentials st name Hr Hcred Hne Hfault Hrows.
    rewrite signIn_by_name by done. unfold signInByName, lookupByName.
    rewrite Hcred, (Hname _ Hne), Hfault. simpl.
    destruct (named name (table_of b r)) as [|row [|row' rows]]; simpl in *;
      [lia|lia|done].
  - intros b r credentials st name row Hr Hcred Hne Hfault Hrows.
    rewrite signIn_by_name by done. unfold signInByName, lookupByName.
    rewrite Hcred, (Hname _ Hne), Hfault. simpl.
    by rewrite Hrows.
  - intros b r credentials st e st'. apply signIn_throw.
Qed.

Lemma signIn_failures_leave_identity_unchanged_witness :
  signIn backend0 team (byName "Team Z") signedIn
  = (Throw (JsError "Team not found"), signedIn).
Proof.
  destruct signIn_failures_leave_identity_unchanged as (_ & _ & Hnone & _).
  apply (Hnone backend0 team (byName "Team Z") signedIn "Team Z");
    [discriminate|reflexivity|discriminate|reflexivity|reflexivity].
Defined.

(** C9 as stated fails: the empty name matches no row, yet sign-in
    fails with the "Name required" error, not with "not found"; and
    were two rows to carry one name (the [UNIQUE] constraint on [name]
    of the migration keeps the store from it), sign-in would fail with
    the client's multiple-rows error, which the login form shows as
    "Login failed". *)
Lemma empty_or_ambiguous_name_is_not_reported_not_found :
  named "" (judges backend0) = [] /\
  signIn backend0 judge (byName "") signedIn
  = (Throw (JsError "Name required for judge login"), signedIn) /\
  JsError "Name required for judge login" <> JsError "Judge not found" /\
  named "Ann" (judges backend0) = [ann1; ann2] /\
  signIn backend0 judge (byName "Ann") signedIn
  = (Throw (Upstream Supabase.PGRST116), signedIn) /\
  Upstream Supabase.PGRST116 <> JsError "Judge not found" /\
  shownError (Upstream Supabase.PGRST116) = "Login failed"%string.
Proof. repeat split; try reflexivity; discriminate. Qed.

End SignInClaims.

(** ** More about the leaderboard *)

Section LeaderboardMore.
Import Leaderboard LeaderboardView.

Lemma sort_insert_stable {A} (key : A -> Z) (v : Z) (x : A) (l : list A) :
  List.filter (fun a => key a =? v)
              (Js.sort_insert (fun a b => key b - key a) x l)
  = List.filter (fun a => key a =? v) (x :: l).
Proof.
  induction l as [|y l IH]; [done|].
  cbn [Js.sort_insert].
  destruct (Z.leb_spec (key y - key x) 0) as [Hle|Hgt]; [done|].
  cbn [List.filter] in *. rewrite IH.
  destruct (Z.eqb_spec (key x) v) as [Hx|Hx]; [|done].
  destruct (Z.eqb_spec (key y) v) as [Hy|Hy]; [lia|done].
Qed.

Lemma sort_stable {A} (key : A -> Z) (v : Z) (l : list A) :
  List.filter (fun a => key a =? v) (Js.sort (fun a b => key b - key a) l)
  = List.filter (fun a => key a =? v) l.
Proof.
  induction l as [|x l IH]; [done|].
  cbn [Js.sort fold_right]. fold (Js.sort (fun a b => key b - key a) l).
  rewrite sort_insert_stable. cbn [List.filter]. by rewrite IH.
Qed.

Lemma sum_for_perm tid ss ss' : ss ≡ₚ ss' -> sum_for tid ss = sum_for tid ss'.
Proof.
  induction 1 as [|s l1 l2 _ IH|s1 s2 l|l1 l2 l3 _ IH1 _ IH2]; simpl; lia.
Qed.

Lemma teamScores_sum_for scores teams :
  teamScores scores teams
  = map (fun t => {| ts_team_id := t_id t; ts_team_name := t_name t;
                     ts_total_score := sum_for (t_id t) (rows scores) |}) teams.
Proof. unfold teamScores. apply map_ext. intros t. by rewrite total_is_sum_for. Qed.

Lemma sumZ_perm l l' : l ≡ₚ l' -> sumZ l = sumZ l'.
Proof.
  induction 1 as [|x l1 l2 _ IH|x y l|l1 l2 l3 _ IH1 _ IH2]; simpl; lia.
Qed.

Lemma sumZ_app l l' : sumZ (l ++ l') = sumZ l + sumZ l'.
Proof. induction l as [|x l IH]; simpl; lia. Qed.

(** One row counts for the one listed team that has its id. *)
Lemma sumZ_one_row teams s :
  NoDup (map t_id teams) ->
  sumZ (map (fun t => if String.eqb (s_team_id s) (t_id t) then s_score s else 0) teams)
  = if listed teams s then s_score s else 0.
Proof.
  unfold listed. induction teams as [|t teams IH]; simpl; [done|].
  intros [Hfresh Hnd]%NoDup_cons. rewrite IH by done.
  destruct (String.eqb_spec (s_team_id s) (t_id t)) as [Heq|_]; simpl; [|lia].
  destruct (existsb _ teams) eqn:Hex; [|lia].
  exfalso. apply Hfresh.
  apply existsb_exists in Hex as (t' & Ht' & Heq'%String.eqb_eq).
  rewrite <- Heq, Heq'. apply list_elem_of_In, in_map. done.
Qed.

Lemma sumZ_sum_for teams ss :
  NoDup (map t_id teams) ->
  sumZ (map (fun t => sum_for (t_id t) ss) teams)
  = sumZ (map s_score (List.filter (listed teams) ss)).
Proof.
  intros Hnd. induction ss as [|s ss IH]; simpl.
  - induction teams as [|t teams IHt]; simpl; [done|].
    apply NoDup_cons in Hnd as [_ Hnd]. by rewrite IHt.
  - transitivity
      (sumZ (map (fun t => if String.eqb (s_team_id s) (t_id t)
                           then s_score s else 0) teams)
       + sumZ (map (fun t => sum_for (t_id t) ss) teams)).
    + clear. induction teams as [|t teams IHt]; simpl; lia.
    + rewrite sumZ_one_row, IH by done.
      destruct (listed teams s); simpl; lia.
Qed.

End LeaderboardMore.

(** ** Further properties of the leaderboard *)

Module LeaderboardExtras.
Import Leaderboard LeaderboardView Scenario.

(** X1. Ties keep the input order: for every total, the entries with
    that total appear on the board in the order in which their teams
    were listed by the teams query; a board without any score row of
    a listed team lists the teams in their input order. *)
Theorem ties_keep_team_order
    (scores : option (list ScoreSel)) (teams : list TeamSel) :
  (forall v,
      List.filter (has_total v) (forget_rank <$> rankedData scores teams)
      = List.filter (has_total v) (teamScores scores teams)) /\
  ((forall s t, In s (rows scores) -> In t teams -> s_team_id s <> t_id t) ->
   map team_id (rankedData scores teams) = map t_id teams).
Proof.
  split.
  - intros v. rewrite forget_rank_rankedData.
    apply (sort_stable ts_total_score).
  - intros Hnone.
    assert (List.filter (has_total 0) (teamScores scores teams)
            = teamScores scores teams) as Hall.
    { apply forallb_filter_id, forallb_forall. intros ts Hts.
      rewrite teamScores_sum_for in Hts.
      apply in_map_iff in Hts as (t & <- & Ht). unfold has_total. simpl.
      rewrite sum_for_no_rows; [done|]. intros s Hs. by apply Hnone. }
    assert (List.filter (has_total 0) (forget_rank <$> rankedData scores teams)
            = forget_rank <$> rankedData scores teams) as Hall'.
    { apply forallb_filter_id, forallb_forall. intros ts Hts.
      apply list_elem_of_In in Hts. rewrite rankedData_perm in Hts.
      apply list_elem_of_In in Hts. rewrite <- Hall in Hts.
      by apply filter_In in Hts as [_ Hts]. }
    assert (forget_rank <$> rankedData scores teams = teamScores scores teams) as Heq.
    { rewrite <- Hall', <- Hall. rewrite forget_rank_rankedData.
      apply (sort_stable ts_total_score). }
    transitivity (map ts_team_id (forget_rank <$> rankedData scores teams)).
    + change (map ts_team_id) with (fmap (M:=list) ts_team_id).
      rewrite <- list_fmap_compose. done.
    + rewrite Heq. unfold teamScores. rewrite map_map. done.
Qed.

Lemma ties_keep_team_order_witness :
  map team_id (rankedData None demo_teams) = ["Y"; "X"]%string.
Proof.
  destruct (ties_keep_team_order None demo_teams) as [_ Horder].
  rewrite Horder; [reflexivity|]. intros s t [].
Defined.

(** X2. The board does not depend on the order in which the store
    returns the score rows. *)
Theorem board_ignores_row_order (ss ss' : list ScoreSel) (teams : list TeamSel) :
  ss ≡ₚ ss' -> rankedData (Some ss) teams = rankedData (Some ss') teams.
Proof.
  intros Hperm. unfold rankedData. f_equal. f_equal.
  rewrite !teamScores_sum_for. apply map_ext. intros t. simpl.
  by rewrite (sum_for_perm _ _ _ Hperm).
Qed.

Lemma board_ignores_row_order_witness :
  rankedData (Some (rev demo_scores)) demo_teams
  = rankedData (Some demo_scores) demo_teams.
Proof.
  apply board_ignores_row_order. symmetry. apply Permutation_rev.
Defined.

(** X3. Points are neither lost nor counted twice: with distinct team
    ids, the totals on the board add up to the sum of the scores of
    the rows whose team is listed (rows of other teams are ignored). *)
Theorem board_totals_add_up
    (scores : option (list ScoreSel)) (teams : list TeamSel) :
  NoDup (map t_id teams) ->
  sumZ (map total_score (rankedData scores teams))
  = sumZ (map s_score (List.filter (listed teams) (rows scores))).
Proof.
  intros Hnd.
  transitivity (sumZ (map ts_total_score (teamScores scores teams))).
  - transitivity (sumZ (map ts_total_score (forget_rank <$> rankedData scores teams))).
    + change (map ts_total_score) with (fmap (M:=list) ts_total_score).
      by rewrite <- list_fmap_compose.
    + apply sumZ_perm. change (map ts_total_score) with (fmap (M:=list) ts_total_score).
      by rewrite rankedData_perm.
  - rewrite teamScores_sum_for, map_map. simpl. by apply sumZ_sum_for.
Qed.

Lemma board_totals_add_up_witness :
  sumZ (map total_score (rankedData (Some demo_scores) demo_teams)) = 30.
Proof.
  rewrite board_totals_add_up; [reflexivity|].
  apply (bool_decide_unpack _). vm_compute. exact I.
Defined.

(** X4. The podium icons go to the first three rows of the board, in
    order, whatever the totals: the row at position [i] shows the
    [i]-th of trophy, medal, award, and no icon from the fourth row
    on; so tied teams at the top still get different icons. *)
Theorem podium_icons_follow_position
    (scores : option (list ScoreSel)) (teams : list TeamSel) (i : nat)
    (e : LeaderboardEntry) :
  rankedData scores teams !! i = Some e ->
  getRankIcon (rank e) = podium !! i.
Proof.
  intros He. rewrite (rankedData_lookup_rank _ _ _ _ He).
  unfold getRankIcon.
  destruct i as [|[|[|i]]]; [reflexivity..|].
  rewrite !(proj2 (Z.eqb_neq _ _)) by lia.
  unfold podium. simpl. by rewrite lookup_nil.
Qed.

Lemma podium_icons_follow_position_witness :
  getRankIcon 2 = Some Medal.
Proof.
  apply (podium_icons_follow_position None demo_teams 1%nat
           {| team_id := "X"; team_name := "Team X"; total_score := 0; rank := 2 |}).
  reflexivity.
Defined.

(** X5. Failure of [fetchLeaderboard]: if either fetch reports an
    error, or the teams reply carries no data, the board shown stays
    what it was; in every case the loading flag is cleared, and when
    both fetches succeed the board is the ranked data. *)
Theorem fetchLeaderboard_failure_keeps_board
    (scoresReply : Supabase.Reply (list ScoreSel))
    (teamsReply : Supabase.Reply (list TeamSel)) (st : PageState) :
  loading (fetchLeaderboard scoresReply teamsReply st) = false /\
  (is_Some (Supabase.error scoresReply) \/ is_Some (Supabase.error teamsReply) \/
   Supabase.data teamsReply = None ->
   leaderboard (fetchLeaderboard scoresReply teamsReply st) = leaderboard st) /\
  (forall teams,
      Supabase.error scoresReply = None -> Supabase.error teamsReply = None ->
      Supabase.data teamsReply = Some teams ->
      leaderboard (fetchLeaderboard scoresReply teamsReply st)
      = rankedData (Supabase.data scoresReply) teams).
Proof.
  unfold fetchLeaderboard.
  destruct (Supabase.error scoresReply) as [e1|];
    [split; [done|]; split; [done|]; intros; done|].
  destruct (Supabase.error teamsReply) as [e2|];
    [split; [done|]; split; [done|]; intros; done|].
  destruct (Supabase.data teamsReply) as [teams|].
  - split; [done|]. split.
    + intros [[? ?]|[[? ?]|?]]; done.
    + by intros teams' _ _ [= <-].
  - split; [done|]. split; [done|]. intros; done.
Qed.

Lemma fetchLeaderboard_failure_keeps_board_witness :
  leaderboard
    (fetchLeaderboard
       {| Supabase.data := None; Supabase.error := Some denied |}
       {| Supabase.data := Some demo_teams; Supabase.error := None |}
       {| leaderboard := rankedData None demo_teams; loading := true |})
  = rankedData None demo_teams.
Proof.
  destruct (fetchLeaderboard_failure_keeps_board
              {| Supabase.data := None; Supabase.error := Some denied |}
              {| Supabase.data := Some demo_teams; Supabase.error := None |}
              {| leaderboard := rankedData None demo_teams; loading := true |})
    as (_ & Hkeep & _).
  apply Hkeep. left. by eexists.
Defined.

End LeaderboardExtras.

(** ** More about the judge page *)

Section JudgeMore.
Import Store JudgeDashboard JudgePage.
Variable env : Env.

Lemma fetchScoresForTeam_answered user tid p w :
  fault env (length (sent w)) (SelectScores tid (AuthUser.id user)) = None ->
  fst (fetchScoresForTeam env user tid p w)
  = setScores (scoresMap (scores_of tid (AuthUser.id user) w)) p.
Proof. unfold fetchScoresForTeam, send. by intros ->. Qed.

Lemma fetchScoresForTeam_refused user tid p w e :
  fault env (length (sent w)) (SelectScores tid (AuthUser.id user)) = Some e ->
  fst (fetchScoresForTeam env user tid p w) = setScores ∅ p.
Proof. unfold fetchScoresForTeam, send. by intros ->. Qed.

Lemma fold_insert_other (rows : list ScoreRow.t) (m : gmap string Z) c :
  (forall r, In r rows -> ScoreRow.category_id r <> c) ->
  fold_left (fun m score => <[ScoreRow.category_id score := ScoreRow.score score]> m)
            rows m !! c = m !! c.
Proof.
  revert m. induction rows as [|r rows IH]; intros m Hother; simpl; [done|].
  rewrite IH by (intros r' Hr'; apply Hother; by right).
  apply lookup_insert_ne. apply Hother. by left.
Qed.

(** The loaded map holds [v] for a category all of whose rows hold [v]. *)
Lemma fold_insert_settled (rows : list ScoreRow.t) (m : gmap string Z) c v :
  (forall r, In r rows -> ScoreRow.category_id r = c -> ScoreRow.score r = v) ->
  (exists r, In r rows /\ ScoreRow.category_id r = c) ->
  fold_left (fun m score => <[ScoreRow.category_id score := ScoreRow.score score]> m)
            rows m !! c = Some v.
Proof.
  revert m. induction rows as [|r rows IH]; intros m Hall Hex; simpl.
  - by destruct Hex as (r & [] & _).
  - destruct (existsb (fun r' => String.eqb (ScoreRow.category_id r') c) rows) eqn:Hrest.
    + apply IH; [intros r' Hr'; apply Hall; by right|].
      apply existsb_exists in Hrest as (r' & Hr' & Hc%String.eqb_eq). eauto.
    + rewrite fold_insert_other.
      * destruct Hex as (r' & [<-|Hr'] & Hc).
        -- rewrite <- Hc, (Hall r (or_introl eq_refl) Hc). apply lookup_insert_eq.
        -- exfalso.
           assert (existsb (fun r' => String.eqb (ScoreRow.category_id r') c) rows = true);
             [|congruence].
           apply existsb_exists. exists r'. split; [done|]. by apply String.eqb_eq.
      * intros r' Hr' Hc.
        assert (existsb (fun r' => String.eqb (ScoreRow.category_id r') c) rows = true);
          [|congruence].
        apply existsb_exists. exists r'. split; [done|]. by apply String.eqb_eq.
Qed.

Lemma scoresMap_settled t j c v w :
  settled t j c v (scores_tbl w) -> scoresMap (scores_of t j w) !! c = Some v.
Proof.
  intros [Hex Hall]. unfold scoresMap. apply fold_insert_settled.
  - intros r [Hr Hpair]%filter_In Hc. rewrite Forall_forall in Hall.
    apply (Hall r); [by apply list_elem_of_In|].
    apply andb_true_iff in Hpair as [Ht Hj].
    unfold has_key. rewrite Ht, Hj. simpl. by apply String.eqb_eq.
  - apply existsb_exists in Hex as (r & Hr & (Ht & Hj & Hc)%has_key_true).
    exists r. split; [|done]. apply filter_In. split; [done|].
    rewrite Ht, Hj, !String.eqb_refl. done.
Qed.

(** *** The uniqueness constraint *)

Lemma map_key_overwrite p tbl :
  map key_of (map (fun r => if conflicts p r then overwrite p r else r) tbl)
  = map key_of tbl.
Proof.
  rewrite map_map. apply map_ext. intros r.
  destruct (conflicts p r) eqn:Hc; [|done].
  apply has_key_true in Hc as (Ht & Hj & Hcat).
  unfold key_of. simpl. by rewrite Ht, Hj, Hcat.
Qed.

Lemma upsert_unique n p tbl : unique_keys tbl -> unique_keys (upsert env n p tbl).
Proof.
  unfold unique_keys, upsert. intros Hnd.
  destruct (existsb (conflicts p) tbl) eqn:Hex.
  - by rewrite map_key_overwrite.
  - rewrite map_app. simpl. apply NoDup_app. split; [done|].
    split; [|apply NoDup_singleton].
    intros k Hk ->%list_elem_of_singleton.
    apply list_elem_of_In, in_map_iff in Hk as (r & Hkey & Hr).
    assert (existsb (conflicts p) tbl = true); [|congruence].
    apply existsb_exists. exists r. split; [done|].
    apply has_key_true. unfold key_of in Hkey. simpl in Hkey. by injection Hkey.
Qed.

Lemma applyAll_unique reqs : forall n w,
  unique_keys (scores_tbl w) -> unique_keys (scores_tbl (applyAll env n reqs w)).
Proof.
  induction reqs as [|r reqs IH]; intros n w Hu; simpl; [done|].
  apply IH. destruct r; simpl; try done. by apply upsert_unique.
Qed.

Lemma unique_keys_at_most_one t j c tbl :
  unique_keys tbl -> (length (List.filter (has_key t j c) tbl) <= 1)%nat.
Proof.
  unfold unique_keys. induction tbl as [|r tbl IH]; simpl; [lia|].
  intros [Hfresh Hnd]%NoDup_cons.
  destruct (has_key t j c r) eqn:Hr; [|by apply IH]. simpl.
  rewrite filter_none; [simpl; lia|].
  intros r' Hr'. destruct (has_key t j c r') eqn:Hk; [|done].
  exfalso. apply Hfresh.
  apply has_key_true in Hr as (Ht & Hj & Hc).
  apply has_key_true in Hk as (Ht' & Hj' & Hc').
  replace (key_of r) with (key_of r')
    by (unfold key_of; by rewrite Ht, Hj, Hc, Ht', Hj', Hc').
  apply list_elem_of_In, in_map. done.
Qed.

(** *** Rows are never removed *)

Lemma upsert_identity_prefix n p tbl :
  map score_identity tbl `prefix_of` map score_identity (upsert env n p tbl).
Proof.
  unfold upsert. destruct (existsb (conflicts p) tbl).
  - rewrite map_map.
    replace (map (fun x => score_identity (if conflicts p x then overwrite p x else x)) tbl)
      with (map score_identity tbl); [done|].
    apply map_ext. intros r. by destruct (conflicts p r).
  - rewrite map_app. by apply prefix_app_r.
Qed.

Lemma update_comment_identity id c ts tbl :
  map comment_identity (update_comment id c ts tbl) = map comment_identity tbl.
Proof.
  induction tbl as [|r tbl IH]; simpl; [done|].
  rewrite IH. by destruct (String.eqb _ _).
Qed.

Lemma applyAll_identity_prefix reqs : forall n w,
  map score_identity (scores_tbl w)
    `prefix_of` map score_identity (scores_tbl (applyAll env n reqs w)) /\
  map comment_identity (comments_tbl w)
    `prefix_of` map comment_identity (comments_tbl (applyAll env n reqs w)).
Proof.
  induction reqs as [|r reqs IH]; intros n w; simpl; [done|].
  destruct (IH (S n) (record r (effect env n r w))) as [Hs Hc].
  split.
  - etrans; [|exact Hs]. destruct r; simpl; try done. apply upsert_identity_prefix.
  - etrans; [|exact Hc]. destruct r as [|id c ts|t j c| |]; simpl; try done.
    + by rewrite update_comment_identity.
    + unfold insert_comment. rewrite map_app. by apply prefix_app_r.
Qed.

(** *** Other teams *)

Lemma upsert_frame_team n p tbl t :
  ScorePayload.team_id p <> t ->
  List.filter (fun r => String.eqb (ScoreRow.team_id r) t) (upsert env n p tbl)
  = List.filter (fun r => String.eqb (ScoreRow.team_id r) t) tbl.
Proof.
  intros Hother. unfold upsert.
  destruct (existsb (conflicts p) tbl).
  - induction tbl as [|r tbl IH]; simpl; [done|].
    rewrite IH. destruct (conflicts p r) eqn:Hr; [|done].
    apply has_key_true in Hr as (Ht & _ & _). simpl.
    rewrite Ht. by rewrite (proj2 (String.eqb_neq _ _) Hother).
  - rewrite List.filter_app. simpl.
    rewrite (proj2 (String.eqb_neq _ _) Hother). by rewrite app_nil_r.
Qed.

Lemma applyAll_frame_team reqs t : forall n w,
  (forall q, In (UpsertScore q) reqs -> ScorePayload.team_id q <> t) ->
  List.filter (fun r => String.eqb (ScoreRow.team_id r) t)
              (scores_tbl (applyAll env n reqs w))
  = List.filter (fun r => String.eqb (ScoreRow.team_id r) t) (scores_tbl w).
Proof.
  induction reqs as [|r reqs IH]; intros n w Hother; simpl; [done|].
  rewrite IH by (intros q Hq; apply Hother; by right).
  destruct r as [q| | | |]; simpl; try done.
  apply upsert_frame_team. apply Hother. by left.
Qed.

Lemma sum_for_team_rows t tbl :
  Leaderboard.sum_for t
    (map (fun r => {| Leaderboard.s_team_id := ScoreRow.team_id r;
                      Leaderboard.s_score := ScoreRow.score r |}) tbl)
  = LeaderboardView.sumZ
      (map ScoreRow.score
           (List.filter (fun r => String.eqb (ScoreRow.team_id r) t) tbl)).
Proof.
  induction tbl as [|r tbl IH]; simpl; [done|].
  rewrite IH. destruct (String.eqb (ScoreRow.team_id r) t); simpl; lia.
Qed.

End JudgeMore.

(** ** Further properties of score submission *)

Module SubmissionExtras.
Import Store JudgeDashboard JudgePage Scenario.

(** X6. What the score input makes of what is typed, for a category
    whose maximum is not negative: a number within [0 .. max_score] is
    kept as typed, a negative one becomes 0, one above the maximum
    becomes the maximum, and text that does not parse becomes 0; the
    pending values of the other categories are not touched. *)
Theorem score_input_keeps_in_range_value (category : Category.t) (p : Page) :
  0 <= Category.max_score category ->
  (forall v, 0 <= v <= Category.max_score category ->
             scores (onChange (Some v) category p) !! Category.id category = Some v) /\
  (forall v, v < 0 ->
             scores (onChange (Some v) category p) !! Category.id category = Some 0) /\
  (forall v, Category.max_score category < v ->
             scores (onChange (Some v) category p) !! Category.id category
             = Some (Category.max_score category)) /\
  scores (onChange None category p) !! Category.id category = Some 0 /\
  (forall parsed k, k <> Category.id category ->
                    scores (onChange parsed category p) !! k = scores p !! k).
Proof.
  intros Hmax. unfold onChange, clamp. simpl.
  repeat split; intros; rewrite ?lookup_insert_eq, ?lookup_insert_ne by done;
    try done; f_equal; simpl; lia.
Qed.

Lemma score_input_keeps_in_range_value_witness :
  scores (onChange (Some 7) design (onChange (Some 42) innovation page_blank))
    !! "c-inn" = Some 10.
Proof.
  destruct (score_input_keeps_in_range_value design
              (onChange (Some 42) innovation page_blank)) as (_ & _ & _ & _ & Hother);
    [simpl; lia|].
  rewrite Hother by discriminate.
  destruct (score_input_keeps_in_range_value innovation page_blank)
    as (_ & _ & Hmax & _); [simpl; lia|].
  apply (Hmax 42). simpl. lia.
Defined.

(** X7. Round trip of a submission: when the store accepts the writes
    and answers the score read that follows, the score map the page
    loads back holds, for every category of the page with a provided
    value, exactly the value that was submitted. *)
Theorem saved_scores_are_loaded_back
    (env : Env) (user : AuthUser.t) (team : Team.t) (p : Page) (w : World) :
  selectedTeam p = Some team ->
  (forall i r,
      plannedWrites env team user p (categories p) (length (sent w)) !! i = Some r ->
      fault env (length (sent w) + i) r = None) ->
  (forall n t j, fault env n (SelectScores t j) = None) ->
  forall category v,
    In category (categories p) ->
    scores p !! Category.id category = Some v ->
    scores (fst (saveScores env (Some user) p w)) !! Category.id category = Some v.
Proof.
  intros Hteam Hok Hread category v Hcat Hv.
  destruct (saveScores_accepted env user team p w Hteam Hok) as (Hsub & Htbl & _).
  destruct (submit env team user (setLoading true p) w) as [r w1] eqn:Heq.
  simpl in Hsub. subst r.
  rewrite (saveScores_ok env team user p w w1 Hteam Heq) in *. simpl in Htbl. simpl.
  rewrite (proj1 (proj2 (proj2 (fetchCommentForTeam_page env user _ _ _)))).
  rewrite fetchScoresForTeam_answered by apply Hread. simpl.
  apply scoresMap_settled.
  destruct (plannedWrites_complete env team user p (categories p)
              (length (sent w)) category v Hcat Hv)
    as (q & Hq & Ht & Hj & Hc & Hs).
  rewrite Htbl, <- Ht, <- Hj, <- Hc, <- Hs.
  apply (applyAll_settles env team user p); [|done].
  intros q' Hq'. by apply (plannedWrites_upsert env team user p _ _ _ Hq').
Qed.

Lemma saved_scores_are_loaded_back_witness :
  scores (fst (saveScores env_ok (Some judgeA) page0 world0)) !! "c-des" = Some 7.
Proof.
  apply (saved_scores_are_loaded_back env_ok judgeA teamX page0 world0
           eq_refl) with (category := design);
    [reflexivity|reflexivity|simpl; auto|reflexivity].
Defined.

(** X8. [saveScores] keeps the uniqueness constraint of the score
    table: if no two rows share (team, judge, category) before, none do
    after, whatever the store answers; and after an accepted submission
    each submitted triple has exactly one row, holding the submitted
    value. *)
Theorem saveScores_keeps_one_row_per_triple
    (env : Env) (user : option AuthUser.t) (p : Page) (w : World) :
  unique_keys (scores_tbl w) ->
  unique_keys (scores_tbl (snd (saveScores env user p w))) /\
  (forall team u category v,
      selectedTeam p = Some team -> user = Some u ->
      (forall i r,
          plannedWrites env team u p (categories p) (length (sent w)) !! i = Some r ->
          fault env (length (sent w) + i) r = None) ->
      In category (categories p) ->
      scores p !! Category.id category = Some v ->
      exists r,
        List.filter (has_key (Team.id team) (AuthUser.id u) (Category.id category))
                    (scores_tbl (snd (saveScores env user p w))) = [r] /\
        ScoreRow.score r = v).
Proof.
  intros Hu.
  assert (unique_keys (scores_tbl (snd (saveScores env user p w)))) as Hu'.
  { destruct (selectedTeam p) as [team|] eqn:Hteam;
      [|by rewrite saveScores_idle by auto].
    destruct user as [u|]; [|by rewrite saveScores_idle by auto].
    destruct (saveScores_summary env team u p w Hteam) as (k & -> & _).
    by apply applyAll_unique. }
  split; [exact Hu'|].
  intros team u category v Hteam -> Hok Hcat Hv.
  destruct (saveScores_accepted env u team p w Hteam Hok) as (_ & Htbl & _).
  destruct (plannedWrites_complete env team u p (categories p)
              (length (sent w)) category v Hcat Hv)
    as (q & Hq & Ht & Hj & Hc & Hs).
  assert (settled (Team.id team) (AuthUser.id u) (Category.id category) v
                  (scores_tbl (snd (saveScores env (Some u) p w)))) as [Hex Hall].
  { rewrite Htbl, <- Ht, <- Hj, <- Hc, <- Hs.
    apply (applyAll_settles env team u p); [|done].
    intros q' Hq'. by apply (plannedWrites_upsert env team u p _ _ _ Hq'). }
  pose proof (unique_keys_at_most_one (Team.id team) (AuthUser.id u)
                (Category.id category) _ Hu') as Hle.
  apply existsb_exists in Hex as (r & Hr & Hk).
  assert (In r (List.filter (has_key (Team.id team) (AuthUser.id u)
                               (Category.id category))
                            (scores_tbl (snd (saveScores env (Some u) p w)))))
    as Hin by (apply filter_In; done).
  destruct (List.filter _ _) as [|r0 [|r1 rest]]; simpl in *; [done| |lia].
  destruct Hin as [->|[]]. exists r. split; [done|].
  rewrite Forall_forall in Hall. apply Hall; [by apply list_elem_of_In|done].
Qed.

Lemma saveScores_keeps_one_row_per_triple_witness :
  unique_keys (scores_tbl (snd (saveScores env_later (Some judgeA)
                                  (onChange (Some 9) innovation page_blank)
                                  world_legacy))).
Proof.
  apply saveScores_keeps_one_row_per_triple.
  apply (bool_decide_unpack _). vm_compute. exact I.
Defined.

(** X9. [saveScores] never removes or reorders a row: the ids and
    creation times of the score rows, and of the comment rows, that
    were there before are still there, in the same order and before
    any new row, whatever the store answers. *)
Theorem saveScores_never_removes_rows
    (env : Env) (user : option AuthUser.t) (p : Page) (w : World) :
  map score_identity (scores_tbl w)
    `prefix_of` map score_identity (scores_tbl (snd (saveScores env user p w))) /\
  map comment_identity (comments_tbl w)
    `prefix_of` map comment_identity (comments_tbl (snd (saveScores env user p w))).
Proof.
  destruct (selectedTeam p) as [team|] eqn:Hteam;
    [|by rewrite saveScores_idle by auto].
  destruct user as [u|]; [|by rewrite saveScores_idle by auto].
  destruct (saveScores_summary env team u p w Hteam) as (k & -> & -> & _).
  apply applyAll_identity_prefix.
Qed.

(** X10. A submission for one team does not change what the
    leaderboard computes for any other team: the sum of the scores of
    the rows of every team other than the selected one is the same
    after [saveScores] as before. *)
Theorem saveScores_leaves_other_teams_totals
    (env : Env) (user : option AuthUser.t) (p : Page) (w : World) (t : string) :
  (forall team, selectedTeam p = Some team -> Team.id team <> t) ->
  Leaderboard.sum_for t
    (LeaderboardView.selectTeamScores (snd (saveScores env user p w)))
  = Leaderboard.sum_for t (LeaderboardView.selectTeamScores w).
Proof.
  intros Hother. unfold LeaderboardView.selectTeamScores.
  rewrite !sum_for_team_rows. do 2 f_equal.
  destruct (selectedTeam p) as [team|] eqn:Hteam;
    [|by rewrite saveScores_idle by auto].
  destruct user as [u|]; [|by rewrite saveScores_idle by auto].
  destruct (saveScores_summary env team u p w Hteam) as (k & -> & _).
  apply applyAll_frame_team. intros q Hq%In_take.
  destruct (plannedWrites_upsert env team u p _ _ _ Hq) as ((-> & _) & _).
  by apply Hother.
Qed.

Lemma saveScores_leaves_other_teams_totals_witness :
  Leaderboard.sum_for "Y"
    (LeaderboardView.selectTeamScores
       (snd (saveScores env_ok (Some judgeA) page0 world_legacy)))
  = 0.
Proof.
  rewrite (saveScores_leaves_other_teams_totals env_ok (Some judgeA) page0
             world_legacy "Y"); [reflexivity|].
  intros team [= <-]. discriminate.
Defined.

End SubmissionExtras.

(** ** More about comments *)

Section CommentMore.
Import Store JudgeDashboard JudgePage.
Variable env : Env.
Variable user : AuthUser.t.

Lemma filter_update_comment (f : CommentRow.t -> bool) id c ts tbl :
  (forall r c' ts',
      f {| CommentRow.id := CommentRow.id r; CommentRow.team_id := CommentRow.team_id r;
           CommentRow.judge_id := CommentRow.judge_id r; CommentRow.comment := c';
           CommentRow.created_at := CommentRow.created_at r;
           CommentRow.updated_at := ts' |} = f r) ->
  List.filter f (update_comment id c ts tbl) = update_comment id c ts (List.filter f tbl).
Proof.
  intros Hf. induction tbl as [|r tbl IH]; simpl; [done|].
  destruct (String.eqb (CommentRow.id r) id) eqn:Hid.
  - rewrite Hf. destruct (f r); simpl; by rewrite ?Hid, IH.
  - destruct (f r); simpl; by rewrite ?Hid, IH.
Qed.

Lemma comments_of_update t j id c ts w m :
  comments_of t j (effect env m (UpdateComment id c ts) w)
  = update_comment id c ts (comments_of t j w).
Proof. unfold comments_of. simpl. by apply filter_update_comment. Qed.

Lemma comments_of_insert t j t' j' c w m :
  comments_of t j (effect env m (InsertComment t' j' c) w)
  = comments_of t j w
    ++ List.filter (fun r => String.eqb (CommentRow.team_id r) t
                             && String.eqb (CommentRow.judge_id r) j)
         [ {| CommentRow.id := gen_random_uuid env m;
              CommentRow.team_id := t'; CommentRow.judge_id := j';
              CommentRow.comment := c;
              CommentRow.created_at := db_now env m;
              CommentRow.updated_at := db_now env m |} ].
Proof. unfold comments_of. cbn [effect comments_tbl]. apply List.filter_app. Qed.

Lemma comments_of_tbl t j w w' :
  comments_tbl w = comments_tbl w' -> comments_of t j w = comments_of t j w'.
Proof. unfold comments_of. by intros ->. Qed.

(** The pair's comments after the comment write of a page in agreement
    with the store: one row, holding the trimmed text. *)
Lemma commentRequest_row team p w m :
  in_sync team user p w ->
  exists row,
    comments_of (Team.id team) (AuthUser.id user)
                (effect env m (commentRequest env team user p m) w) = [row] /\
    CommentRow.comment row = Js.trim (comment p).
Proof.
  intros [_ Hsync]. unfold commentRequest.
  destruct (existingComment p) as [c|] eqn:Hc.
  - rewrite comments_of_update.
    destruct (comments_of _ _ w) as [|row [|row' rows]]; [done| |done].
    destruct Hsync as (c' & [= <-] & Hid). simpl.
    rewrite Hid, String.eqb_refl. by eexists.
  - rewrite comments_of_insert.
    destruct (comments_of _ _ w) as [|row [|row' rows]];
      [|by destruct Hsync as (c' & ? & _)|done].
    simpl. rewrite !String.eqb_refl. simpl. by eexists.
Qed.



(** The comment table after an accepted submission of a comment that
    is not empty after trimming. *)
Lemma saveScores_accepted_comment team p w :
  selectedTeam p = Some team ->
  Js.trim (comment p) <> ""%string ->
  (forall i r,
      plannedWrites env team user p (categories p) (length (sent w)) !! i = Some r ->
      fault env (length (sent w) + i) r = None) ->
  exists m,
    comments_tbl (snd (submit env team user (setLoading true p) w))
    = comments_tbl (effect env m (commentRequest env team user p m) w) /\
    comments_tbl (snd (saveScores env (Some user) p w))
    = comments_tbl (effect env m (commentRequest env team user p m) w).
Proof.
  intros Hteam Hbody Hok.
  destruct (saveScores_accepted env user team p w Hteam Hok) as (Hsub & _).
  destruct (saveScores_world env user team p w Hteam) as [[_ ->]|[Hno _]]; [|done].
  destruct (submit_ok_comments env user team (setLoading true p) w Hsub)
    as [[Hfalse _]|[_ (m & _ & Htbl)]].
  - simpl in Hfalse. by apply truthy_false in Hfalse.
  - exists m. by split.
Qed.

Lemma fetchCommentForTeam_single tid p w row :
  fault env (length (sent w)) (SelectComment tid (AuthUser.id user)) = None ->
  comments_of tid (AuthUser.id user) w = [row] ->
  fst (fetchCommentForTeam env user tid p w)
  = setComment (CommentRow.comment row)
      (setExistingComment (Some {| Comment.id := CommentRow.id row;
                                   Comment.comment := CommentRow.comment row |}) p).
Proof.
  intros Hread Hrow. unfold fetchCommentForTeam, send. rewrite Hread. simpl.
  change (comments_of tid (AuthUser.id user) (record _ w))
    with (comments_of tid (AuthUser.id user) w).
  by rewrite Hrow.
Qed.

Lemma fetchCommentForTeam_refused tid p w e :
  fault env (length (sent w)) (SelectComment tid (AuthUser.id user)) = Some e ->
  fst (fetchCommentForTeam env user tid p w)
  = setComment "" (setExistingComment None p).
Proof. intros Hread. unfold fetchCommentForTeam, send. by rewrite Hread. Qed.

Hypothesis reads_answered :
  forall n t j, fault env n (SelectComment t j) = None.






End CommentMore.

(** ** Further properties of comments *)

Module CommentExtras.
Import Store JudgeDashboard JudgePage Scenario.

(** X11. Round trip of the comment: when the page agrees with the store
    on the selected team's comment, the comment is not empty after
    trimming, the store accepts the writes and answers the comment read
    that follows, the comment box afterwards holds the trimmed text and
    the page knows a comment with that text. *)
Theorem saved_comment_is_loaded_back
    (env : Env) (user : AuthUser.t) (team : Team.t) (p : Page) (w : World) :
  in_sync team user p w ->
  Js.trim (comment p) <> ""%string ->
  (forall i r,
      plannedWrites env team user p (categories p) (length (sent w)) !! i = Some r ->
      fault env (length (sent w) + i) r = None) ->
  (forall n t j, fault env n (SelectComment t j) = None) ->
  comment (fst (saveScores env (Some user) p w)) = Js.trim (comment p) /\
  exists c,
    existingComment (fst (saveScores env (Some user) p w)) = Some c /\
    Comment.comment c = Js.trim (comment p).
Proof.
  intros Hsync Hbody Hok Hread. pose proof Hsync as [Hteam _].
  destruct (saveScores_accepted env user team p w Hteam Hok) as (Hsub & _).
  destruct (saveScores_accepted_comment env user team p w Hteam Hbody Hok)
    as (m & Htbl & _).
  destruct (commentRequest_row env user team p w m Hsync) as (row & Hrow & Htext).
  destruct (submit env team user (setLoading true p) w) as [r w1] eqn:Heq.
  simpl in Hsub, Htbl. subst r.
  rewrite (saveScores_ok env team user p w w1 Hteam Heq). simpl.
  rewrite (fetchCommentForTeam_single env user _ _ _ row).
  - simpl. split; [done|]. by eexists.
  - apply Hread.
  - change (comments_of ?t ?j (record _ w1)) with (comments_of t j w1).
    by rewrite (comments_of_tbl _ _ _ _ Htbl).
Qed.

Lemma saved_comment_is_loaded_back_witness :
  comment (fst (saveScores env_ok (Some judgeA) page0 world0)) = "solid demo"%string.
Proof.
  destruct (saved_comment_is_loaded_back env_ok judgeA teamX page0 world0)
    as [Hbox _]; [by split|discriminate|reflexivity|reflexivity|].
  exact Hbox.
Defined.



(** X13. A refused comment read makes the page forget the comment: the
    box is emptied and no comment is known, whatever the store holds;
    and whenever no comment is known, an accepted submission of a
    comment that is not empty after trimming adds a row for the pair to
    the rows it already has. *)
Theorem forgotten_comment_is_inserted_again :
  (forall env user tid p w e,
      fault env (length (sent w)) (SelectComment tid (AuthUser.id user)) = Some e ->
      existingComment (fst (fetchCommentForTeam env user tid p w)) = None /\
      comment (fst (fetchCommentForTeam env user tid p w)) = ""%string /\
      comments_tbl (snd (fetchCommentForTeam env user tid p w)) = comments_tbl w) /\
  (forall env user team p w,
      selectedTeam p = Some team ->
      existingComment p = None ->
      Js.trim (comment p) <> ""%string ->
      (forall i r,
          plannedWrites env team user p (categories p) (length (sent w)) !! i = Some r ->
          fault env (length (sent w) + i) r = None) ->
      exists row,
        comments_of (Team.id team) (AuthUser.id user)
                    (snd (saveScores env (Some user) p w))
        = comments_of (Team.id team) (AuthUser.id user) w ++ [row] /\
        CommentRow.comment row = Js.trim (comment p)).
Proof.
  split.
  - intros env user tid p w e Hread.
    rewrite (fetchCommentForTeam_refused env user tid p w e Hread).
    rewrite fetchCommentForTeam_world. done.
  - intros env user team p w Hteam Hnone Hbody Hok.
    destruct (saveScores_accepted_comment env user team p w Hteam Hbody Hok)
      as (m & _ & Htbl).
    rewrite (comments_of_tbl _ _ _ _ Htbl).
    unfold commentRequest. rewrite Hnone, comments_of_insert. simpl.
    rewrite !String.eqb_refl. simpl. by eexists.
Qed.

Lemma forgotten_comment_is_inserted_again_witness :
  map CommentRow.comment
      (comments_of "X" "jA"
         (snd (saveScores env_ok (Some judgeA)
                 (setComment "second thoughts"
                    (fst (fetchCommentForTeam env_refuse_comment_read judgeA "X"
                            page_blank world_commented)))
                 (snd (fetchCommentForTeam env_refuse_comment_read judgeA "X"
                         page_blank world_commented)))))
  = ["first thoughts"; "second thoughts"]%string.
Proof.
  destruct forgotten_comment_is_inserted_again as [Hforget Hinsert].
  destruct (Hforget env_refuse_comment_read judgeA "X"%string page_blank
              world_commented denied eq_refl) as (Hnone & _ & _).
  destruct (Hinsert env_ok judgeA teamX
              (setComment "second thoughts"
                 (fst (fetchCommentForTeam env_refuse_comment_read judgeA "X"
                         page_blank world_commented)))
              (snd (fetchCommentForTeam env_refuse_comment_read judgeA "X"
                      page_blank world_commented)))
    as (row & Hrows & Htext); [reflexivity|exact Hnone|discriminate|reflexivity|].
  change (Team.id teamX) with "X"%string in Hrows.
  change (AuthUser.id judgeA) with "jA"%string in Hrows.
  rewrite Hrows, map_app. simpl. rewrite Htext. reflexivity.
Defined.

End CommentExtras.

(** ** More about sign-in *)

Section SignInMore.
Import AuthContext AuthProvider Login.

Lemma named_name name table row :
  In row (named name table) -> NamedRow.name row = name.
Proof. unfold named. intros [_ H]%filter_In. by apply String.eqb_eq. Qed.

Lemma falsy_false s : falsy s = false <-> exists v, s = Some v /\ v <> ""%string.
Proof.
  destruct s as [v|]; simpl.
  - rewrite String.eqb_neq. split; [eauto|]. by intros (v' & [= <-] & H).
  - split; [done|]. by intros (v & ? & _).
Qed.

(** A successful sign-in by name found exactly one row with the name. *)
Lemma signInByName_ok r required notFound fault table name st st' :
  signInByName r required notFound fault table name st = (Ok tt, st') ->
  exists v row,
    name = Some v /\ v <> ""%string /\ fault = None /\ named v table = [row] /\
    st' = establish {| AuthUser.role := r; AuthUser.id := NamedRow.id row;
                       AuthUser.name := v; AuthUser.email := None |}.
Proof.
  unfold signInByName, lookupByName, Supabase.maybeSingle.
  destruct (falsy name) eqn:Hname; [done|].
  apply falsy_false in Hname as (v & -> & Hv). simpl.
  destruct fault as [e|]; [done|].
  destruct (named v table) as [|row [|row' rows]] eqn:Hrows; simpl; [done| |done].
  intros [= <-]. exists v, row. repeat split; try done.
  by rewrite (named_name v table row) by (rewrite Hrows; by left).
Qed.

(** A successful sign-in establishes an identity of the requested role. *)
Lemma signIn_ok_role b r credentials st st' :
  signIn b r credentials st = (Ok tt, st') ->
  exists u, user st' = Some u /\ stored_authUser st' = Some u /\ AuthUser.role u = r.
Proof.
  destruct r; simpl.
  - destruct (_ || _); [done|].
    destruct (signInWithPassword b _ _); [done|]. intros [= <-]. by eexists.
  - intros (v & row & _ & _ & _ & _ & ->)%signInByName_ok. by eexists.
  - intros (v & row & _ & _ & _ & _ & ->)%signInByName_ok. by eexists.
Qed.

Lemma handle_coherent e st :
  user st = stored_authUser st -> user (handle e st) = stored_authUser (handle e st).
Proof.
  intros Hst. destruct e as [b r credentials| |session]; simpl.
  - destruct (signIn b r credentials st) as [[[]|e] st'] eqn:Hs; simpl.
    + destruct (signIn_ok_role _ _ _ _ _ Hs) as (u & -> & -> & _). done.
    + by rewrite (signIn_throw _ _ _ _ _ _ Hs).
  - done.
  - destruct session as [u|]; simpl; [done|].
    destruct st as [u s]. simpl in *. subst u.
    destruct s as [parsed|]; [|done]. by destruct (isAdmin parsed).
Qed.

Lemma run_coherent events : forall st,
  user st = stored_authUser st ->
  user (run events st) = stored_authUser (run events st).
Proof.
  unfold run. induction events as [|e events IH]; intros st Hst; simpl; [done|].
  apply IH. by apply handle_coherent.
Qed.

Lemma role_eqb_eq a b : role_eqb a b = true <-> a = b.
Proof. destruct a, b; simpl; split; congruence. Qed.

Lemma guard_admits r user :
  guard r user = None <-> exists u, user = Some u /\ AuthUser.role u = r.
Proof.
  unfold guard. destruct user as [u|].
  - destruct (role_eqb (AuthUser.role u) r) eqn:Hr.
    + apply role_eqb_eq in Hr. split; [eauto|done].
    + split; [done|]. intros (u' & [= <-] & Hrole).
      apply role_eqb_eq in Hrole. congruence.
  - split; [done|]. by intros (u & ? & _).
Qed.



End SignInMore.

(** ** Further properties of sign-in *)

Module SignInExtras.
Import AuthContext AuthProvider Login Scenario.

(** X14. The identity in memory is always the stored one: after the
    provider is mounted and whatever sign-ins, sign-outs and session
    notifications follow, [user] and the stored [authUser] are equal,
    so mounting the provider again (a reload of the page) gives the
    same state. *)
Theorem identity_survives_reload
    (stored : option AuthUser.t) (events : list Event) :
  user (run events (mount stored)) = stored_authUser (run events (mount stored)) /\
  mount (stored_authUser (run events (mount stored))) = run events (mount stored).
Proof.
  assert (user (run events (mount stored))
          = stored_authUser (run events (mount stored))) as H
    by (by apply run_coherent).
  split; [exact H|].
  destruct (run events (mount stored)) as [u s]. simpl in *. by subst.
Qed.

(** X15. A session notification never signs anybody out: after the
    provider is mounted and whatever happened since, a notification
    without session leaves the state as it is (an administrator whose
    provider session has ended stays the current user), and one with a
    session makes that session's administrator the current and the
    stored identity. *)
Theorem session_notification_never_signs_out
    (stored : option AuthUser.t) (events : list Event) :
  onAuthStateChange None (run events (mount stored)) = run events (mount stored) /\
  (forall s,
      onAuthStateChange (Some s) (run events (mount stored))
      = establish {| AuthUser.role := admin; AuthUser.id := SessionUser.id s;
                     AuthUser.name := "Admin";
                     AuthUser.email := SessionUser.email s |}).
Proof.
  split; [|done].
  pose proof (run_coherent events (mount stored) eq_refl) as H.
  destruct (run events (mount stored)) as [u s]. simpl in *. subst u.
  unfold onAuthStateChange. simpl.
  destruct s as [parsed|]; [|done]. by destruct (isAdmin parsed).
Qed.

(** X16. What a successful sign-in means.  As judge or team: the name
    given is not empty, the lookup was answered, exactly one row of the
    role's table has that name, and the identity established (current
    and stored) has the requested role, that row's id and that name.
    As administrator: e-mail and password are not empty, the identity
    provider accepted them, and the identity is the provider's user
    under the name "Admin". *)
Theorem successful_signIn_identity
    (b : Backend) (r : UserRole) (credentials : Credentials.t)
    (st st' : AuthState) :
  signIn b r credentials st = (Ok tt, st') ->
  (r <> admin ->
   exists name row,
     Credentials.name credentials = Some name /\ name <> ""%string /\
     lookup_fault b = None /\
     named name (table_of b r) = [row] /\
     st' = establish {| AuthUser.role := r; AuthUser.id := NamedRow.id row;
                        AuthUser.name := name; AuthUser.email := None |}) /\
  (r = admin ->
   exists email password s,
     Credentials.email credentials = Some email /\ email <> ""%string /\
     Credentials.password credentials = Some password /\ password <> ""%string /\
     signInWithPassword b email password = inr s /\
     st' = establish {| AuthUser.role := admin; AuthUser.id := SessionUser.id s;
                        AuthUser.name := "Admin";
                        AuthUser.email := SessionUser.email s |}).
Proof.
  intros Hok. split.
  - intros Hr. rewrite signIn_by_name in Hok by done.
    apply signInByName_ok in Hok as (v & row & ? & ? & ? & ? & ?). by exists v, row.
  - intros ->. simpl in Hok.
    destruct (falsy (Credentials.email credentials)) eqn:He; [done|].
    destruct (falsy (Credentials.password credentials)) eqn:Hp; [done|].
    apply falsy_false in He as (email & He & Hne).
    apply falsy_false in Hp as (password & Hp & Hnp).
    rewrite He, Hp in *. simpl in Hok.
    destruct (signInWithPassword b email password) as [e|s] eqn:Hs; [done|].
    injection Hok as <-. by exists email, password, s.
Qed.

Lemma successful_signIn_identity_witness :
  exists name row,
    named name (teams backend0) = [row] /\ NamedRow.id row = "X"%string.
Proof.
  destruct (successful_signIn_identity backend0 team (byName "Team X") signedIn
              (establish {| AuthUser.role := team; AuthUser.id := "X";
                            AuthUser.name := "Team X"; AuthUser.email := None |})
              eq_refl) as [Hname _].
  destruct (Hname ltac:(discriminate)) as (name & row & _ & _ & _ & Hrow & Hst).
  exists name, row. split; [exact Hrow|].
  by injection Hst as <- _.
Defined.

(** X17. The login form navigates exactly when sign-in succeeds.  It
    calls [navigate], with the page of the selected role, if and only
    if [signIn] returned, and does not call it if and only if [signIn]
    threw.  On success the error stays cleared, the identity is the
    one [signIn] established and the guard of the page navigated to
    lets it stay; on failure the error shown is the error's message
    (or "Login failed") and the identity is as it was.  Either way it
    ends not loading. *)
Theorem login_navigates_exactly_on_success
    (b : Backend) (f : Form.t) (st : AuthState) :
  Form.loading (fst (fst (handleSubmit b f st))) = false /\
  (snd (handleSubmit b f st) = Some (route (Form.role f)) <->
   fst (signIn b (Form.role f) (credentialsOf f) st) = Ok tt) /\
  (snd (handleSubmit b f st) = None <->
   exists e, fst (signIn b (Form.role f) (credentialsOf f) st) = Throw e) /\
  (fst (signIn b (Form.role f) (credentialsOf f) st) = Ok tt ->
   Form.error (fst (fst (handleSubmit b f st))) = ""%string /\
   snd (fst (handleSubmit b f st))
   = snd (signIn b (Form.role f) (credentialsOf f) st) /\
   guard (Form.role f) (user (snd (fst (handleSubmit b f st)))) = None) /\
  (forall e,
      fst (signIn b (Form.role f) (credentialsOf f) st) = Throw e ->
      Form.error (fst (fst (handleSubmit b f st))) = shownError e /\
      snd (fst (handleSubmit b f st)) = st).
Proof.
  unfold handleSubmit.
  destruct (signIn b (Form.role f) (credentialsOf f) st) as [[[]|e] st'] eqn:Hs; simpl.
  - split; [done|]. split; [done|]. split; [split; [done|by intros (e & ?)]|].
    split; [|done]. intros _. split; [done|]. split; [done|].
    destruct (signIn_ok_role _ _ _ _ _ Hs) as (u & Hu & _ & Hrole).
    apply guard_admits. eauto.
  - split; [done|]. split; [done|]. split; [split; [eauto|done]|].
    split; [done|]. intros e' [= <-].
    split; [done|]. by apply (signIn_throw _ _ _ _ _ _ Hs).
Qed.

Lemma login_navigates_exactly_on_success_witness :
  snd (handleSubmit backend0
         {| Form.role := team; Form.email := ""; Form.password := "";
            Form.name := "Team X"; Form.error := "stale"; Form.loading := true |}
         signedIn)
  = Some "/team"%string /\
  snd (handleSubmit backend0
         {| Form.role := judge; Form.email := ""; Form.password := "";
            Form.name := "Ann"; Form.error := ""; Form.loading := true |}
         signedIn)
  = None.
Proof.
  split.
  - destruct (login_navigates_exactly_on_success backend0
                {| Form.role := team; Form.email := ""; Form.password := "";
                   Form.name := "Team X"; Form.error := "stale";
                   Form.loading := true |} signedIn) as (_ & [_ Hgo] & _).
    by apply Hgo.
  - destruct (login_navigates_exactly_on_success backend0
                {| Form.role := judge; Form.email := ""; Form.password := "";
                   Form.name := "Ann"; Form.error := ""; Form.loading := true |}
                signedIn) as (_ & _ & [_ Hstay] & _).
    apply Hstay. eexists. reflexivity.
Defined.



End SignInExtras.

(** ** The team page *)

Section TeamFacts.
Import Store TeamDashboard LeaderboardView.

Lemma reduce_sumZ {A} (f : A -> Z) (l : list A) :
  Js.reduce (fun sum x => sum + f x) 0 l = sumZ (map f l).
Proof.
  unfold Js.reduce.
  assert (forall acc, fold_left (fun sum x => sum + f x) l acc = acc + sumZ (map f l)) as H.
  { induction l as [|x l IH]; intros acc; simpl; [lia|]. rewrite IH. lia. }
  by rewrite H.
Qed.

(** Grouping by a key with distinct group keys loses and doubles nothing. *)
Lemma sumZ_group {A B} (ka : A -> string) (kb : B -> string) (val : B -> Z)
    (groups : list A) (items : list B) :
  NoDup (map ka groups) ->
  sumZ (map (fun a => sumZ (map val (List.filter (fun b => String.eqb (kb b) (ka a))
                                                 items))) groups)
  = sumZ (map val (List.filter
                     (fun b => existsb (fun a => String.eqb (kb b) (ka a)) groups)
                     items)).
Proof.
  intros Hnd. induction items as [|b items IH]; simpl.
  - clear Hnd. induction groups as [|a groups IHg]; simpl; [done|]. by rewrite IHg.
  - transitivity
      (sumZ (map (fun a => if String.eqb (kb b) (ka a) then val b else 0) groups)
       + sumZ (map (fun a => sumZ (map val (List.filter
                                              (fun b => String.eqb (kb b) (ka a))
                                              items))) groups)).
    + clear. induction groups as [|a groups IHg]; simpl; [done|].
      rewrite IHg. destruct (String.eqb (kb b) (ka a)); simpl; lia.
    + rewrite IH.
      assert (sumZ (map (fun a => if String.eqb (kb b) (ka a) then val b else 0) groups)
              = if existsb (fun a => String.eqb (kb b) (ka a)) groups
                then val b else 0) as ->.
      { clear IH. induction groups as [|a groups IHg]; simpl; [done|].
        apply NoDup_cons in Hnd as [Hfresh Hnd]. rewrite IHg by done.
        destruct (String.eqb_spec (kb b) (ka a)) as [Heq|_]; simpl; [|lia].
        destruct (existsb _ groups) eqn:Hex; [|lia].
        exfalso. apply Hfresh.
        apply existsb_exists in Hex as (a' & Ha' & Heq'%String.eqb_eq).
        rewrite <- Heq, Heq'. apply list_elem_of_In, in_map. done. }
      destruct (existsb _ groups); simpl; lia.
Qed.

Lemma breakdownOf_scores rows bd :
  breakdownOf rows = Some bd ->
  map ScoreBreakdown.score bd = map ScoreData.score rows.
Proof.
  revert bd. induction rows as [|s rows IH]; intros bd; simpl.
  - by intros [= <-].
  - destruct (ScoreData.judges s), (ScoreData.score_categories s); try done.
    destruct (breakdownOf rows) as [l|]; [|done].
    intros [= <-]. simpl. by rewrite (IH l).
Qed.

Lemma withComments_scores r d :
  totalScore (withComments r d) = totalScore d /\
  scoreBreakdown (withComments r d) = scoreBreakdown d /\
  categories (withComments r d) = categories d /\
  judges (withComments r d) = judges d.
Proof.
  unfold withComments. destruct (commentsData r) as [cs|]; [|done].
  by destruct (formatComments cs).
Qed.

(** The state [fetchData] leaves when the score rows could be read. *)
Lemma fetchData_scores u r d rows bd :
  scoresData r = Some rows -> breakdownOf rows = Some bd ->
  totalScore (fetchData (Some u) r d) = totalOf rows /\
  scoreBreakdown (fetchData (Some u) r d) = bd /\
  categories (fetchData (Some u) r d) = default (categories d) (categoriesData r).
Proof.
  intros Hrows Hbd. unfold fetchData. rewrite Hrows, Hbd.
  match goal with
  | |- context [withComments r ?q] =>
      destruct (withComments_scores r q) as (Ht & Hb & Hc & _)
  end.
  rewrite Ht, Hb, Hc. done.
Qed.

Lemma totalOf_selectScoreData cats js t w :
  totalOf (selectScoreData cats js t w)
  = Leaderboard.sum_for t (selectTeamScores w).
Proof.
  unfold totalOf, selectScoreData, selectTeamScores.
  rewrite reduce_sumZ, map_map. simpl.
  by rewrite sum_for_team_rows.
Qed.

End TeamFacts.

(** ** Properties of the team page *)

Module TeamExtras.
Import Store TeamDashboard LeaderboardView Scenario.

(** X19. The category figures of the team page add up: after
    [fetchData] has read the score rows, and with the categories shown
    having distinct names, the category totals sum to the scores of the
    rows whose category is shown; when every row's category is shown
    they sum to the total score at the top of the page. *)
Theorem category_totals_add_up
    (u : AuthUser.t) (r : Replies) (d : Dash)
    (rows : list ScoreData.t) (bd : list ScoreBreakdown.t) :
  scoresData r = Some rows ->
  breakdownOf rows = Some bd ->
  NoDup (map Category.name (categories (fetchData (Some u) r d))) ->
  sumZ (map (categoryTotal (scoreBreakdown (fetchData (Some u) r d)))
            (categories (fetchData (Some u) r d)))
  = sumZ (map ScoreBreakdown.score
              (List.filter (shown (categories (fetchData (Some u) r d))) bd)) /\
  ((forall s, In s bd -> shown (categories (fetchData (Some u) r d)) s = true) ->
   sumZ (map (categoryTotal (scoreBreakdown (fetchData (Some u) r d)))
             (categories (fetchData (Some u) r d)))
   = totalScore (fetchData (Some u) r d)).
Proof.
  intros Hrows Hbd Hnd.
  destruct (fetchData_scores u r d rows bd Hrows Hbd) as (Htotal & Hbreak & _).
  rewrite Hbreak, Htotal.
  assert (sumZ (map (categoryTotal bd) (categories (fetchData (Some u) r d)))
          = sumZ (map ScoreBreakdown.score
                      (List.filter (shown (categories (fetchData (Some u) r d))) bd)))
    as Hsum.
  { etrans; [|exact (sumZ_group Category.name ScoreBreakdown.category_name
                        ScoreBreakdown.score _ bd Hnd)].
    f_equal. apply map_ext. intros c. unfold categoryTotal. apply reduce_sumZ. }
  split; [exact Hsum|].
  intros Hshown. rewrite Hsum.
  rewrite (forallb_filter_id (shown _) bd) by (by apply forallb_forall).
  unfold totalOf. by rewrite reduce_sumZ, (breakdownOf_scores rows bd Hbd).
Qed.

Lemma category_totals_add_up_witness :
  sumZ (map (categoryTotal
               (scoreBreakdown (fetchData (Some TeamScenario.teamUserX)
                                  TeamScenario.repliesX initialDash)))
            TeamScenario.cats)
  = 30.
Proof.
  destruct (category_totals_add_up TeamScenario.teamUserX TeamScenario.repliesX
              initialDash
              (selectScoreData TeamScenario.cats TeamScenario.judgesAB "X"
                 TeamScenario.world_scored)
              (scoreBreakdown (fetchData (Some TeamScenario.teamUserX)
                                 TeamScenario.repliesX initialDash)))
    as [_ Hall].
  - reflexivity.
  - reflexivity.
  - apply (bool_decide_unpack _). vm_compute. exact I.
  - change (categories (fetchData (Some TeamScenario.teamUserX)
                          TeamScenario.repliesX initialDash))
      with TeamScenario.cats in Hall.
    rewrite Hall; [reflexivity|].
    intros s Hs. vm_compute in Hs.
    destruct Hs as [<-|[<-|[<-|[<-|[]]]]]; reflexivity.
Defined.

(** X20. The leaderboard and the team page agree: every row of the
    board computed from the store shows the total that the team's own
    page computes from the score rows it reads from the same store. *)
Theorem board_total_is_team_page_total
    (w : World) (cats : list Category.t) (js : list Judge.t)
    (teams : list Leaderboard.TeamSel) (e : Leaderboard.LeaderboardEntry) :
  In e (Leaderboard.rankedData (Some (selectTeamScores w)) teams) ->
  Leaderboard.total_score e
  = totalOf (selectScoreData cats js (Leaderboard.team_id e) w) /\
  (forall u r d bd,
      AuthUser.id u = Leaderboard.team_id e ->
      scoresData r = Some (selectScoreData cats js (AuthUser.id u) w) ->
      breakdownOf (selectScoreData cats js (AuthUser.id u) w) = Some bd ->
      totalScore (fetchData (Some u) r d) = Leaderboard.total_score e).
Proof.
  intros He.
  assert (Leaderboard.total_score e
          = totalOf (selectScoreData cats js (Leaderboard.team_id e) w)) as Htotal.
  { destruct (rankedData_In_team _ _ _ He) as (t & _ & Hid & _ & Hsum).
    rewrite totalOf_selectScoreData, Hid. exact Hsum. }
  split; [exact Htotal|].
  intros u r d bd Hu Hrows Hbd.
  destruct (fetchData_scores u r d _ bd Hrows Hbd) as (-> & _).
  by rewrite Hu.
Qed.

Lemma board_total_is_team_page_total_witness :
  totalScore (fetchData (Some TeamScenario.teamUserX) TeamScenario.repliesX initialDash)
  = 30.
Proof.
  destruct (board_total_is_team_page_total TeamScenario.world_scored
              TeamScenario.cats TeamScenario.judgesAB demo_teams
              TeamScenario.entryX) as [_ Hpage].
  - vm_compute. auto.
  - apply (Hpage TeamScenario.teamUserX TeamScenario.repliesX initialDash
             (scoreBreakdown (fetchData (Some TeamScenario.teamUserX)
                                TeamScenario.repliesX initialDash)));
      reflexivity.
Defined.

End TeamExtras.

(** ** The admin page *)

Section AdminFacts.
Import AdminDashboard.
Variable env : Env.

Lemma same_tables_rows tbl w w' : same_tables w w' -> rows_of tbl w = rows_of tbl w'.
Proof. intros (Hj & Ht & _). by destruct tbl. Qed.

Lemma send_refused_tables r w e :
  fault env (length (sent w)) r = Some e ->
  send env r w = (Some e, record r w).
Proof. unfold send. by intros ->. Qed.

Lemma send_answered r w :
  fault env (length (sent w)) r = None ->
  send env r w
  = (fst (effect env (length (sent w)) r w),
     record r (snd (effect env (length (sent w)) r w))).
Proof. unfold send. intros ->. by destruct (effect env _ r w). Qed.

Lemma fetchNamed_tables tbl p w : same_tables w (snd (fetchNamed tbl env p w)).
Proof.
  unfold fetchNamed, send.
  destruct (fault env _ _); simpl; done.
Qed.

Lemma fetchNamed_page tbl p w :
  newJudgeName (fst (fetchNamed tbl env p w)) = newJudgeName p /\
  newTeamName (fst (fetchNamed tbl env p w)) = newTeamName p /\
  alerts (fst (fetchNamed tbl env p w)) = alerts p /\
  loading (fst (fetchNamed tbl env p w)) = loading p.
Proof.
  unfold fetchNamed. by destruct (send env (Select tbl) w) as [[e|] w'].
Qed.

(** The tables after [addNamed]: as before, or with the one new row. *)
Lemma addNamed_tables tbl p w :
  same_tables w (snd (addNamed tbl env p w)) \/
  (Js.trim (newName tbl p) <> ""%string /\
   existsb (has_name (Js.trim (newName tbl p))) (rows_of tbl w) = false /\
   fault env (length (sent w)) (Insert tbl (Js.trim (newName tbl p))) = None /\
   same_tables
     (snd (effect env (length (sent w)) (Insert tbl (Js.trim (newName tbl p))) w))
     (snd (addNamed tbl env p w))).
Proof.
  unfold addNamed.
  destruct (Js.truthy (Js.trim (newName tbl p))) eqn:Htruthy; [|by left].
  assert (Js.trim (newName tbl p) <> ""%string) as Hbody
    by (intros H; by rewrite H in Htruthy).
  destruct (fault env (length (sent w)) (Insert tbl (Js.trim (newName tbl p))))
    as [e|] eqn:Hfault.
  - rewrite (send_refused_tables _ _ _ Hfault). by left.
  - rewrite (send_answered _ _ Hfault).
    destruct (existsb (has_name (Js.trim (newName tbl p))) (rows_of tbl w)) eqn:Hex.
    + simpl. rewrite Hex. simpl. by left.
    + right. split; [done|]. split; [done|]. split; [done|].
      simpl. rewrite Hex. simpl.
      match goal with
      | |- context [fetchNamed tbl env ?q ?v] =>
          pose proof (fetchNamed_tables tbl q v) as Hf;
          destruct (fetchNamed tbl env q v) as [p' w'']
      end.
      simpl in *. by destruct tbl.
Qed.

Lemma sum_for_keep_team id t (l : list ScoreRow.t) :
  t <> id ->
  Leaderboard.sum_for t
    (map (fun r => {| Leaderboard.s_team_id := ScoreRow.team_id r;
                      Leaderboard.s_score := ScoreRow.score r |})
         (keep_other ScoreRow.team_id id l))
  = Leaderboard.sum_for t
      (map (fun r => {| Leaderboard.s_team_id := ScoreRow.team_id r;
                        Leaderboard.s_score := ScoreRow.score r |}) l).
Proof.
  intros Hne. unfold keep_other. induction l as [|r l IH]; simpl; [done|].
  destruct (String.eqb_spec (ScoreRow.team_id r) id) as [Heq|_]; simpl.
  - rewrite IH, Heq. by rewrite (proj2 (String.eqb_neq _ _) (not_eq_sym Hne)).
  - by rewrite IH.
Qed.

Lemma sum_for_keep_judge j t (l : list ScoreRow.t) :
  Leaderboard.sum_for t
    (map (fun r => {| Leaderboard.s_team_id := ScoreRow.team_id r;
                      Leaderboard.s_score := ScoreRow.score r |})
         (keep_other ScoreRow.judge_id j l))
  = Leaderboard.sum_for t
      (map (fun r => {| Leaderboard.s_team_id := ScoreRow.team_id r;
                        Leaderboard.s_score := ScoreRow.score r |}) l)
    - LeaderboardView.sumZ
        (map ScoreRow.score
             (List.filter (fun r => String.eqb (ScoreRow.team_id r) t
                                    && String.eqb (ScoreRow.judge_id r) j) l)).
Proof.
  unfold keep_other. induction l as [|r l IH]; simpl; [done|].
  destruct (String.eqb (ScoreRow.judge_id r) j); simpl;
    destruct (String.eqb (ScoreRow.team_id r) t); simpl; lia.
Qed.

Lemma keep_other_In {A} (ref : A -> string) id l r :
  In r (keep_other ref id l) -> In r l /\ ref r <> id.
Proof.
  unfold keep_other. intros [Hr Hne]%filter_In. split; [done|].
  apply negb_true_iff in Hne. by apply String.eqb_neq.
Qed.

(** The tables after a confirmed delete the store accepts. *)
Lemma deleteNamed_tables tbl id p w :
  fault env (length (sent w)) (Delete tbl id) = None ->
  same_tables (snd (effect env (length (sent w)) (Delete tbl id) w))
              (snd (deleteNamed tbl env true id p w)).
Proof.
  intros Hfault. unfold deleteNamed. rewrite (send_answered _ _ Hfault).
  cbn [effect fst snd].
  match goal with
  | |- context [fetchNamed tbl env p ?v] => pose proof (fetchNamed_tables tbl p v) as Hf
  end.
  destruct Hf as (? & ? & ? & ?). repeat split; simpl in *; congruence.
Qed.

End AdminFacts.

(** ** Properties of the admin page *)

Module AdminExtras.
Import AdminDashboard.

(** X21. Adding a judge or a team.  A name that is blank after
    trimming sends nothing and changes nothing.  Otherwise, whatever
    the store answers: the scores, the comments and the other table are
    untouched; every row of the table afterwards was there before or
    carries the trimmed, non-empty name; and if the names of the table
    were distinct before, they are distinct after. *)
Theorem adding_keeps_names_distinct_and_trimmed
    (tbl : Table) (env : Env) (p : Page) (w : World) :
  (Js.trim (newName tbl p) = ""%string -> addNamed tbl env p w = (p, w)) /\
  scores_tbl (snd (addNamed tbl env p w)) = scores_tbl w /\
  comments_tbl (snd (addNamed tbl env p w)) = comments_tbl w /\
  (forall tbl', tbl' <> tbl ->
                rows_of tbl' (snd (addNamed tbl env p w)) = rows_of tbl' w) /\
  (forall r, In r (rows_of tbl (snd (addNamed tbl env p w))) ->
             In r (rows_of tbl w) \/
             (NamedRow.name r = Js.trim (newName tbl p) /\
              Js.trim (newName tbl p) <> ""%string)) /\
  (unique_names (rows_of tbl w) ->
   unique_names (rows_of tbl (snd (addNamed tbl env p w)))).
Proof.
  split.
  { intros Hblank. unfold addNamed. by rewrite Hblank. }
  destruct (addNamed_tables env tbl p w)
    as [Hsame|(Hbody & Hfresh & Hfault & Hsame)].
  - pose proof (same_tables_rows tbl _ _ Hsame) as Hrows.
    destruct Hsame as (Hj & Ht & Hs & Hc).
    split; [done|]. split; [done|]. split.
    + intros tbl' _. by destruct tbl'.
    + rewrite <- Hrows. split; [by left|done].
  - pose proof (same_tables_rows tbl _ _ Hsame) as Hrows.
    destruct Hsame as (Hj & Ht & Hs & Hc). simpl in *. rewrite Hfresh in *.
    split; [by destruct tbl|]. split; [by destruct tbl|]. split.
    + intros tbl' Hne. destruct tbl, tbl'; try done; simpl in *; congruence.
    + rewrite <- Hrows.
      assert (rows_of tbl (snd (None (A:=Supabase.StoreError),
                match tbl with
                | Judges =>
                    {| judges_tbl := judges_tbl w
                                     ++ [inserted env (length (sent w))
                                           (Js.trim (newName tbl p))];
                       teams_tbl := teams_tbl w; scores_tbl := scores_tbl w;
                       comments_tbl := comments_tbl w; sent := sent w |}
                | Teams =>
                    {| judges_tbl := judges_tbl w;
                       teams_tbl := teams_tbl w
                                    ++ [inserted env (length (sent w))
                                          (Js.trim (newName tbl p))];
                       scores_tbl := scores_tbl w;
                       comments_tbl := comments_tbl w; sent := sent w |}
                end))
              = rows_of tbl w
                ++ [inserted env (length (sent w)) (Js.trim (newName tbl p))]) as ->
        by (by destruct tbl).
      split.
      * intros r [Hr|[<-|[]]]%in_app_iff; [by left|by right].
      * unfold unique_names. intros Hnd. rewrite map_app. simpl.
        apply NoDup_app. split; [done|]. split; [|apply NoDup_singleton].
        intros name Hin ->%list_elem_of_singleton.
        apply list_elem_of_In, in_map_iff in Hin as (r & Hname & Hr).
        assert (existsb (has_name (Js.trim (newName tbl p))) (rows_of tbl w) = true);
          [|congruence].
        apply existsb_exists. exists r. split; [done|]. by apply String.eqb_eq.
Qed.

Lemma adding_keeps_names_distinct_and_trimmed_witness :
  unique_names (judges_tbl (snd (addJudge AdminScenario.env_ok AdminScenario.page0
                                   AdminScenario.world_scored))).
Proof.
  destruct (adding_keeps_names_distinct_and_trimmed Judges AdminScenario.env_ok
              AdminScenario.page0 AdminScenario.world_scored)
    as (_ & _ & _ & _ & _ & Hunique).
  apply Hunique. apply (bool_decide_unpack _). vm_compute. exact I.
Defined.

(** X22. Who has been added can sign in: when the trimmed name is not
    empty and not yet taken and the store accepts the insert, sign-in
    for that role with the trimmed name succeeds against the store as
    the page leaves it, and establishes the identity of the new row;
    the input is cleared and nothing is alerted. *)
Theorem added_name_can_sign_in
    (tbl : Table) (env : Env) (p : Page) (w : World)
    (provider : string -> string -> Supabase.StoreError + AuthContext.SessionUser.t)
    (st : AuthContext.AuthState) :
  Js.trim (newName tbl p) <> ""%string ->
  existsb (has_name (Js.trim (newName tbl p))) (rows_of tbl w) = false ->
  fault env (length (sent w)) (Insert tbl (Js.trim (newName tbl p))) = None ->
  AuthContext.signIn (backendOf (snd (addNamed tbl env p w)) provider) (role_of tbl)
    {| AuthContext.Credentials.email := None;
       AuthContext.Credentials.password := None;
       AuthContext.Credentials.name := Some (Js.trim (newName tbl p)) |} st
  = (AuthContext.Ok tt,
     AuthContext.establish
       {| AuthContext.AuthUser.role := role_of tbl;
          AuthContext.AuthUser.id := gen_random_uuid env (length (sent w));
          AuthContext.AuthUser.name := Js.trim (newName tbl p);
          AuthContext.AuthUser.email := None |}) /\
  newName tbl (fst (addNamed tbl env p w)) = ""%string /\
  alerts (fst (addNamed tbl env p w)) = alerts p.
Proof.
  intros Hbody Hfresh Hfault.
  assert (rows_of tbl (snd (addNamed tbl env p w))
          = rows_of tbl w ++ [inserted env (length (sent w)) (Js.trim (newName tbl p))])
    as Hrows.
  { destruct (addNamed_tables env tbl p w) as [Hsame|(_ & _ & _ & Hsame)].
    - exfalso. revert Hsame. unfold addNamed.
      destruct (Js.truthy (Js.trim (newName tbl p))) eqn:Ht;
        [|by apply truthy_false in Ht].
      rewrite (send_answered env _ _ Hfault). simpl. rewrite Hfresh. simpl.
      match goal with
      | |- context [fetchNamed tbl env ?q ?v] =>
          pose proof (fetchNamed_tables env tbl q v) as Hf;
          destruct (fetchNamed tbl env q v) as [p' w'']
      end.
      simpl in *. intros Hsame.
      pose proof (same_tables_rows tbl _ _ Hsame) as H1.
      pose proof (same_tables_rows tbl _ _ Hf) as H2.
      rewrite <- H2 in H1. destruct tbl; simpl in H1;
        apply (f_equal (@length _)) in H1; rewrite length_app in H1; simpl in H1; lia.
    - rewrite <- (same_tables_rows tbl _ _ Hsame). simpl. rewrite Hfresh.
      by destruct tbl. }
  split.
  - rewrite signIn_by_name by (by destruct tbl).
    assert (AuthContext.table_of (backendOf (snd (addNamed tbl env p w)) provider)
                                 (role_of tbl)
            = rows_of tbl (snd (addNamed tbl env p w))) as -> by (by destruct tbl).
    unfold AuthContext.signInByName, AuthContext.lookupByName. simpl.
    rewrite (proj2 (String.eqb_neq _ _) Hbody). simpl.
    rewrite Hrows. unfold AuthContext.named. rewrite List.filter_app.
    rewrite (filter_none _ (rows_of tbl w)).
    + simpl. rewrite String.eqb_refl. done.
    + intros r Hr. destruct (String.eqb (NamedRow.name r) _) eqn:Heq; [|done].
      assert (existsb (has_name (Js.trim (newName tbl p))) (rows_of tbl w) = true);
        [|congruence].
      apply existsb_exists. by exists r.
  - unfold addNamed.
    destruct (Js.truthy (Js.trim (newName tbl p))) eqn:Ht;
      [|by apply truthy_false in Ht].
    rewrite (send_answered env _ _ Hfault). simpl. rewrite Hfresh. simpl.
    match goal with
    | |- context [fetchNamed tbl env ?q ?v] =>
        pose proof (fetchNamed_page env tbl q v) as (Hj & Ht' & Ha & _);
        destruct (fetchNamed tbl env q v) as [p' w'']
    end.
    simpl in *. split; [by destruct tbl|done].
Qed.

Lemma added_name_can_sign_in_witness :
  fst (AuthContext.signIn
         (backendOf (snd (addJudge AdminScenario.env_ok AdminScenario.page0
                            AdminScenario.world_scored))
                    (fun _ _ => inl Scenario.denied))
         AuthContext.judge (Scenario.byName "Bob") Scenario.signedIn)
  = AuthContext.Ok tt.
Proof.
  destruct (added_name_can_sign_in Judges AdminScenario.env_ok AdminScenario.page0
              AdminScenario.world_scored (fun _ _ => inl Scenario.denied)
              Scenario.signedIn) as (Hsign & _ & _);
    [discriminate|reflexivity|reflexivity|].
  change (role_of Judges) with AuthContext.judge in Hsign.
  change (addNamed Judges) with addJudge in Hsign.
  unfold Scenario.byName.
  change (Js.trim (newName Judges AdminScenario.page0)) with "Bob"%string in Hsign.
  by rewrite Hsign.
Defined.

(** X23. Deleting a team.  A declined confirmation sends nothing and
    changes nothing.  After a confirmed delete that the store accepts,
    no score and no comment of the team is left, the judges are
    untouched, the team is off the leaderboard, and every entry still
    on the board shows the total it had from the scores before the
    deletion. *)
Theorem deleted_team_leaves_the_board
    (env : Env) (id : string) (p : Page) (w : World) :
  deleteTeam env false id p w = (p, w) /\
  (fault env (length (sent w)) (Delete Teams id) = None ->
   (forall r, In r (scores_tbl (snd (deleteTeam env true id p w))) ->
              ScoreRow.team_id r <> id) /\
   (forall r, In r (comments_tbl (snd (deleteTeam env true id p w))) ->
              CommentRow.team_id r <> id) /\
   judges_tbl (snd (deleteTeam env true id p w)) = judges_tbl w /\
   (forall e, In e (boardOf (snd (deleteTeam env true id p w))) ->
              Leaderboard.team_id e <> id /\
              Leaderboard.total_score e
              = Leaderboard.sum_for (Leaderboard.team_id e) (boardScores w))).
Proof.
  split; [done|]. intros Hfault.
  destruct (deleteNamed_tables env Teams id p w Hfault) as (Hj & Ht & Hs & Hc).
  unfold deleteTeam. simpl in *.
  split; [|split; [|split]].
  - intros r Hr. rewrite <- Hs in Hr. by apply keep_other_In in Hr as [_ ?].
  - intros r Hr. rewrite <- Hc in Hr. by apply keep_other_In in Hr as [_ ?].
  - done.
  - intros e He. unfold boardOf in He.
    destruct (rankedData_In_team _ _ _ He) as (t & Htin & Hid & _ & Hsum).
    unfold boardTeams in Htin. rewrite <- Ht in Htin.
    apply in_map_iff in Htin as (r & <- & Hr).
    apply keep_other_In in Hr as [_ Hne]. simpl in *.
    split; [by rewrite Hid|].
    rewrite Hsum, Hid. simpl. unfold boardScores. rewrite <- Hs.
    by apply sum_for_keep_team.
Qed.

Lemma deleted_team_leaves_the_board_witness :
  Forall (fun e => Leaderboard.team_id e <> "X"%string /\
                   Leaderboard.total_score e
                   = Leaderboard.sum_for (Leaderboard.team_id e)
                       (boardScores AdminScenario.world_scored))
         (boardOf (snd (deleteTeam AdminScenario.env_ok true "X" AdminScenario.page0
                          AdminScenario.world_scored))) /\
  boardOf (snd (deleteTeam AdminScenario.env_ok true "X" AdminScenario.page0
                  AdminScenario.world_scored)) <> [].
Proof.
  destruct (deleted_team_leaves_the_board AdminScenario.env_ok "X"
              AdminScenario.page0 AdminScenario.world_scored) as [_ Hdel].
  destruct (Hdel eq_refl) as (_ & _ & _ & Hboard).
  split; [|vm_compute; discriminate].
  apply Forall_forall. intros e He%list_elem_of_In. by apply Hboard.
Defined.

(** X24. Deleting a judge removes exactly that judge's points: after a
    confirmed delete that the store accepts, the teams are the same,
    and what the leaderboard sums for any team is what it summed
    before minus the points that judge had given the team. *)
Theorem deleted_judge_takes_its_points
    (env : Env) (j : string) (p : Page) (w : World) (t : string) :
  fault env (length (sent w)) (Delete Judges j) = None ->
  teams_tbl (snd (deleteJudge env true j p w)) = teams_tbl w /\
  Leaderboard.sum_for t (boardScores (snd (deleteJudge env true j p w)))
  = Leaderboard.sum_for t (boardScores w) - pointsFrom j t w.
Proof.
  intros Hfault.
  destruct (deleteNamed_tables env Judges j p w Hfault) as (Hj & Ht & Hs & Hc).
  unfold deleteJudge. simpl in *.
  split; [done|].
  unfold boardScores, pointsFrom. rewrite <- Hs. apply sum_for_keep_judge.
Qed.

Lemma deleted_judge_takes_its_points_witness :
  Leaderboard.sum_for "X"
    (boardScores (snd (deleteJudge AdminScenario.env_ok true "jB" AdminScenario.page0
                         AdminScenario.world_scored)))
  = 15.
Proof.
  destruct (deleted_judge_takes_its_points AdminScenario.env_ok "jB"
              AdminScenario.page0 AdminScenario.world_scored "X" eq_refl) as [_ Hsum].
  rewrite Hsum. reflexivity.
Defined.

End AdminExtras.
